(** * Fastq-Filterer: a shallow embedding of [src/filter.c]

    The C program reads two FASTQ files four lines at a time, keeps the read
    pairs whose sequence lines are long enough (and, optionally, whose tile is
    not blacklisted), optionally trims the kept reads, and counts what it did.

    Modelling conventions.
    - A [char*] is the C string it points to: the list of its characters up to,
      and without, the terminating NUL ([cstring]).  Raw bytes coming from a
      file may contain NUL; [c_str] cuts them the way [strcat], [strlen] and
      [fputs] see them.
    - [int] values are [Z]; where the source compares an [int] with a [size_t]
      the conversion to the unsigned 64-bit type is written out ([to_size_t]).
    - A call whose behaviour the C standard leaves undefined (a null pointer
      handed to [strcmp], [fputs] or [fclose], an index before the start of a
      buffer, signed overflow) yields [Undefined].
    - Loops run on fuel; the entry points supply enough fuel themselves and
      [OutOfFuel] is shown never to surface.
    - Allocation always succeeds; the time stamp that [_log] prints is left
      out.
    - Sizes.  [build_output_path] and [_trim_include] come with the sizes of
      the buffers they write to.  The readers and the loop come twice.
      [readln], [filter_iteration], [filter_loop] and [filter_fastqs] leave
      out the sizes of [readln]'s buffers and keep the three counters as
      unbounded integers; [readln_sized], [filter_iteration_sized],
      [filter_loop_sized] and [filter_fastqs_sized] have the buffer sizes
      and the counters as [int]s.  The sized loop returns nothing but what
      the plain loop returns, and returns all of it as long as the lines fit
      the reader and the counters stay inside [int]. *)

From Stdlib Require Import ZArith List Ascii Bool Arith Lia.
From Stdlib Require String.
Import ListNotations String.StringSyntax.
Delimit Scope string_scope with string.

Set Implicit Arguments.

(** ** Outcomes *)

Inductive outcome (A : Type) : Type :=
| Returns (a : A)
| Undefined
| OutOfFuel.

Arguments Returns {A} a.
Arguments Undefined {A}.
Arguments OutOfFuel {A}.

Definition bind {A B : Type} (m : outcome A) (k : A -> outcome B) : outcome B :=
  match m with
  | Returns a => k a
  | Undefined => Undefined
  | OutOfFuel => OutOfFuel
  end.

Notation "x <- m ;; k" := (bind m (fun x => k))
  (at level 61, m at next level, right associativity).
Notation "' p <- m ;; k" := (bind m (fun p => k))
  (at level 61, p pattern, m at next level, right associativity).

(** ** C strings *)

Definition cstring := list ascii.

Definition NUL : ascii := "000"%char.
Definition newline : ascii := "010"%char.

(** String literals of the examples. *)
Definition str (s : String.string) : cstring := String.list_ascii_of_string s.
Arguments str s%_string.

Definition strlen (s : cstring) : nat := length s.

(** The C string that starts a buffer of raw bytes. *)
Fixpoint c_str (buf : list ascii) : cstring :=
  match buf with
  | [] => []
  | c :: rest => if Ascii.eqb c NUL then [] else c :: c_str rest
  end.

Definition strcat (dst : cstring) (src : list ascii) : cstring := dst ++ c_str src.

(** [s[strlen(s) - 1]]: for the empty string the index wraps around to
    [SIZE_MAX] and the access is out of bounds. *)
Definition last_char (s : cstring) : outcome ascii :=
  match rev s with
  | [] => Undefined
  | c :: _ => Returns c
  end.

(** Sign of [strcmp(a, b)]; either argument may be a null pointer. *)
Fixpoint strcmp_chars (a b : cstring) : Z :=
  match a, b with
  | [], [] => 0
  | [], _ :: _ => -1
  | _ :: _, [] => 1
  | x :: a', y :: b' =>
      match Nat.compare (nat_of_ascii x) (nat_of_ascii y) with
      | Eq => strcmp_chars a' b'
      | Lt => -1
      | Gt => 1
      end
  end%Z.

Definition strcmp (a b : option cstring) : outcome Z :=
  match a, b with
  | Some a', Some b' => Returns (strcmp_chars a' b')
  | _, _ => Undefined
  end.

(** [size_t] is the unsigned 64-bit type; an [int] operand of a comparison
    with a [size_t] is converted to it. *)
Definition SIZE_MOD : Z := 2 ^ 64.
Definition INT_MAX : Z := 2 ^ 31 - 1.
Definition to_size_t (i : Z) : Z := (i mod SIZE_MOD)%Z.

(** ** strtok *)

Definition is_delim (delim : cstring) (c : ascii) : bool :=
  existsb (Ascii.eqb c) delim.

Fixpoint skip_delims (delim s : cstring) : cstring :=
  match s with
  | [] => []
  | c :: rest => if is_delim delim c then skip_delims delim rest else s
  end.

(** The token at the head of [s] and what follows the delimiter that ended
    it (the delimiter itself is overwritten with NUL). *)
Fixpoint take_token (delim s : cstring) : cstring * cstring :=
  match s with
  | [] => ([], [])
  | c :: rest =>
      if is_delim delim c then ([], rest)
      else let (tok, after) := take_token delim rest in (c :: tok, after)
  end.

(** [strtok(str, delim)] with its hidden static pointer made explicit:
    [saved] is the text the pointer designates.  [str = None] is the call
    with a null first argument.  The result is the token, if any, together
    with the new saved text. *)
Definition strtok (str : option cstring) (delim : cstring) (saved : cstring)
  : option cstring * cstring :=
  let s := match str with Some s => s | None => saved end in
  match skip_delims delim s with
  | [] => (None, [])
  | c :: rest => let (tok, after) := take_token delim (c :: rest) in (Some tok, after)
  end.

(** ** zlib input streams *)

Inductive gzFile : Type :=
| gz_null                       (* gzopen failed *)
| gz_open (pending : list ascii)  (* the bytes not read yet *)
| gz_closed.

(** The bytes one [gzgets] call stores when it may store up to [n] of them:
    it stops after a newline, after [n] bytes, or at the end of the input. *)
Fixpoint gz_take (n : nat) (s : list ascii) : list ascii * list ascii :=
  match n, s with
  | S n', c :: rest =>
      if Ascii.eqb c newline then ([c], rest)
      else let (got, more) := gz_take n' rest in (c :: got, more)
  | _, _ => ([], s)
  end.

(** [gzgets(f, buf, len)]: [None] is the null result (nothing read, or no
    stream), otherwise the bytes stored before the terminating NUL. *)
Definition gzgets (f : gzFile) (len : nat) : option (list ascii) * gzFile :=
  match f with
  | gz_open s =>
      match gz_take (len - 1) s with
      | ([], _) => (None, f)
      | (got, more) => (Some got, gz_open more)
      end
  | _ => (None, f)
  end.

(** [gzclose] of a null handle is an error return, not a fault. *)
Definition gzclose (f : gzFile) : gzFile :=
  match f with
  | gz_null => gz_null
  | _ => gz_closed
  end.

Definition gz_pending (f : gzFile) : list ascii :=
  match f with
  | gz_open s => s
  | _ => []
  end.

(** ** Line readers *)

Definition block_size : nat := 2048.
Definition unsafe_block_size : nat := 4096.

Definition readln_unsafe (f : gzFile) : outcome (cstring * gzFile) :=
  match gzgets f unsafe_block_size with
  | (Some got, f') => Returns (c_str got, f')
  | (None, f') => Returns ([], f')
  end.

(** The do-while loop of [readln]; [line] is the text gathered so far. *)
Fixpoint readln_loop (fuel : nat) (line : cstring) (f : gzFile)
  : outcome (cstring * gzFile) :=
  match fuel with
  | O => OutOfFuel
  | S fuel' =>
      match gzgets f block_size with
      | (Some _line_part, f') =>
          let line' := strcat line _line_part in
          c <- last_char line' ;;
          if Ascii.eqb c newline then Returns (line', f')
          else readln_loop fuel' line' f'
      | (None, f') => Returns (line, f')
      end
  end.

Definition readln (f : gzFile) : outcome (cstring * gzFile) :=
  readln_loop (S (length (gz_pending f))) [] f.

Inductive read_fn : Type := Readln | Readln_unsafe.

(** A call through the [read_func] pointer. *)
Definition call_read (rf : read_fn) (f : gzFile) : outcome (cstring * gzFile) :=
  match rf with
  | Readln => readln f
  | Readln_unsafe => readln_unsafe f
  end.


(** ** Output streams *)

Inductive FILE : Type :=
| f_null                          (* fopen failed *)
| f_open (written : cstring)
| f_closed (written : cstring).

Definition fputs (s : cstring) (stream : FILE) : outcome FILE :=
  match stream with
  | f_open w => Returns (f_open (w ++ s))
  | _ => Undefined
  end.

Definition fclose (stream : FILE) : outcome FILE :=
  match stream with
  | f_open w => Returns (f_closed w)
  | _ => Undefined
  end.

Definition written (stream : FILE) : cstring :=
  match stream with
  | f_null => []
  | f_open w => w
  | f_closed w => w
  end.

(** ** Records and the global configuration *)

(** The four lines of one read, each as the reader returned it (a line keeps
    its newline). *)
Record fastq : Type := {
  header : cstring;
  seq : cstring;
  strand : cstring;
  qual : cstring
}.

Inductive check_fn : Type := Std_check_read | Tile_check_read.
Inductive include_fn : Type := Std_include | Trim_include_r1 | Trim_include_r2.

(** The globals that [filter_fastqs] only reads.  [tiles_to_remove] is the
    null-terminated array as a list; [None] is the pointer before
    [build_remove_tiles] has run. *)
Record config : Type := {
  threshold : Z;
  quiet : bool;
  r1i_path : option cstring;
  r1o_path : option cstring;
  r2i_path : option cstring;
  r2o_path : option cstring;
  trim_r1 : Z;
  trim_r2 : Z;
  remove_tiles : option cstring;
  tiles_to_remove : option (list cstring);
  read_func : read_fn;
  check_func : check_fn;
  include_func_r1 : include_fn;
  include_func_r2 : include_fn
}.

(** ** Logging *)

Inductive log_msg : Type :=
| Log_differing_reads (line : Z)
| Log_no_o1
| Log_no_o2
| Log_R1 (i o : cstring)
| Log_R2 (i o : cstring)
| Log_threshold (t : Z)
| Log_trim_r1 (n : Z)
| Log_trim_r2 (n : Z)
| Log_remove_tiles (tiles : cstring)
| Log_checked (checked removed remaining exit_status : Z)
| Log_stats_file (path : cstring)
| Print_missing_arguments
| Print_usage
| Print_version.

(** What [_log] adds to the console. *)
Definition _log (q : bool) (msg : log_msg) (console : list log_msg) : list log_msg :=
  if q then console else console ++ [msg].

(** ** Tile identifier *)

Definition colon : cstring := str ":".
Definition comma : cstring := str ",".

(** The [for] loop of [get_tile_id]: [n] further calls of [strtok(NULL, ":")]. *)
Fixpoint walk_fields (n : nat) (field : option cstring) (saved : cstring)
  : option cstring :=
  match n with
  | O => field
  | S n' => let (field', saved') := strtok None colon saved in
            walk_fields n' field' saved'
  end.

Definition get_tile_id (fastq_header : cstring) : option cstring :=
  let (field, saved) := strtok (Some fastq_header) colon [] in
  walk_fields 4 field saved.

(** ** Inclusion predicates *)

Definition std_check_read (t : Z) (r1 r2 : fastq) : bool :=
  (Z.of_nat (strlen (seq r1)) >? to_size_t t)%Z
  && (Z.of_nat (strlen (seq r2)) >? to_size_t t)%Z.

(** The [while] loop of [tile_check_read] over the entries of
    [tiles_to_remove] that are still ahead. *)
Fixpoint tile_loop (tiles : list cstring) (tile_id : option cstring) (ret_val : bool)
  : outcome bool :=
  match tiles with
  | [] => Returns ret_val
  | comp :: rest =>
      c <- strcmp (Some comp) tile_id ;;
      tile_loop rest tile_id (if (c =? 0)%Z then false else ret_val)
  end.

Definition tile_check_read (t : Z) (tiles : option (list cstring)) (r1 r2 : fastq)
  : outcome bool :=
  if negb (std_check_read t r1 r2) then Returns false
  else
    let tile_id := get_tile_id (header r1) in
    match tiles with
    | None => Undefined
    | Some tiles' => tile_loop tiles' tile_id true
    end.

(** A call through the [check_func] pointer. *)
Definition call_check (g : config) (r1 r2 : fastq) : outcome bool :=
  match check_func g with
  | Std_check_read => Returns (std_check_read (threshold g) r1 r2)
  | Tile_check_read => tile_check_read (threshold g) (tiles_to_remove g) r1 r2
  end.

(** ** Output transforms *)

Definition std_include (r : fastq) (outfile : FILE) : outcome FILE :=
  o1 <- fputs (header r) outfile ;;
  o2 <- fputs (seq r) o1 ;;
  o3 <- fputs (strand r) o2 ;;
  fputs (qual r) o3.

(** [s[i] = '\n'; s[i + 1] = '\0';] for [0 <= i].  Up to [i = strlen(s)] the
    two stores fall on the string and its terminator.  Beyond that they fall
    behind the terminator and leave the string as it is, provided they stay
    inside the buffer.  A line that reaches [_trim_include] sits in the
    buffer its reader allocated: [unsafe_block_size] bytes in
    [readln_unsafe], [2 * block_size + 1] or more in [readln].  Of that size
    the model keeps the lower bound only: stores that need a longer buffer
    are left undefined. *)
Definition set_line_end (s : cstring) (i : nat) : outcome cstring :=
  if i <=? strlen s then Returns (firstn i s ++ [newline])
  else if i + 2 <=? unsafe_block_size then Returns s
  else Undefined.

Definition _trim_include (r : fastq) (outfile : FILE) (trim_len : Z) : outcome FILE :=
  if (trim_len =? INT_MAX)%Z then Undefined    (* trim_len + 1 overflows *)
  else if (Z.of_nat (strlen (seq r)) >? to_size_t (trim_len + 1))%Z then
    if (trim_len <? 0)%Z then Undefined        (* seq[-1] *)
    else
      seq' <- set_line_end (seq r) (Z.to_nat trim_len) ;;
      qual' <- set_line_end (qual r) (Z.to_nat trim_len) ;;
      std_include {| header := header r; seq := seq'; strand := strand r; qual := qual' |}
                  outfile
  else std_include r outfile.

Definition trim_include_r1 (g : config) (r : fastq) (outfile : FILE) : outcome FILE :=
  _trim_include r outfile (trim_r1 g).

Definition trim_include_r2 (g : config) (r : fastq) (outfile : FILE) : outcome FILE :=
  _trim_include r outfile (trim_r2 g).

(** A call through [include_func_r1] or [include_func_r2]. *)
Definition call_include (g : config) (fn : include_fn) (r : fastq) (outfile : FILE)
  : outcome FILE :=
  match fn with
  | Std_include => std_include r outfile
  | Trim_include_r1 => trim_include_r1 g r outfile
  | Trim_include_r2 => trim_include_r2 g r outfile
  end.

(** ** The filter loop *)

(** What [filter_fastqs] changes: its four streams, the three counters and
    the console. *)
Record state : Type := {
  r1i : gzFile;
  r2i : gzFile;
  r1o : FILE;
  r2o : FILE;
  read_pairs_checked : Z;
  read_pairs_removed : Z;
  read_pairs_remaining : Z;
  console : list log_msg
}.

(** Four calls of the reader. *)
Definition read_record (rf : read_fn) (f : gzFile) : outcome (fastq * gzFile) :=
  '(h, f1) <- call_read rf f ;;
  '(s, f2) <- call_read rf f1 ;;
  '(p, f3) <- call_read rf f2 ;;
  '(q, f4) <- call_read rf f3 ;;
  Returns ({| header := h; seq := s; strand := p; qual := q |}, f4).

(** [*s] of a C string. *)
Definition first_char (s : cstring) : ascii := hd NUL s.

Inductive step_result : Type :=
| Continue (st : state)
| Return (ret_val : Z) (st : state).

(** One pass through the body of [while (true)]. *)
Definition filter_iteration (g : config) (st : state) : outcome step_result :=
  '(r1, f1) <- read_record (read_func g) (r1i st) ;;
  '(r2, f2) <- read_record (read_func g) (r2i st) ;;
  if Ascii.eqb (first_char (header r1)) NUL || Ascii.eqb (first_char (header r2)) NUL then
    let differ := negb (Ascii.eqb (first_char (header r1)) (first_char (header r2))) in
    let console' :=
      if differ
      then _log (quiet g) (Log_differing_reads (read_pairs_checked st * 4)) (console st)
      else console st in
    let ret_val := if differ then 1%Z else 0%Z in
    o1 <- fclose (r1o st) ;;
    o2 <- fclose (r2o st) ;;
    Returns (Return ret_val
      {| r1i := gzclose f1; r2i := gzclose f2; r1o := o1; r2o := o2;
         read_pairs_checked := read_pairs_checked st;
         read_pairs_removed := read_pairs_removed st;
         read_pairs_remaining := read_pairs_remaining st;
         console := console' |})
  else
    keep <- call_check g r1 r2 ;;
    if keep then
      o1 <- call_include g (include_func_r1 g) r1 (r1o st) ;;
      o2 <- call_include g (include_func_r2 g) r2 (r2o st) ;;
      Returns (Continue
        {| r1i := f1; r2i := f2; r1o := o1; r2o := o2;
           read_pairs_checked := read_pairs_checked st + 1;
           read_pairs_removed := read_pairs_removed st;
           read_pairs_remaining := read_pairs_remaining st + 1;
           console := console st |})
    else
      Returns (Continue
        {| r1i := f1; r2i := f2; r1o := r1o st; r2o := r2o st;
           read_pairs_checked := read_pairs_checked st + 1;
           read_pairs_removed := read_pairs_removed st + 1;
           read_pairs_remaining := read_pairs_remaining st;
           console := console st |}).

Fixpoint filter_loop (fuel : nat) (g : config) (st : state) : outcome (Z * state) :=
  match fuel with
  | O => OutOfFuel
  | S fuel' =>
      r <- filter_iteration g st ;;
      match r with
      | Continue st' => filter_loop fuel' g st'
      | Return ret_val st' => Returns (ret_val, st')
      end
  end.

(** What the program can open. *)
Record filesystem : Type := {
  readable : cstring -> option (list ascii);   (* decompressed content *)
  writable : cstring -> bool
}.

Definition gzopen (fs : filesystem) (path : option cstring) : gzFile :=
  match path with
  | Some p => match readable fs p with
              | Some content => gz_open content
              | None => gz_null
              end
  | None => gz_null
  end.

Definition fopen_w (fs : filesystem) (path : option cstring) : outcome FILE :=
  match path with
  | Some p => Returns (if writable fs p then f_open [] else f_null)
  | None => Undefined
  end.

(** The counters as the program starts: [= 0] in their declaration. *)
Record counters : Type := {
  checked0 : Z;
  removed0 : Z;
  remaining0 : Z
}.

Definition initial_counters : counters :=
  {| checked0 := 0; removed0 := 0; remaining0 := 0 |}.

Definition open_streams (g : config) (fs : filesystem) (c : counters)
  (out : list log_msg) : outcome state :=
  o1 <- fopen_w fs (r1o_path g) ;;
  o2 <- fopen_w fs (r2o_path g) ;;
  Returns {| r1i := gzopen fs (r1i_path g); r2i := gzopen fs (r2i_path g);
             r1o := o1; r2o := o2;
             read_pairs_checked := checked0 c;
             read_pairs_removed := removed0 c;
             read_pairs_remaining := remaining0 c;
             console := out |}.

Definition filter_fastqs (g : config) (fs : filesystem) (c : counters)
  (out : list log_msg) : outcome (Z * state) :=
  st <- open_streams g fs c out ;;
  filter_loop (S (length (gz_pending (r1i st)))) g st.

(** ** Assignments to the globals *)

Definition set_threshold (v : Z) (g : config) : config :=
  {| threshold := v; quiet := quiet g; r1i_path := r1i_path g; r1o_path := r1o_path g;
     r2i_path := r2i_path g; r2o_path := r2o_path g; trim_r1 := trim_r1 g;
     trim_r2 := trim_r2 g; remove_tiles := remove_tiles g;
     tiles_to_remove := tiles_to_remove g; read_func := read_func g;
     check_func := check_func g; include_func_r1 := include_func_r1 g;
     include_func_r2 := include_func_r2 g |}.

Definition set_quiet (v : bool) (g : config) : config :=
  {| threshold := threshold g; quiet := v; r1i_path := r1i_path g;
     r1o_path := r1o_path g; r2i_path := r2i_path g; r2o_path := r2o_path g;
     trim_r1 := trim_r1 g; trim_r2 := trim_r2 g; remove_tiles := remove_tiles g;
     tiles_to_remove := tiles_to_remove g; read_func := read_func g;
     check_func := check_func g; include_func_r1 := include_func_r1 g;
     include_func_r2 := include_func_r2 g |}.

Definition set_r1i_path (v : option cstring) (g : config) : config :=
  {| threshold := threshold g; quiet := quiet g; r1i_path := v; r1o_path := r1o_path g;
     r2i_path := r2i_path g; r2o_path := r2o_path g; trim_r1 := trim_r1 g;
     trim_r2 := trim_r2 g; remove_tiles := remove_tiles g;
     tiles_to_remove := tiles_to_remove g; read_func := read_func g;
     check_func := check_func g; include_func_r1 := include_func_r1 g;
     include_func_r2 := include_func_r2 g |}.

Definition set_r1o_path (v : option cstring) (g : config) : config :=
  {| threshold := threshold g; quiet := quiet g; r1i_path := r1i_path g; r1o_path := v;
     r2i_path := r2i_path g; r2o_path := r2o_path g; trim_r1 := trim_r1 g;
     trim_r2 := trim_r2 g; remove_tiles := remove_tiles g;
     tiles_to_remove := tiles_to_remove g; read_func := read_func g;
     check_func := check_func g; include_func_r1 := include_func_r1 g;
     include_func_r2 := include_func_r2 g |}.

Definition set_r2i_path (v : option cstring) (g : config) : config :=
  {| threshold := threshold g; quiet := quiet g; r1i_path := r1i_path g;
     r1o_path := r1o_path g; r2i_path := v; r2o_path := r2o_path g;
     trim_r1 := trim_r1 g; trim_r2 := trim_r2 g; remove_tiles := remove_tiles g;
     tiles_to_remove := tiles_to_remove g; read_func := read_func g;
     check_func := check_func g; include_func_r1 := include_func_r1 g;
     include_func_r2 := include_func_r2 g |}.

Definition set_r2o_path (v : option cstring) (g : config) : config :=
  {| threshold := threshold g; quiet := quiet g; r1i_path := r1i_path g;
     r1o_path := r1o_path g; r2i_path := r2i_path g; r2o_path := v;
     trim_r1 := trim_r1 g; trim_r2 := trim_r2 g; remove_tiles := remove_tiles g;
     tiles_to_remove := tiles_to_remove g; read_func := read_func g;
     check_func := check_func g; include_func_r1 := include_func_r1 g;
     include_func_r2 := include_func_r2 g |}.

Definition set_trim_r1 (v : Z) (g : config) : config :=
  {| threshold := threshold g; quiet := quiet g; r1i_path := r1i_path g;
     r1o_path := r1o_path g; r2i_path := r2i_path g; r2o_path := r2o_path g;
     trim_r1 := v; trim_r2 := trim_r2 g; remove_tiles := remove_tiles g;
     tiles_to_remove := tiles_to_remove g; read_func := read_func g;
     check_func := check_func g; include_func_r1 := include_func_r1 g;
     include_func_r2 := include_func_r2 g |}.

Definition set_trim_r2 (v : Z) (g : config) : config :=
  {| threshold := threshold g; quiet := quiet g; r1i_path := r1i_path g;
     r1o_path := r1o_path g; r2i_path := r2i_path g; r2o_path := r2o_path g;
     trim_r1 := trim_r1 g; trim_r2 := v; remove_tiles := remove_tiles g;
     tiles_to_remove := tiles_to_remove g; read_func := read_func g;
     check_func := check_func g; include_func_r1 := include_func_r1 g;
     include_func_r2 := include_func_r2 g |}.

Definition set_remove_tiles (v : option cstring) (g : config) : config :=
  {| threshold := threshold g; quiet := quiet g; r1i_path := r1i_path g;
     r1o_path := r1o_path g; r2i_path := r2i_path g; r2o_path := r2o_path g;
     trim_r1 := trim_r1 g; trim_r2 := trim_r2 g; remove_tiles := v;
     tiles_to_remove := tiles_to_remove g; read_func := read_func g;
     check_func := check_func g; include_func_r1 := include_func_r1 g;
     include_func_r2 := include_func_r2 g |}.

Definition set_tiles_to_remove (v : option (list cstring)) (g : config) : config :=
  {| threshold := threshold g; quiet := quiet g; r1i_path := r1i_path g;
     r1o_path := r1o_path g; r2i_path := r2i_path g; r2o_path := r2o_path g;
     trim_r1 := trim_r1 g; trim_r2 := trim_r2 g; remove_tiles := remove_tiles g;
     tiles_to_remove := v; read_func := read_func g; check_func := check_func g;
     include_func_r1 := include_func_r1 g; include_func_r2 := include_func_r2 g |}.

Definition set_read_func (v : read_fn) (g : config) : config :=
  {| threshold := threshold g; quiet := quiet g; r1i_path := r1i_path g;
     r1o_path := r1o_path g; r2i_path := r2i_path g; r2o_path := r2o_path g;
     trim_r1 := trim_r1 g; trim_r2 := trim_r2 g; remove_tiles := remove_tiles g;
     tiles_to_remove := tiles_to_remove g; read_func := v; check_func := check_func g;
     include_func_r1 := include_func_r1 g; include_func_r2 := include_func_r2 g |}.

Definition set_check_func (v : check_fn) (g : config) : config :=
  {| threshold := threshold g; quiet := quiet g; r1i_path := r1i_path g;
     r1o_path := r1o_path g; r2i_path := r2i_path g; r2o_path := r2o_path g;
     trim_r1 := trim_r1 g; trim_r2 := trim_r2 g; remove_tiles := remove_tiles g;
     tiles_to_remove := tiles_to_remove g; read_func := read_func g; check_func := v;
     include_func_r1 := include_func_r1 g; include_func_r2 := include_func_r2 g |}.

Definition set_include_func_r1 (v : include_fn) (g : config) : config :=
  {| threshold := threshold g; quiet := quiet g; r1i_path := r1i_path g;
     r1o_path := r1o_path g; r2i_path := r2i_path g; r2o_path := r2o_path g;
     trim_r1 := trim_r1 g; trim_r2 := trim_r2 g; remove_tiles := remove_tiles g;
     tiles_to_remove := tiles_to_remove g; read_func := read_func g;
     check_func := check_func g; include_func_r1 := v;
     include_func_r2 := include_func_r2 g |}.

Definition set_include_func_r2 (v : include_fn) (g : config) : config :=
  {| threshold := threshold g; quiet := quiet g; r1i_path := r1i_path g;
     r1o_path := r1o_path g; r2i_path := r2i_path g; r2o_path := r2o_path g;
     trim_r1 := trim_r1 g; trim_r2 := trim_r2 g; remove_tiles := remove_tiles g;
     tiles_to_remove := tiles_to_remove g; read_func := read_func g;
     check_func := check_func g; include_func_r1 := include_func_r1 g;
     include_func_r2 := v |}.

(** ** Start-up code *)

(** The globals as their declarations initialise them. *)
Definition default_globals : config :=
  {| threshold := -1; quiet := false;
     r1i_path := None; r1o_path := None; r2i_path := None; r2o_path := None;
     trim_r1 := 0; trim_r2 := 0;
     remove_tiles := None; tiles_to_remove := None;
     read_func := Readln; check_func := Std_check_read;
     include_func_r1 := Std_include; include_func_r2 := Std_include |}.

(** The second loop of [build_remove_tiles], which copies the fields that
    [strtok] finds into the array. *)
Fixpoint copy_fields (fuel : nat) (field : option cstring) (saved : cstring)
  : outcome (list cstring) :=
  match fuel with
  | O => OutOfFuel
  | S fuel' =>
      match field with
      | None => Returns []
      | Some f =>
          let (field', saved') := strtok None comma saved in
          rest <- copy_fields fuel' field' saved' ;;
          Returns (f :: rest)
      end
  end.

Definition build_remove_tiles (g : config) : outcome config :=
  match remove_tiles g with
  | None => Returns g
  | Some rm_tiles =>
      let (field, saved) := strtok (Some rm_tiles) comma [] in
      tiles <- copy_fields (S (strlen rm_tiles)) field saved ;;
      Returns (set_tiles_to_remove (Some tiles) g)
  end.

(** [output_path] is allocated with [basename_len + 15] bytes; [strncpy] and
    the store of the terminator fill [basename_len + 1] of them, and [strcat]
    then needs room for the whole result and its terminator. *)
Definition build_output_path (input_path : cstring) : outcome cstring :=
  c <- last_char input_path ;;
  let file_ext_len := if Ascii.eqb c "z"%char then 9 else 6 in
  if strlen input_path <? file_ext_len then Undefined   (* the size_t difference wraps *)
  else
    let basename_len := strlen input_path - file_ext_len in
    let output_path := firstn basename_len input_path ++ str "_filtered.fastq" in
    if basename_len + 15 <? strlen output_path + 1 then Undefined   (* past the allocation *)
    else Returns output_path.

(** [output_stats] writes a file that nothing reads back; what matters is
    that it faults without a stream to print to. *)
Definition output_stats (fs : filesystem) (stats_file : cstring) : outcome unit :=
  if writable fs stats_file then Returns tt else Undefined.

(** The command line as [getopt_long] hands it over, one entry per
    iteration of the option loop, numeric arguments already through [atoi]. *)
Inductive cli_option : Type :=
| Opt_help
| Opt_version
| Opt_quiet
| Opt_unsafe
| Opt_stats_file (path : cstring)
| Opt_threshold (n : Z)
| Opt_remove_tiles (tiles : cstring)
| Opt_trim_r1 (n : Z)
| Opt_trim_r2 (n : Z)
| Opt_i1 (path : cstring)
| Opt_i2 (path : cstring)
| Opt_o1 (path : cstring)
| Opt_o2 (path : cstring)
| Opt_unrecognised.

Inductive parsed : Type :=
| Exit (status : Z) (out : list log_msg)
| Parsed (g : config) (stats_file : option cstring).

(** The [while]/[switch] over the options. *)
Fixpoint getopt_loop (argv : list cli_option) (g : config) (stats_file : option cstring)
  : outcome parsed :=
  match argv with
  | [] => Returns (Parsed g stats_file)
  | arg :: rest =>
      match arg with
      | Opt_help => Returns (Exit 0 [Print_usage])
      | Opt_version => Returns (Exit 0 [Print_version])
      | Opt_quiet => getopt_loop rest (set_quiet true g) stats_file
      | Opt_unsafe => getopt_loop rest (set_read_func Readln_unsafe g) stats_file
      | Opt_stats_file path => getopt_loop rest g (Some path)
      | Opt_threshold n => getopt_loop rest (set_threshold n g) stats_file
      | Opt_remove_tiles tiles =>
          g' <- build_remove_tiles (set_remove_tiles (Some tiles) g) ;;
          getopt_loop rest (set_check_func Tile_check_read g') stats_file
      | Opt_trim_r1 n =>
          getopt_loop rest (set_include_func_r1 Trim_include_r1 (set_trim_r1 n g)) stats_file
      | Opt_trim_r2 n =>
          getopt_loop rest (set_include_func_r2 Trim_include_r2 (set_trim_r2 n g)) stats_file
      | Opt_i1 path => getopt_loop rest (set_r1i_path (Some path) g) stats_file
      | Opt_i2 path => getopt_loop rest (set_r2i_path (Some path) g) stats_file
      | Opt_o1 path => getopt_loop rest (set_r1o_path (Some path) g) stats_file
      | Opt_o2 path => getopt_loop rest (set_r2o_path (Some path) g) stats_file
      | Opt_unrecognised => Returns (Exit 1 [])
      end
  end.

Definition is_null {A : Type} (p : option A) : bool :=
  match p with
  | None => true
  | Some _ => false
  end.

Definition path_text (p : option cstring) : cstring :=
  match p with
  | Some s => s
  | None => []
  end.

(** [main] from the check of the required arguments on.  The result is the
    exit status, the console and, when the filter ran, its final state. *)
Definition run_main (g : config) (stats_file : option cstring) (fs : filesystem)
  : outcome (Z * list log_msg * option state) :=
  if is_null (r1i_path g) || is_null (r2i_path g) || (threshold g =? -1)%Z
  then Returns (1%Z, [Print_missing_arguments], None)
  else
    '(g1, out1) <-
      (if is_null (r1o_path g)
       then p <- build_output_path (path_text (r1i_path g)) ;;
            Returns (set_r1o_path (Some p) g, _log (quiet g) Log_no_o1 [])
       else Returns (g, [])) ;;
    '(g2, out2) <-
      (if is_null (r2o_path g1)
       then p <- build_output_path (path_text (r2i_path g1)) ;;
            Returns (set_r2o_path (Some p) g1, _log (quiet g1) Log_no_o2 out1)
       else Returns (g1, out1)) ;;
    let q := quiet g2 in
    let out3 := _log q (Log_R1 (path_text (r1i_path g2)) (path_text (r1o_path g2))) out2 in
    let out4 := _log q (Log_R2 (path_text (r2i_path g2)) (path_text (r2o_path g2))) out3 in
    let out5 := _log q (Log_threshold (threshold g2)) out4 in
    let out6 := if (trim_r1 g2 =? 0)%Z then out5 else _log q (Log_trim_r1 (trim_r1 g2)) out5 in
    let out7 := if (trim_r2 g2 =? 0)%Z then out6 else _log q (Log_trim_r2 (trim_r2 g2)) out6 in
    let out8 := match remove_tiles g2 with
                | Some t => _log q (Log_remove_tiles t) out7
                | None => out7
                end in
    '(exit_status, st) <- filter_fastqs g2 fs initial_counters out8 ;;
    let out9 := _log q (Log_checked (read_pairs_checked st) (read_pairs_removed st)
                          (read_pairs_remaining st) exit_status) (console st) in
    match stats_file with
    | Some path =>
        _ <- output_stats fs path ;;
        Returns (exit_status, _log q (Log_stats_file path) out9, Some st)
    | None => Returns (exit_status, out9, Some st)
    end.

Definition main (argv : list cli_option) (fs : filesystem)
  : outcome (Z * list log_msg * option state) :=
  p <- getopt_loop argv default_globals None ;;
  match p with
  | Exit status out => Returns (status, out, None)
  | Parsed g stats_file => run_main g stats_file fs
  end.


(** ** Vocabulary of the properties *)

(** A text stream holds no NUL byte. *)
Definition no_nul (s : list ascii) : bool :=
  forallb (fun c => negb (Ascii.eqb c NUL)) s.

Definition is_text (s : list ascii) : Prop := no_nul s = true.

(** Following the reader's contract: the next line of a stream is its text
    up to and including the first newline, or all of it when it holds none. *)
Fixpoint next_line (s : list ascii) : cstring * list ascii :=
  match s with
  | [] => ([], [])
  | c :: rest =>
      if Ascii.eqb c newline then ([c], rest)
      else let (l, more) := next_line rest in (c :: l, more)
  end.

Definition cstring_eq_dec : forall a b : cstring, {a = b} + {a <> b} :=
  list_eq_dec ascii_dec.

(** Membership in the exclusion set. *)
Definition excluded (tile_id : cstring) (tiles : list cstring) : bool :=
  if in_dec cstring_eq_dec tile_id tiles then true else false.

(** Following the data model: the colon-delimited fields of a header, empty
    ones included. *)
Fixpoint split_on (d : ascii) (s : cstring) : list cstring :=
  match s with
  | [] => [[]]
  | c :: rest =>
      if Ascii.eqb c d then [] :: split_on d rest
      else match split_on d rest with
           | f :: fs => (c :: f) :: fs
           | [] => [[c]]
           end
  end.

Definition fields (fastq_header : cstring) : list cstring := split_on ":"%char fastq_header.

Definition nonempty (s : cstring) : bool :=
  match s with
  | [] => false
  | _ :: _ => true
  end.

(** The fields that [strtok] returns: it never yields an empty one. *)
Definition tokens (d : ascii) (s : cstring) : list cstring :=
  filter nonempty (split_on d s).

(** Following the glossary: the residues of a sequence line are its
    characters without the line terminator. *)
Definition residues (line : cstring) : nat :=
  match rev line with
  | c :: r => if Ascii.eqb c newline then length r else length line
  | [] => 0
  end.

(** Following the transform's description: a sequence line longer than
    [len + 1] is cut to its first [len] characters and a line terminator, and
    so is the quality line; otherwise the record is unchanged. *)
Definition truncate (r : fastq) (len : nat) : fastq :=
  if len + 1 <? strlen (seq r)
  then {| header := header r;
          seq := firstn len (seq r) ++ [newline];
          strand := strand r;
          qual := firstn len (qual r) ++ [newline] |}
  else r.

Definition counter_equation (st : state) : Prop :=
  read_pairs_checked st = (read_pairs_removed st + read_pairs_remaining st)%Z.

Definition counters_le (st st' : state) : Prop :=
  (read_pairs_checked st <= read_pairs_checked st'
   /\ read_pairs_removed st <= read_pairs_removed st'
   /\ read_pairs_remaining st <= read_pairs_remaining st')%Z.

(** The state after one pass through the loop body, whether the pass goes
    round again or returns. *)
Definition state_of (r : step_result) : state :=
  match r with
  | Continue st => st
  | Return _ st => st
  end.

Ltac bind_inv H :=
  repeat match type of H with
  | bind ?m _ = Returns _ =>
      let E := fresh "E" in
      destruct m as [?| |] eqn:E; cbn [bind] in H; [|discriminate H|discriminate H]
  | (let '(_, _) := ?p in _) = Returns _ => destruct p
  | (if ?b then _ else _) = Returns _ =>
      let E := fresh "E" in destruct b eqn:E
  end.

(** What a reader returns on a text stream, and what it leaves. *)
Definition read_text (rf : read_fn) (s : list ascii) : cstring * list ascii :=
  match rf with
  | Readln => next_line s
  | Readln_unsafe => gz_take (unsafe_block_size - 1) s
  end.

Definition record_text (rf : read_fn) (s : list ascii) : fastq * list ascii :=
  let (h, s1) := read_text rf s in
  let (q, s2) := read_text rf s1 in
  let (p, s3) := read_text rf s2 in
  let (l, s4) := read_text rf s3 in
  ({| header := h; seq := q; strand := p; qual := l |}, s4).

(** The text of a record as [std_include] writes it. *)
Definition render (r : fastq) : cstring :=
  header r ++ seq r ++ strand r ++ qual r.

(** An input that [gzopen] may have failed to open. *)
Definition handle_of (o : option (list ascii)) : gzFile :=
  match o with
  | Some s => gz_open s
  | None => gz_null
  end.

Definition pending (o : option (list ascii)) : list ascii :=
  match o with
  | Some s => s
  | None => []
  end.

Definition set_pending (o : option (list ascii)) (s : list ascii) : option (list ascii) :=
  match o with
  | Some _ => Some s
  | None => None
  end.

(** What a run produced: the returned status, the text sent to either
    output, the number of pairs kept and the number dropped. *)
Record summary : Type := {
  status : Z;
  out1 : cstring;
  out2 : cstring;
  kept : nat;
  dropped : nat
}.

(** The text one include call sends to its stream. *)
Definition written_by (g : config) (fn : include_fn) (r : fastq) : outcome cstring :=
  o <- call_include g fn r (f_open []) ;;
  Returns (written o).

(** The loop of [filter_fastqs] as a function of the two input texts. *)
Fixpoint walk (fuel : nat) (g : config) (s1 s2 : list ascii) : outcome summary :=
  match fuel with
  | O => OutOfFuel
  | S fuel' =>
      let (r1, s1') := record_text (read_func g) s1 in
      let (r2, s2') := record_text (read_func g) s2 in
      if nonempty (header r1) && nonempty (header r2) then
        keep <- call_check g r1 r2 ;;
        if keep then
          t1 <- written_by g (include_func_r1 g) r1 ;;
          t2 <- written_by g (include_func_r2 g) r2 ;;
          x <- walk fuel' g s1' s2' ;;
          Returns {| status := status x; out1 := t1 ++ out1 x; out2 := t2 ++ out2 x;
                     kept := S (kept x); dropped := dropped x |}
        else
          x <- walk fuel' g s1' s2' ;;
          Returns {| status := status x; out1 := out1 x; out2 := out2 x;
                     kept := kept x; dropped := S (dropped x) |}
      else
        Returns {| status := if nonempty (header r1) || nonempty (header r2)
                             then 1%Z else 0%Z;
                   out1 := []; out2 := []; kept := 0; dropped := 0 |}
  end.

(** The state [filter_fastqs] returns with, from the summary of the run and
    the state it started in. *)
Definition finish (g : config) (x : summary) (st : state) : state :=
  let checked := (read_pairs_checked st + Z.of_nat (kept x) + Z.of_nat (dropped x))%Z in
  {| r1i := gzclose (r1i st);
     r2i := gzclose (r2i st);
     r1o := f_closed (written (r1o st) ++ out1 x);
     r2o := f_closed (written (r2o st) ++ out2 x);
     read_pairs_checked := checked;
     read_pairs_removed := read_pairs_removed st + Z.of_nat (dropped x);
     read_pairs_remaining := read_pairs_remaining st + Z.of_nat (kept x);
     console := if (status x =? 0)%Z then console st
                else _log (quiet g) (Log_differing_reads (checked * 4)) (console st) |}.

(** A line: newline-free text closed by a newline. *)
Fixpoint ends_line (l : cstring) : bool :=
  match l with
  | [] => false
  | c :: rest =>
      match rest with
      | [] => Ascii.eqb c newline
      | _ :: _ => negb (Ascii.eqb c newline) && ends_line rest
      end
  end.

(** A line that the reader [rf] returns whole. *)
Definition is_line (rf : read_fn) (l : cstring) : bool :=
  no_nul l && ends_line l &&
  match rf with
  | Readln => true
  | Readln_unsafe => length l <=? unsafe_block_size - 1
  end.

Definition is_record (rf : read_fn) (r : fastq) : bool :=
  is_line rf (header r) && is_line rf (seq r) && is_line rf (strand r)
  && is_line rf (qual r).

Definition render_all (rs : list fastq) : list ascii := flat_map render rs.

Definition defined {A : Type} (m : outcome A) : bool :=
  match m with
  | Returns _ => true
  | _ => false
  end.

(** Neither the inclusion predicate nor, for a kept pair, the two output
    transforms fault on the pair. *)
Definition pair_defined (g : config) (p : fastq * fastq) : bool :=
  match call_check g (fst p) (snd p) with
  | Returns true =>
      defined (written_by g (include_func_r1 g) (fst p))
      && defined (written_by g (include_func_r2 g) (snd p))
  | Returns false => true
  | _ => false
  end.

(** The records of a text as the reader [rf] delivers them, four lines at a
    time, until a header comes back empty; the last one may lack lines. *)
Fixpoint records_list (rf : read_fn) (fuel : nat) (s : list ascii) : list fastq :=
  match fuel with
  | O => []
  | S fuel' =>
      let (r, s') := record_text rf s in
      if nonempty (header r) then r :: records_list rf fuel' s' else []
  end.

Definition records (rf : read_fn) (s : list ascii) : list fastq :=
  records_list rf (length s) s.

Definition status_for (n1 n2 : nat) : Z := if n1 =? n2 then 0%Z else 1%Z.

(** The streams as [filter_fastqs] finds them just after opening them. *)
Definition opened (o1 o2 : option (list ascii)) (c : counters) (out : list log_msg)
  : state :=
  {| r1i := handle_of o1; r2i := handle_of o2; r1o := f_open []; r2o := f_open [];
     read_pairs_checked := checked0 c; read_pairs_removed := removed0 c;
     read_pairs_remaining := remaining0 c; console := out |}.

(** Example data. *)

Definition example_read (tile : cstring) (bases : nat) : fastq :=
  {| header := str "@INST:1:FLOW:2:" ++ tile ++ str ":100:200" ++ [newline];
     seq := repeat "A"%char bases ++ [newline];
     strand := str "+" ++ [newline];
     qual := repeat "I"%char bases ++ [newline] |}.

(** A file system with the two inputs [r1.fastq] and [r2.fastq], when they
    are given, and every path open for writing. *)
Definition example_fs (rs1 rs2 : option (list fastq)) : filesystem :=
  {| readable := fun p =>
       if cstring_eq_dec p (str "r1.fastq") then option_map render_all rs1
       else if cstring_eq_dec p (str "r2.fastq") then option_map render_all rs2
       else None;
     writable := fun _ => true |}.

Definition example_argv : list cli_option :=
  [Opt_i1 (str "r1.fastq"); Opt_i2 (str "r2.fastq");
   Opt_o1 (str "o1.fastq"); Opt_o2 (str "o2.fastq"); Opt_threshold 5].

Definition example_globals : config :=
  set_threshold 5
    (set_r2o_path (Some (str "o2.fastq"))
       (set_r1o_path (Some (str "o1.fastq"))
          (set_r2i_path (Some (str "r2.fastq"))
             (set_r1i_path (Some (str "r1.fastq")) default_globals)))).

Definition three_reads : list fastq :=
  [example_read (str "1101") 6; example_read (str "1102") 3; example_read (str "1103") 8].

Definition two_reads : list fastq :=
  [example_read (str "1101") 7; example_read (str "1102") 6].


(** ** The growable reader with its buffer sizes *)

(** The loop of [readln] once more, now with [_block_size] and the sizes of
    the two buffers: [line] holds [_block_size + 1] bytes after each
    [realloc] and [_line_part] holds [block_size].  An [int] addition that
    overflows and a string that does not fit its buffer are undefined. *)
Fixpoint readln_loop_sized (fuel : nat) (_block_size : Z) (line : cstring) (f : gzFile)
  : outcome (cstring * gzFile) :=
  match fuel with
  | O => OutOfFuel
  | S fuel' =>
      if (_block_size + Z.of_nat block_size >? INT_MAX)%Z then Undefined
      else
        let _block_size' := (_block_size + Z.of_nat block_size)%Z in
        match gzgets f block_size with
        | (Some _line_part, f') =>
            if block_size <? length _line_part + 1 then Undefined
            else if (Z.of_nat (strlen line + strlen (c_str _line_part) + 1)
                     >? _block_size' + 1)%Z then Undefined
            else
              let line' := strcat line _line_part in
              c <- last_char line' ;;
              if Ascii.eqb c newline then Returns (line', f')
              else readln_loop_sized fuel' _block_size' line' f'
        | (None, f') => Returns (line, f')
        end
  end.

Definition readln_sized (f : gzFile) : outcome (cstring * gzFile) :=
  readln_loop_sized (S (length (gz_pending f))) (Z.of_nat block_size) [] f.

(** ** The loop within the limits of its types *)

(** The loop as defined so far keeps the three counters and the line offset
    as unbounded integers, and reads with [readln] as if its buffers had no
    size.  Here it is once more with both put in: the counters and the
    offset [read_pairs_checked * 4] are values of type [int], whose overflow
    is undefined, and the growable reader is [readln_sized]. *)

Definition INT_MIN : Z := (- 2 ^ 31)%Z.

Definition in_int (z : Z) : Prop := (INT_MIN <= z <= INT_MAX)%Z.

(** The value of an [int] expression whose mathematical value is [z]. *)
Definition to_int (z : Z) : outcome Z :=
  if ((INT_MIN <=? z) && (z <=? INT_MAX))%Z then Returns z else Undefined.

(** A call through the [read_func] pointer; [readln_unsafe] reads at most
    [unsafe_block_size - 1] bytes into its [unsafe_block_size] and has no
    size of its own to go wrong. *)
Definition call_read_sized (rf : read_fn) (f : gzFile) : outcome (cstring * gzFile) :=
  match rf with
  | Readln => readln_sized f
  | Readln_unsafe => readln_unsafe f
  end.

Definition read_record_sized (rf : read_fn) (f : gzFile) : outcome (fastq * gzFile) :=
  '(h, f1) <- call_read_sized rf f ;;
  '(s, f2) <- call_read_sized rf f1 ;;
  '(p, f3) <- call_read_sized rf f2 ;;
  '(q, f4) <- call_read_sized rf f3 ;;
  Returns ({| header := h; seq := s; strand := p; qual := q |}, f4).

(** One pass through the body of [while (true)].  The argument
    [read_pairs_checked * 4] of [_log] is computed whether or not [_log]
    prints; the two increments of a pass come before its output. *)
Definition filter_iteration_sized (g : config) (st : state) : outcome step_result :=
  '(r1, f1) <- read_record_sized (read_func g) (r1i st) ;;
  '(r2, f2) <- read_record_sized (read_func g) (r2i st) ;;
  if Ascii.eqb (first_char (header r1)) NUL || Ascii.eqb (first_char (header r2)) NUL then
    let differ := negb (Ascii.eqb (first_char (header r1)) (first_char (header r2))) in
    console' <-
      (if differ
       then line <- to_int (read_pairs_checked st * 4) ;;
            Returns (_log (quiet g) (Log_differing_reads line) (console st))
       else Returns (console st)) ;;
    let ret_val := if differ then 1%Z else 0%Z in
    o1 <- fclose (r1o st) ;;
    o2 <- fclose (r2o st) ;;
    Returns (Return ret_val
      {| r1i := gzclose f1; r2i := gzclose f2; r1o := o1; r2o := o2;
         read_pairs_checked := read_pairs_checked st;
         read_pairs_removed := read_pairs_removed st;
         read_pairs_remaining := read_pairs_remaining st;
         console := console' |})
  else
    keep <- call_check g r1 r2 ;;
    if keep then
      checked <- to_int (read_pairs_checked st + 1) ;;
      remaining <- to_int (read_pairs_remaining st + 1) ;;
      o1 <- call_include g (include_func_r1 g) r1 (r1o st) ;;
      o2 <- call_include g (include_func_r2 g) r2 (r2o st) ;;
      Returns (Continue
        {| r1i := f1; r2i := f2; r1o := o1; r2o := o2;
           read_pairs_checked := checked;
           read_pairs_removed := read_pairs_removed st;
           read_pairs_remaining := remaining;
           console := console st |})
    else
      checked <- to_int (read_pairs_checked st + 1) ;;
      removed <- to_int (read_pairs_removed st + 1) ;;
      Returns (Continue
        {| r1i := f1; r2i := f2; r1o := r1o st; r2o := r2o st;
           read_pairs_checked := checked;
           read_pairs_removed := removed;
           read_pairs_remaining := read_pairs_remaining st;
           console := console st |}).

Fixpoint filter_loop_sized (fuel : nat) (g : config) (st : state) : outcome (Z * state) :=
  match fuel with
  | O => OutOfFuel
  | S fuel' =>
      r <- filter_iteration_sized g st ;;
      match r with
      | Continue st' => filter_loop_sized fuel' g st'
      | Return ret_val st' => Returns (ret_val, st')
      end
  end.

Definition filter_fastqs_sized (g : config) (fs : filesystem) (c : counters)
  (out : list log_msg) : outcome (Z * state) :=
  st <- open_streams g fs c out ;;
  filter_loop_sized (S (length (gz_pending (r1i st)))) g st.

(** The states the loop goes through from [st0] on. *)
Inductive reachable (g : config) (st0 : state) : state -> Prop :=
| reach_start : reachable g st0 st0
| reach_iteration (st : state) (r : step_result) :
    reachable g st0 st ->
    filter_iteration_sized g st = Returns r ->
    reachable g st0 (state_of r).

Definition counters_in_int (st : state) : Prop :=
  in_int (read_pairs_checked st) /\ in_int (read_pairs_removed st)
  /\ in_int (read_pairs_remaining st).

(** [m] does what [m'] does, unless it is undefined. *)
Definition refines {A : Type} (m m' : outcome A) : Prop := m = m' \/ m = Undefined.

(** The longest line, newline included, for which [readln_sized] is shown
    to stay inside [int] and inside its buffers. *)
Definition readln_limit : Z := 2047 * 1048572.

(** Every line of [s], counted with its newline, has at most [n] bytes;
    the line under way may take [k] more. *)
Fixpoint lines_within_from (n k : Z) (s : list ascii) : bool :=
  match s with
  | [] => true
  | c :: rest =>
      if (k <=? 0)%Z then false
      else if Ascii.eqb c newline then lines_within_from n n rest
      else lines_within_from n (k - 1) rest
  end.

Definition lines_within (n : Z) (s : list ascii) : bool := lines_within_from n n s.

(** The lines of [s] are within what the reader [rf] can take. *)
Definition reader_fits (rf : read_fn) (s : list ascii) : bool :=
  match rf with
  | Readln => lines_within readln_limit s
  | Readln_unsafe => true
  end.

Definition stream_fits (rf : read_fn) (f : gzFile) : Prop :=
  match f with
  | gz_open s => is_text s /\ reader_fits rf s = true
  | _ => True
  end.

(** ** Vocabulary of the further properties *)

(** The first loop of [build_remove_tiles]: every [strchr] that finds a
    comma adds one to [ntiles], which starts at 1. *)
Fixpoint count_commas (s : cstring) : nat :=
  match s with
  | [] => 0
  | c :: rest => if Ascii.eqb c ","%char then S (count_commas rest) else count_commas rest
  end.

Definition ntiles (rm_tiles : cstring) : nat := S (count_commas rm_tiles).

(** Fields put together with a delimiter between them. *)
Fixpoint join (d : ascii) (fs : list cstring) : cstring :=
  match fs with
  | [] => []
  | f :: rest =>
      match rest with
      | [] => f
      | _ :: _ => f ++ d :: join d rest
      end
  end.

(** A field that is not empty and holds no delimiter. *)
Definition clean_field (d : ascii) (f : cstring) : bool :=
  nonempty f && negb (existsb (Ascii.eqb d) f).

(** The pairs the configured predicate accepts. *)
Definition keeps (g : config) (p : fastq * fastq) : bool :=
  match call_check g (fst p) (snd p) with
  | Returns true => true
  | _ => false
  end.

(** No line of [s] is longer than [n] bytes, its newline included; [k] is
    what the line being scanned may still take. *)
Fixpoint short_lines_from (n k : nat) (s : list ascii) : bool :=
  match s with
  | [] => true
  | c :: rest =>
      match k with
      | O => false
      | S k' =>
          if Ascii.eqb c newline then short_lines_from n n rest
          else short_lines_from n k' rest
      end
  end.

Definition short_lines (n : nat) (s : list ascii) : bool := short_lines_from n n s.

(** The options that neither end the program in the option loop nor set the
    threshold. *)
Definition leaves_threshold (o : cli_option) : bool :=
  match o with
  | Opt_help | Opt_version | Opt_unrecognised | Opt_threshold _ => false
  | _ => true
  end.

(** The messages that go through [_log]. *)
Definition logged (msg : log_msg) : bool :=
  match msg with
  | Print_missing_arguments | Print_usage | Print_version => false
  | _ => true
  end.

(** * Properties *)

(** ** Text *)

Lemma is_text_app (a b : list ascii) :
  is_text (a ++ b) <-> is_text a /\ is_text b.
Proof.
  unfold is_text, no_nul. rewrite forallb_app, andb_true_iff. tauto.
Qed.

Lemma is_text_cons (c : ascii) (s : list ascii) :
  is_text (c :: s) <-> c <> NUL /\ is_text s.
Proof.
  unfold is_text, no_nul. simpl. rewrite andb_true_iff, negb_true_iff.
  rewrite Ascii.eqb_neq. tauto.
Qed.


Lemma c_str_text (s : list ascii) : is_text s -> c_str s = s.
Proof.
  induction s as [|c s IH]; intros H; [reflexivity|].
  apply is_text_cons in H. destruct H as [Hc Hs]. simpl.
  apply Ascii.eqb_neq in Hc. rewrite Hc, IH; auto.
Qed.

Lemma last_char_app (a b : cstring) :
  b <> [] -> last_char (a ++ b) = last_char b.
Proof.
  intros Hb. unfold last_char. rewrite rev_app_distr.
  destruct (rev b) as [|c r] eqn:E; [|reflexivity].
  apply (f_equal (@rev ascii)) in E. rewrite rev_involutive in E. contradiction.
Qed.

Lemma last_char_cons (c : ascii) (b : cstring) :
  b <> [] -> last_char (c :: b) = last_char b.
Proof. intros. apply (last_char_app [c]). assumption. Qed.

Lemma last_char_single (c : ascii) : last_char [c] = Returns c.
Proof. reflexivity. Qed.

(** ** What one [gzgets] call takes *)

Lemma gz_take_app (n : nat) (s : list ascii) :
  fst (gz_take n s) ++ snd (gz_take n s) = s.
Proof.
  revert s. induction n as [|n IH]; intros [|c s]; simpl; try reflexivity.
  destruct (Ascii.eqb c newline); [reflexivity|].
  specialize (IH s). destruct (gz_take n s). simpl in *. now rewrite IH.
Qed.

Lemma gz_take_nil (n : nat) (s : list ascii) :
  fst (gz_take n s) = [] -> n = 0 \/ s = [].
Proof.
  destruct n as [|n]; [auto|]. destruct s as [|c s]; [auto|]. simpl.
  destruct (Ascii.eqb c newline); [discriminate|].
  destruct (gz_take n s). discriminate.
Qed.

Lemma gz_take_empty (n : nat) : gz_take n [] = ([], []).
Proof. destruct n; reflexivity. Qed.

(** A non-empty chunk either ends the line or is a newline-free part of it. *)
Lemma gz_take_next_line (n : nat) (s : list ascii) :
  fst (gz_take n s) <> [] ->
  exists c, last_char (fst (gz_take n s)) = Returns c /\
    (c = newline -> next_line s = gz_take n s) /\
    (c <> newline ->
       next_line s = (fst (gz_take n s) ++ fst (next_line (snd (gz_take n s))),
                      snd (next_line (snd (gz_take n s))))).
Proof.
  revert s. induction n as [|n IH]; intros s Hne.
  - destruct s; simpl in Hne; contradiction.
  - destruct s as [|c s]; [simpl in Hne; contradiction|].
    simpl in *. destruct (Ascii.eqb c newline) eqn:Ec.
    + exists c. simpl. split; [reflexivity|]. apply Ascii.eqb_eq in Ec.
      split; [reflexivity|]. intros; contradiction.
    + destruct (gz_take n s) as [got more] eqn:Eg. simpl in *.
      destruct got as [|g got].
      * exists c. split; [reflexivity|]. apply Ascii.eqb_neq in Ec.
        split; [intros; contradiction|]. intros _.
        assert (Hs : s = more).
        { pose proof (gz_take_app n s) as H. rewrite Eg in H. symmetry. exact H. }
        subst more. destruct (next_line s). reflexivity.
      * specialize (IH s). rewrite Eg in IH. simpl in IH.
        destruct IH as [d [Hd [Hnl Hno]]]; [discriminate|].
        exists d. rewrite last_char_cons by discriminate.
        split; [exact Hd|]. split.
        -- intros E. rewrite (Hnl E). reflexivity.
        -- intros E. rewrite (Hno E). reflexivity.
Qed.

(** ** The growable reader *)

Lemma gzgets_open (s : list ascii) (len : nat) :
  gzgets (gz_open s) len =
  match fst (gz_take (len - 1) s) with
  | [] => (None, gz_open s)
  | _ => (Some (fst (gz_take (len - 1) s)), gz_open (snd (gz_take (len - 1) s)))
  end.
Proof.
  unfold gzgets. destruct (gz_take (len - 1) s) as [[|g got] more]; reflexivity.
Qed.

Lemma is_text_gz_take (n : nat) (s : list ascii) :
  is_text s -> is_text (fst (gz_take n s)) /\ is_text (snd (gz_take n s)).
Proof.
  intros H. apply is_text_app. now rewrite gz_take_app.
Qed.

Lemma length_gz_take (n : nat) (s : list ascii) :
  length (fst (gz_take n s)) + length (snd (gz_take n s)) = length s.
Proof. rewrite <- length_app, gz_take_app. reflexivity. Qed.

Lemma readln_loop_next_line (fuel : nat) :
  forall (line : cstring) (s : list ascii),
    length s < fuel -> is_text s ->
    readln_loop fuel line (gz_open s) =
    Returns (line ++ fst (next_line s), gz_open (snd (next_line s))).
Proof.
  induction fuel as [|fuel IH]; intros line s Hlen Ht; [lia|].
  cbn [readln_loop]. rewrite gzgets_open.
  set (n := block_size - 1).
  destruct (fst (gz_take n s)) as [|g got] eqn:Eg.
  - apply gz_take_nil in Eg. destruct Eg as [En|Es]; [discriminate En|].
    subst s. simpl. now rewrite app_nil_r.
  - rewrite <- Eg.
    destruct (gz_take_next_line n s) as [c [Hc [Hnl Hno]]];
      [rewrite Eg; discriminate|].
    destruct (is_text_gz_take n Ht) as [Htg Htm].
    unfold strcat. rewrite (c_str_text Htg).
    rewrite last_char_app by (rewrite Eg; discriminate).
    rewrite Hc. cbn [bind].
    destruct (Ascii.eqb c newline) eqn:Ec.
    + apply Ascii.eqb_eq in Ec. rewrite (Hnl Ec).
      destruct (gz_take n s); reflexivity.
    + apply Ascii.eqb_neq in Ec. rewrite (Hno Ec). cbn [fst snd].
      rewrite IH; [now rewrite app_assoc| |exact Htm].
      pose proof (length_gz_take n s) as Hl. rewrite Eg in Hl.
      cbn [length] in Hl. lia.
Qed.

Lemma readln_next_line (s : list ascii) :
  is_text s ->
  readln (gz_open s) = Returns (fst (next_line s), gz_open (snd (next_line s))).
Proof.
  intros Ht. unfold readln. simpl gz_pending.
  rewrite readln_loop_next_line; [reflexivity|lia|exact Ht].
Qed.

(** Shape of the next line. *)
Lemma next_line_app (s : list ascii) : fst (next_line s) ++ snd (next_line s) = s.
Proof.
  induction s as [|c s IH]; simpl; [reflexivity|].
  destruct (Ascii.eqb c newline); [reflexivity|].
  destruct (next_line s). simpl in *. now rewrite IH.
Qed.

Lemma next_line_nil (s : list ascii) : fst (next_line s) = [] <-> s = [].
Proof.
  split; [|intros ->; reflexivity].
  destruct s as [|c s]; [reflexivity|]. simpl.
  destruct (Ascii.eqb c newline); [discriminate|].
  destruct (next_line s); discriminate.
Qed.

Lemma next_line_shape (s : list ascii) :
  (exists body, fst (next_line s) = body ++ [newline] /\ ~ In newline body)
  \/ (~ In newline (fst (next_line s)) /\ snd (next_line s) = []).
Proof.
  induction s as [|c s IH]; simpl.
  - right. split; [intros []|reflexivity].
  - destruct (Ascii.eqb c newline) eqn:Ec.
    + apply Ascii.eqb_eq in Ec. subst c. left. exists []. split; [reflexivity|intros []].
    + apply Ascii.eqb_neq in Ec. destruct (next_line s) as [l more]. simpl in *.
      destruct IH as [[body [Hb Hn]]|[Hn Hm]].
      * left. exists (c :: body). split; [now rewrite Hb|].
        intros [H|H]; [congruence|contradiction].
      * right. split; [|exact Hm]. intros [H|H]; [congruence|contradiction].
Qed.

Lemma readln_unsafe_text (s : list ascii) :
  is_text s ->
  readln_unsafe (gz_open s) =
  Returns (fst (gz_take (unsafe_block_size - 1) s),
           gz_open (snd (gz_take (unsafe_block_size - 1) s))).
Proof.
  intros Ht. unfold readln_unsafe. rewrite gzgets_open.
  set (n := unsafe_block_size - 1).
  destruct (is_text_gz_take n Ht) as [Htg _].
  destruct (fst (gz_take n s)) as [|g got] eqn:Eg.
  - apply gz_take_nil in Eg. destruct Eg as [En|Es]; [discriminate En|].
    subst s. now rewrite gz_take_empty.
  - now rewrite (c_str_text Htg).
Qed.

(** ** String comparison *)

Lemma strcmp_chars_eq (a b : cstring) : strcmp_chars a b = 0%Z <-> a = b.
Proof.
  revert b. induction a as [|x a IH]; intros [|y b]; simpl;
    try (split; [discriminate|discriminate]); [tauto|].
  destruct (Nat.compare (nat_of_ascii x) (nat_of_ascii y)) eqn:E.
  - apply Nat.compare_eq in E.
    apply (f_equal ascii_of_nat) in E. rewrite !ascii_nat_embedding in E. subst y.
    rewrite IH. split; [intros ->; reflexivity|intros H; now inversion H].
  - split; [discriminate|]. intros H. inversion H; subst.
    rewrite Nat.compare_refl in E. discriminate.
  - split; [discriminate|]. intros H. inversion H; subst.
    rewrite Nat.compare_refl in E. discriminate.
Qed.

Lemma tile_loop_some (tiles : list cstring) (id : cstring) (ret_val : bool) :
  tile_loop tiles (Some id) ret_val = Returns (ret_val && negb (excluded id tiles)).
Proof.
  revert ret_val. induction tiles as [|comp tiles IH]; intros ret_val.
  - simpl. now rewrite andb_true_r.
  - cbn [tile_loop strcmp bind]. rewrite IH. f_equal.
    unfold excluded.
    destruct (in_dec cstring_eq_dec id tiles) as [Hin|Hin];
      destruct (in_dec cstring_eq_dec id (comp :: tiles)) as [Hin'|Hin'];
      destruct (strcmp_chars comp id =? 0)%Z eqn:E; simpl;
      rewrite ?andb_false_r, ?andb_true_r; try reflexivity.
    all: exfalso.
    all: try (apply Z.eqb_eq in E; apply strcmp_chars_eq in E).
    all: try (apply Z.eqb_neq in E; rewrite strcmp_chars_eq in E).
    all: simpl in *; intuition congruence.
Qed.

Lemma tile_loop_null (tiles : list cstring) (ret_val : bool) :
  tiles <> [] -> tile_loop tiles None ret_val = Undefined.
Proof. destruct tiles; [contradiction|reflexivity]. Qed.

(** ** Fields and tokens of a header *)

Lemma split_on_cons (d : ascii) (s : cstring) :
  exists f fs, split_on d s = f :: fs.
Proof.
  destruct s as [|c s]; simpl; [eauto|].
  destruct (Ascii.eqb c d); [eauto|]. destruct (split_on d s); eauto.
Qed.

Lemma is_delim_single (d c : ascii) : is_delim [d] c = Ascii.eqb c d.
Proof. unfold is_delim. simpl. apply orb_false_r. Qed.

Lemma tokens_skip_delims (d : ascii) (s : cstring) :
  tokens d (skip_delims [d] s) = tokens d s.
Proof.
  induction s as [|c s IH]; [reflexivity|].
  cbn [skip_delims]. rewrite is_delim_single.
  destruct (Ascii.eqb c d) eqn:E; [|reflexivity].
  rewrite IH. apply Ascii.eqb_eq in E. subst c.
  unfold tokens. cbn [split_on]. now rewrite Ascii.eqb_refl.
Qed.

Lemma take_token_cons (d c : ascii) (s : cstring) :
  take_token [d] (c :: s) =
  if Ascii.eqb c d then ([], s)
  else (c :: fst (take_token [d] s), snd (take_token [d] s)).
Proof.
  cbn [take_token]. rewrite is_delim_single.
  destruct (Ascii.eqb c d); [reflexivity|]. now destruct (take_token [d] s).
Qed.

Lemma tokens_cons_delim (d : ascii) (s : cstring) :
  tokens d (d :: s) = tokens d s.
Proof. unfold tokens. cbn [split_on]. now rewrite Ascii.eqb_refl. Qed.

Lemma tokens_take_token (d c : ascii) (s : cstring) :
  Ascii.eqb c d = false ->
  tokens d (c :: s) =
  fst (take_token [d] (c :: s)) :: tokens d (snd (take_token [d] (c :: s))).
Proof.
  revert c. induction s as [|x s IH]; intros c Hc.
  - rewrite take_token_cons, Hc. unfold tokens. cbn [split_on]. rewrite Hc.
    reflexivity.
  - rewrite take_token_cons, Hc. cbn [fst snd].
    destruct (Ascii.eqb x d) eqn:Ex.
    + rewrite take_token_cons, Ex. cbn [fst snd].
      apply Ascii.eqb_eq in Ex. subst x.
      unfold tokens. cbn [split_on]. rewrite Hc, Ascii.eqb_refl. reflexivity.
    + specialize (IH x Ex).
      unfold tokens in *. cbn [split_on]. rewrite Hc.
      change (split_on d (x :: s)) with
        (if Ascii.eqb x d then [] :: split_on d s
         else match split_on d s with
              | f :: fs => (x :: f) :: fs
              | [] => [[x]]
              end) in *.
      rewrite Ex in *.
      destruct (split_on d s) as [|g gs]; cbn [filter nonempty] in *.
      all: set (a := fst (take_token [d] (x :: s))) in *.
      all: set (b := filter nonempty (split_on d (snd (take_token [d] (x :: s))))) in *.
      all: clearbody a b; injection IH as <- <-; reflexivity.
Qed.

Lemma skip_delims_head (d : ascii) (s : cstring) :
  match skip_delims [d] s with
  | [] => True
  | c :: _ => Ascii.eqb c d = false
  end.
Proof.
  induction s as [|c s IH]; [exact I|].
  cbn [skip_delims]. rewrite is_delim_single.
  destruct (Ascii.eqb c d) eqn:E; [exact IH|exact E].
Qed.

(** One [strtok] call returns the first token and leaves the others. *)
Lemma strtok_tokens (d : ascii) (str0 : option cstring) (saved : cstring) :
  let s := match str0 with Some s => s | None => saved end in
  fst (strtok str0 [d] saved) = hd_error (tokens d s)
  /\ tokens d (snd (strtok str0 [d] saved)) = tl (tokens d s).
Proof.
  intros s. unfold strtok. fold s.
  rewrite <- (tokens_skip_delims d s).
  pose proof (skip_delims_head d s) as Hh.
  destruct (skip_delims [d] s) as [|c rest] eqn:E.
  - split; reflexivity.
  - rewrite (@tokens_take_token d c rest Hh).
    destruct (take_token [d] (c :: rest)) as [tok after]. split; reflexivity.
Qed.

Lemma nth_error_tl {A : Type} (l : list A) (n : nat) :
  nth_error (tl l) n = nth_error l (S n).
Proof. destruct l; [destruct n|]; reflexivity. Qed.

Lemma walk_fields_tokens (n : nat) :
  forall (field : option cstring) (saved : cstring),
    walk_fields (S n) field saved = nth_error (tokens ":"%char saved) n.
Proof.
  induction n as [|n IH]; intros field saved.
  - cbn [walk_fields].
    destruct (strtok_tokens ":"%char None saved) as [H1 _].
    unfold colon, str. cbn [String.list_ascii_of_string].
    destruct (strtok None [":"%char] saved) as [f sv]. cbn [fst] in H1.
    rewrite H1. now destruct (tokens ":"%char saved).
  - change (walk_fields (S (S n)) field saved)
      with (let (field', saved') := strtok None colon saved in
            walk_fields (S n) field' saved').
    destruct (strtok_tokens ":"%char None saved) as [_ H2].
    unfold colon, str. cbn [String.list_ascii_of_string].
    destruct (strtok None [":"%char] saved) as [f sv]. cbn [snd] in H2.
    rewrite IH, H2. apply nth_error_tl.
Qed.

(** [get_tile_id] returns the fifth token of the header. *)
Lemma get_tile_id_tokens (h : cstring) :
  get_tile_id h = nth_error (tokens ":"%char h) 4.
Proof.
  unfold get_tile_id.
  destruct (strtok_tokens ":"%char (Some h) []) as [_ H2].
  unfold colon, str. cbn [String.list_ascii_of_string].
  destruct (strtok (Some h) [":"%char] []) as [f sv]. cbn [snd] in H2.
  change [":"%char] with colon.
  rewrite walk_fields_tokens, H2. apply nth_error_tl.
Qed.

Lemma tokens_length (d : ascii) (s : cstring) :
  length (tokens d s) <= length (split_on d s).
Proof. apply filter_length_le. Qed.

(** ** The length predicate *)

Lemma to_size_t_small (t : Z) : (0 <= t <= INT_MAX)%Z -> to_size_t t = t.
Proof.
  intros H. unfold to_size_t, SIZE_MOD. apply Z.mod_small.
  unfold INT_MAX in H. lia.
Qed.

(** C1, as amended: for a threshold in the non-negative [int] range,
    [std_check_read] accepts a pair exactly when both sequence lines, counted
    with [strlen] and so with their newline, are strictly longer than the
    threshold.  For newline-terminated lines this means that both mates have
    at least [threshold] residues. *)
Theorem std_check_read_strlen (t : Z) (r1 r2 : fastq) :
  (0 <= t <= INT_MAX)%Z ->
  (std_check_read t r1 r2 = true <->
   (t < Z.of_nat (strlen (seq r1)) /\ t < Z.of_nat (strlen (seq r2)))%Z)
  /\ (forall b1 b2 : cstring,
        seq r1 = b1 ++ [newline] -> seq r2 = b2 ++ [newline] ->
        (std_check_read t r1 r2 = true <->
         (t <= Z.of_nat (length b1) /\ t <= Z.of_nat (length b2))%Z)).
Proof.
  intros Ht. unfold std_check_read. rewrite (to_size_t_small Ht).
  rewrite andb_true_iff, !Z.gtb_ltb, !Z.ltb_lt. split; [tauto|].
  intros b1 b2 -> ->. rewrite andb_true_iff, !Z.ltb_lt.
  unfold strlen. rewrite !length_app. cbn [length]. lia.
Qed.

Lemma std_check_read_strlen_witness :
  let r := {| header := str "@r"; seq := str "ACGTA"; strand := str "+";
              qual := str "IIIII" |} in
  (0 <= 4 <= INT_MAX)%Z /\ std_check_read 4 r r = true.
Proof.
  intros r.
  assert (H : (0 <= 4 <= INT_MAX)%Z) by (unfold INT_MAX; lia).
  split; [exact H|].
  apply (proj1 (@std_check_read_strlen 4%Z r r H)). split; reflexivity.
Defined.

(** C1 as stated fails: a pair whose sequences have exactly [threshold]
    residues, followed by their newline, is accepted. *)
Lemma std_check_read_residues_refuted :
  ~ (forall (t : Z) (r1 r2 : fastq),
       std_check_read t r1 r2 = true <->
       (t < Z.of_nat (residues (seq r1)) /\ t < Z.of_nat (residues (seq r2)))%Z).
Proof.
  intros H.
  pose (r := {| header := str "@r" ++ [newline]; seq := str "ACGT" ++ [newline];
                strand := str "+" ++ [newline]; qual := str "IIII" ++ [newline] |}).
  destruct (H 4%Z r r) as [H1 _].
  assert (E : std_check_read 4 r r = true) by reflexivity.
  specialize (H1 E). vm_compute in H1. destruct H1 as [H1 _]. discriminate H1.
Qed.

(** ** Truncation *)

(** C4: for a record whose quality line is as long as its sequence line,
    [_trim_include] writes the record that [truncate] describes: sequence and
    quality cut to [len] characters plus newline exactly when the sequence
    line is longer than [len + 1], the record as it is otherwise; header and
    strand are the record's own in both cases. *)
Theorem trim_include_truncate (r : fastq) (outfile : FILE) (len : nat) :
  (Z.of_nat len < INT_MAX)%Z ->
  strlen (qual r) = strlen (seq r) ->
  _trim_include r outfile (Z.of_nat len) = std_include (truncate r len) outfile
  /\ header (truncate r len) = header r
  /\ strand (truncate r len) = strand r
  /\ (len + 1 < strlen (seq r) ->
      seq (truncate r len) = firstn len (seq r) ++ [newline]
      /\ qual (truncate r len) = firstn len (qual r) ++ [newline])
  /\ (strlen (seq r) <= len + 1 -> truncate r len = r).
Proof.
  intros Hlen Hq. unfold _trim_include, truncate.
  assert (Hs : to_size_t (Z.of_nat len + 1) = (Z.of_nat len + 1)%Z).
  { apply to_size_t_small. lia. }
  rewrite Hs. destruct (Z.eqb_spec (Z.of_nat len) INT_MAX) as [E|_]; [lia|].
  destruct (Nat.ltb_spec (len + 1) (strlen (seq r))) as [Hlt|Hge].
  - destruct (Z.gtb_spec (Z.of_nat (strlen (seq r))) (Z.of_nat len + 1)) as [_|Hc];
      [|lia].
    destruct (Z.ltb_spec (Z.of_nat len) 0) as [Hneg|_]; [lia|].
    rewrite Nat2Z.id. unfold set_line_end.
    destruct (Nat.leb_spec len (strlen (seq r))) as [_|Hc]; [|lia].
    destruct (Nat.leb_spec len (strlen (qual r))) as [_|Hc]; [|lia].
    cbn [bind]. repeat split; auto; intros; lia.
  - destruct (Z.gtb_spec (Z.of_nat (strlen (seq r))) (Z.of_nat len + 1)) as [Hc|_];
      [lia|].
    repeat split; auto; intros; lia.
Qed.

Lemma trim_include_truncate_witness :
  let r := {| header := str "@r" ++ [newline]; seq := str "ACGTACGT" ++ [newline];
              strand := str "+" ++ [newline]; qual := str "IIIIIIII" ++ [newline] |} in
  (Z.of_nat 5 < INT_MAX)%Z
  /\ strlen (qual r) = strlen (seq r)
  /\ _trim_include r (f_open []) 5 =
     Returns (f_open (str "@r" ++ [newline] ++ str "ACGTA" ++ [newline]
                        ++ str "+" ++ [newline] ++ str "IIIII" ++ [newline])).
Proof.
  intros r.
  assert (H1 : (Z.of_nat 5 < INT_MAX)%Z) by (unfold INT_MAX; lia).
  assert (H2 : strlen (qual r) = strlen (seq r)) by reflexivity.
  split; [exact H1|]. split; [exact H2|].
  destruct (@trim_include_truncate r (f_open []) 5 H1 H2) as [H _].
  change (Z.of_nat 5) with 5%Z in H. rewrite H. reflexivity.
Defined.

(** ** The tile predicate *)

(** [tile_check_read] in closed form. *)
Lemma tile_check_read_tokens (t : Z) (tiles : list cstring) (r1 r2 : fastq) :
  tile_check_read t (Some tiles) r1 r2 =
  if negb (std_check_read t r1 r2) then Returns false
  else match nth_error (tokens ":"%char (header r1)) 4, tiles with
       | Some tile_id, _ => Returns (negb (excluded tile_id tiles))
       | None, [] => Returns true
       | None, _ :: _ => Undefined
       end.
Proof.
  unfold tile_check_read. destruct (negb (std_check_read t r1 r2)); [reflexivity|].
  rewrite get_tile_id_tokens.
  destruct (nth_error (tokens ":"%char (header r1)) 4) as [id|].
  - now rewrite tile_loop_some.
  - destruct tiles; reflexivity.
Qed.

Lemma excluded_In (tile_id : cstring) (tiles : list cstring) :
  excluded tile_id tiles = true <-> In tile_id tiles.
Proof.
  unfold excluded. destruct (in_dec cstring_eq_dec tile_id tiles); split;
    intros; try assumption; try reflexivity; try discriminate; contradiction.
Qed.

(** Where the leading fields are all non-empty, tokens and fields agree. *)
Lemma nth_error_filter_prefix {A : Type} (p : A -> bool) (l : list A) :
  forall n k : nat,
    forallb p (firstn n l) = true -> k < n ->
    nth_error (filter p l) k = nth_error l k.
Proof.
  induction l as [|x l IH]; intros n k Hall Hk.
  - reflexivity.
  - destruct n as [|n]; [lia|]. cbn [firstn forallb] in Hall.
    apply andb_true_iff in Hall. destruct Hall as [Hx Hall].
    cbn [filter]. rewrite Hx. destruct k as [|k]; [reflexivity|].
    cbn [nth_error]. apply (IH n); [exact Hall|lia].
Qed.

(** C5, as amended: [tile_check_read] answers false as soon as the length
    check fails; otherwise the tile id it looks up is the fifth token that
    [strtok] finds in mate 1's header, that is the fifth non-empty
    colon-delimited field, and the answer is false exactly when that id is in
    the exclusion list.  With no fifth token the answer is true for an empty
    list and the comparison is undefined for any other.  The fifth token is
    the field at position 4 whenever the first five fields are non-empty. *)
Theorem tile_check_read_fifth_token (t : Z) (tiles : list cstring) (r1 r2 : fastq) :
  tile_check_read t (Some tiles) r1 r2 =
    (if negb (std_check_read t r1 r2) then Returns false
     else match get_tile_id (header r1), tiles with
          | Some tile_id, _ => Returns (negb (excluded tile_id tiles))
          | None, [] => Returns true
          | None, _ :: _ => Undefined
          end)
  /\ get_tile_id (header r1) = nth_error (tokens ":"%char (header r1)) 4
  /\ (forallb nonempty (firstn 5 (fields (header r1))) = true ->
      get_tile_id (header r1) = nth_error (fields (header r1)) 4).
Proof.
  split; [|split].
  - rewrite get_tile_id_tokens. apply tile_check_read_tokens.
  - apply get_tile_id_tokens.
  - intros H. rewrite get_tile_id_tokens. unfold tokens, fields.
    apply (@nth_error_filter_prefix _ nonempty _ 5 4 H). lia.
Qed.

Lemma tile_check_read_fifth_token_witness :
  let r := {| header := str "@INST:1:FLOW:2:1101:100:200" ++ [newline];
              seq := str "ACGTAC" ++ [newline];
              strand := str "+" ++ [newline];
              qual := str "IIIIII" ++ [newline] |} in
  forallb nonempty (firstn 5 (fields (header r))) = true
  /\ get_tile_id (header r) = Some (str "1101")
  /\ tile_check_read 5 (Some [str "1101"]) r r = Returns false
  /\ tile_check_read 5 (Some [str "1102"]) r r = Returns true.
Proof.
  intros r.
  assert (H : forallb nonempty (firstn 5 (fields (header r))) = true) by reflexivity.
  split; [exact H|].
  destruct (tile_check_read_fifth_token 5 [str "1101"] r r) as [H1 [_ H3]].
  destruct (tile_check_read_fifth_token 5 [str "1102"] r r) as [H2 _].
  split; [rewrite (H3 H); reflexivity|].
  split; [rewrite H1|rewrite H2]; reflexivity.
Defined.

(** C5 as stated fails: with an empty field ahead of it, the field at
    position 4 is not the tile id that the code compares.  Here position 4
    holds the excluded tile 1101 and the pair is kept all the same. *)
Lemma tile_check_read_field_refuted :
  ~ (forall (t : Z) (tiles : list cstring) (r1 r2 : fastq) (tile_id : cstring),
       nth_error (fields (header r1)) 4 = Some tile_id ->
       tile_check_read t (Some tiles) r1 r2 =
       Returns (if negb (std_check_read t r1 r2) then false
                else negb (excluded tile_id tiles))).
Proof.
  intros H.
  pose (r := {| header := str "@INST::FLOW:2:1101:100:200" ++ [newline];
                seq := str "ACGTAC" ++ [newline];
                strand := str "+" ++ [newline];
                qual := str "IIIIII" ++ [newline] |}).
  specialize (H 5%Z [str "1101"] r r (str "1101") eq_refl).
  vm_compute in H. discriminate H.
Qed.

(** C10: under a non-empty exclusion list and for a pair that passes the
    length check, a mate-1 header with fewer than five colon-delimited fields
    makes [get_tile_id] return the null pointer, which the loop hands to
    [strcmp]: the call, and with it [tile_check_read], is undefined.  So
    [tile_check_read] can only return a value when the header has at least
    five fields. *)
Theorem tile_check_read_short_header (t : Z) (tiles : list cstring) (r1 r2 : fastq) :
  tiles <> [] ->
  std_check_read t r1 r2 = true ->
  (length (fields (header r1)) < 5 ->
   get_tile_id (header r1) = None
   /\ strcmp (Some (hd [] tiles)) (get_tile_id (header r1)) = Undefined
   /\ tile_check_read t (Some tiles) r1 r2 = Undefined)
  /\ (forall b : bool,
        tile_check_read t (Some tiles) r1 r2 = Returns b ->
        5 <= length (fields (header r1))).
Proof.
  intros Hne Hstd.
  assert (Hshort : length (fields (header r1)) < 5 ->
                   get_tile_id (header r1) = None).
  { intros Hlt. rewrite get_tile_id_tokens. apply nth_error_None.
    pose proof (tokens_length ":"%char (header r1)) as Hle.
    unfold fields in Hlt. lia. }
  assert (Hundef : get_tile_id (header r1) = None ->
                   tile_check_read t (Some tiles) r1 r2 = Undefined).
  { intros E. unfold tile_check_read. rewrite Hstd, E. cbn [negb].
    now apply tile_loop_null. }
  split.
  - intros Hlt. specialize (Hshort Hlt). rewrite Hshort.
    split; [reflexivity|]. split; [reflexivity|]. now apply Hundef.
  - intros b Hb. destruct (Nat.lt_ge_cases (length (fields (header r1))) 5) as [Hlt|Hge];
      [|exact Hge].
    rewrite (Hundef (Hshort Hlt)) in Hb. discriminate Hb.
Qed.

Lemma tile_check_read_short_header_witness :
  let r := {| header := str "@INST:1:FLOW:2" ++ [newline];
              seq := str "ACGTAC" ++ [newline];
              strand := str "+" ++ [newline];
              qual := str "IIIIII" ++ [newline] |} in
  [str "1101"] <> []
  /\ std_check_read 5 r r = true
  /\ length (fields (header r)) < 5
  /\ tile_check_read 5 (Some [str "1101"]) r r = Undefined.
Proof.
  intros r.
  assert (H1 : [str "1101"] <> []) by discriminate.
  assert (H2 : std_check_read 5 r r = true) by reflexivity.
  assert (H3 : length (fields (header r)) < 5) by (vm_compute; lia).
  split; [exact H1|]. split; [exact H2|]. split; [exact H3|].
  destruct (@tile_check_read_short_header 5%Z [str "1101"] r r H1 H2) as [H _].
  exact (proj2 (proj2 (H H3))).
Defined.

(** ** The counters *)

(** What one pass does to the counters. *)
Lemma filter_iteration_counters (g : config) (st : state) (r : step_result) :
  filter_iteration g st = Returns r ->
  match r with
  | Continue st' =>
      read_pairs_checked st' = (read_pairs_checked st + 1)%Z
      /\ ((read_pairs_removed st' = (read_pairs_removed st + 1)%Z
           /\ read_pairs_remaining st' = read_pairs_remaining st)
          \/ (read_pairs_removed st' = read_pairs_removed st
              /\ read_pairs_remaining st' = (read_pairs_remaining st + 1)%Z))
  | Return _ st' =>
      read_pairs_checked st' = read_pairs_checked st
      /\ read_pairs_removed st' = read_pairs_removed st
      /\ read_pairs_remaining st' = read_pairs_remaining st
  end.
Proof.
  unfold filter_iteration. intros H. bind_inv H; inversion H; subst; cbn; auto.
Qed.

Lemma filter_iteration_monotone (g : config) (st : state) (r : step_result) :
  filter_iteration g st = Returns r ->
  counters_le st (state_of r)
  /\ (counter_equation st -> counter_equation (state_of r)).
Proof.
  intros H. apply filter_iteration_counters in H.
  unfold counters_le, counter_equation. destruct r as [st'|ret st']; cbn [state_of]; lia.
Qed.

Lemma open_streams_counters (g : config) (fs : filesystem) (c : counters)
  (out : list log_msg) (st : state) :
  open_streams g fs c out = Returns st ->
  read_pairs_checked st = checked0 c
  /\ read_pairs_removed st = removed0 c
  /\ read_pairs_remaining st = remaining0 c.
Proof.
  unfold open_streams. intros H. bind_inv H. inversion H; subst. cbn. auto.
Qed.

(** ** The readers on text *)

Lemma call_read_text (rf : read_fn) (s : list ascii) :
  is_text s ->
  call_read rf (gz_open s) =
  Returns (fst (read_text rf s), gz_open (snd (read_text rf s))).
Proof.
  destruct rf; cbn [call_read read_text];
    [apply readln_next_line|apply readln_unsafe_text].
Qed.

Lemma call_read_null (rf : read_fn) : call_read rf gz_null = Returns ([], gz_null).
Proof. destruct rf; reflexivity. Qed.

Lemma read_text_app (rf : read_fn) (s : list ascii) :
  fst (read_text rf s) ++ snd (read_text rf s) = s.
Proof. destruct rf; [apply next_line_app|apply gz_take_app]. Qed.

Lemma read_text_empty (rf : read_fn) : read_text rf [] = ([], []).
Proof. destruct rf; reflexivity. Qed.





Lemma is_text_read_text (rf : read_fn) (s : list ascii) :
  is_text s -> is_text (fst (read_text rf s)) /\ is_text (snd (read_text rf s)).
Proof. intros H. apply is_text_app. now rewrite read_text_app. Qed.

(** ** Records on text *)

Lemma call_read_handle (rf : read_fn) (o : option (list ascii)) :
  is_text (pending o) ->
  call_read rf (handle_of o) =
  Returns (fst (read_text rf (pending o)),
           handle_of (set_pending o (snd (read_text rf (pending o))))).
Proof.
  destruct o as [s|]; cbn [handle_of pending set_pending]; intros H.
  - now apply call_read_text.
  - rewrite call_read_null, read_text_empty. reflexivity.
Qed.

Lemma read_record_handle (rf : read_fn) (o : option (list ascii)) :
  is_text (pending o) ->
  read_record rf (handle_of o) =
  Returns (fst (record_text rf (pending o)),
           handle_of (set_pending o (snd (record_text rf (pending o))))).
Proof.
  intros Ht. unfold read_record, record_text.
  destruct o as [s|]; cbn [pending] in *.
  - cbn [handle_of set_pending].
    rewrite (call_read_text rf Ht). cbn [bind].
    destruct (is_text_read_text rf Ht) as [_ Ht1].
    destruct (read_text rf s) as [h s1]. cbn [fst snd] in *.
    rewrite (call_read_text rf Ht1). cbn [bind].
    destruct (is_text_read_text rf Ht1) as [_ Ht2].
    destruct (read_text rf s1) as [q s2]. cbn [fst snd] in *.
    rewrite (call_read_text rf Ht2). cbn [bind].
    destruct (is_text_read_text rf Ht2) as [_ Ht3].
    destruct (read_text rf s2) as [p s3]. cbn [fst snd] in *.
    rewrite (call_read_text rf Ht3). cbn [bind].
    destruct (read_text rf s3) as [l s4]. reflexivity.
  - cbn [handle_of set_pending]. repeat (rewrite call_read_null; cbn [bind]).
    rewrite !read_text_empty. reflexivity.
Qed.

(** ** The loop on text *)

Lemma std_include_open (r : fastq) (w : cstring) :
  std_include r (f_open w) = Returns (f_open (w ++ render r)).
Proof.
  unfold std_include, render. cbn [fputs bind]. now rewrite <- !app_assoc.
Qed.

Lemma call_include_open (g : config) (fn : include_fn) (r : fastq) (w : cstring) :
  call_include g fn r (f_open w) =
  (t <- written_by g fn r ;; Returns (f_open (w ++ t))).
Proof.
  assert (Hstd : forall r', std_include r' (f_open w) =
            (t <- (o <- std_include r' (f_open []) ;; Returns (written o)) ;;
             Returns (f_open (w ++ t)))).
  { intros r'. now rewrite !std_include_open. }
  assert (Htrim : forall n, _trim_include r (f_open w) n =
            (t <- (o <- _trim_include r (f_open []) n ;; Returns (written o)) ;;
             Returns (f_open (w ++ t)))).
  { intros n. unfold _trim_include.
    destruct (n =? INT_MAX)%Z; [reflexivity|].
    destruct (Z.of_nat (strlen (seq r)) >? to_size_t (n + 1))%Z; [|apply Hstd].
    destruct (n <? 0)%Z; [reflexivity|].
    destruct (set_line_end (seq r) (Z.to_nat n)); try reflexivity.
    destruct (set_line_end (qual r) (Z.to_nat n)); try reflexivity.
    cbn [bind]. apply Hstd. }
  unfold written_by.
  destruct fn; cbn [call_include]; [apply Hstd|apply Htrim|apply Htrim].
Qed.

Lemma first_char_text (h : cstring) :
  is_text h -> Ascii.eqb (first_char h) NUL = negb (nonempty h).
Proof.
  destruct h as [|c h]; [reflexivity|]. intros H. apply is_text_cons in H.
  cbn. now apply Ascii.eqb_neq.
Qed.

Lemma is_text_record_text (rf : read_fn) (s : list ascii) :
  is_text s ->
  is_text (header (fst (record_text rf s))) /\ is_text (snd (record_text rf s)).
Proof.
  intros Ht. unfold record_text.
  destruct (is_text_read_text rf Ht) as [Hh Ht1].
  destruct (read_text rf s) as [h s1]. cbn [fst snd] in *.
  destruct (is_text_read_text rf Ht1) as [_ Ht2].
  destruct (read_text rf s1) as [q s2]. cbn [fst snd] in *.
  destruct (is_text_read_text rf Ht2) as [_ Ht3].
  destruct (read_text rf s2) as [p s3]. cbn [fst snd] in *.
  destruct (is_text_read_text rf Ht3) as [_ Ht4].
  destruct (read_text rf s3) as [l s4]. cbn [fst snd] in *. auto.
Qed.

Lemma gzclose_handle_of (o : option (list ascii)) (s : list ascii) :
  gzclose (handle_of (set_pending o s)) = gzclose (handle_of o).
Proof. destruct o; reflexivity. Qed.

Lemma pending_set_pending (o : option (list ascii)) (s : list ascii) :
  pending o = [] -> s = [] -> pending (set_pending o s) = s.
Proof. destruct o; cbn; intros; subst; reflexivity. Qed.

Lemma record_text_empty (rf : read_fn) :
  record_text rf [] = ({| header := []; seq := []; strand := []; qual := [] |}, []).
Proof. unfold record_text. now rewrite !read_text_empty. Qed.

Lemma pending_after_record (rf : read_fn) (o : option (list ascii)) :
  pending (set_pending o (snd (record_text rf (pending o)))) =
  snd (record_text rf (pending o)).
Proof. destruct o; [reflexivity|]. cbn [pending]. now rewrite record_text_empty. Qed.

Lemma finish_step (g : config) (x : summary) (o1 o2 : option (list ascii))
  (s1 s2 : list ascii) (w1 w2 t1 t2 : cstring) (c r k : Z) (dk dd : nat)
  (con : list log_msg) :
  finish g x
    {| r1i := handle_of (set_pending o1 s1); r2i := handle_of (set_pending o2 s2);
       r1o := f_open (w1 ++ t1); r2o := f_open (w2 ++ t2);
       read_pairs_checked := c + Z.of_nat dk + Z.of_nat dd;
       read_pairs_removed := r + Z.of_nat dd;
       read_pairs_remaining := k + Z.of_nat dk;
       console := con |} =
  finish g {| status := status x; out1 := t1 ++ out1 x; out2 := t2 ++ out2 x;
              kept := dk + kept x; dropped := dd + dropped x |}
    {| r1i := handle_of o1; r2i := handle_of o2;
       r1o := f_open w1; r2o := f_open w2;
       read_pairs_checked := c; read_pairs_removed := r;
       read_pairs_remaining := k; console := con |}.
Proof.
  unfold finish. cbn [r1i r2i r1o r2o read_pairs_checked read_pairs_removed
    read_pairs_remaining console written status out1 out2 kept dropped].
  rewrite !gzclose_handle_of, <- !app_assoc, !Nat2Z.inj_add.
  replace (c + Z.of_nat dk + Z.of_nat dd + Z.of_nat (kept x) + Z.of_nat (dropped x))%Z
    with (c + (Z.of_nat dk + Z.of_nat (kept x)) + (Z.of_nat dd + Z.of_nat (dropped x)))%Z
    by lia.
  f_equal; lia.
Qed.

(** On text the loop of the program is [walk]. *)
Lemma filter_loop_walk (fuel : nat) (g : config) :
  forall (o1 o2 : option (list ascii)) (w1 w2 : cstring) (c r k : Z)
         (con : list log_msg),
    is_text (pending o1) -> is_text (pending o2) ->
    let st := {| r1i := handle_of o1; r2i := handle_of o2;
                 r1o := f_open w1; r2o := f_open w2;
                 read_pairs_checked := c; read_pairs_removed := r;
                 read_pairs_remaining := k; console := con |} in
    filter_loop fuel g st =
    (x <- walk fuel g (pending o1) (pending o2) ;; Returns (status x, finish g x st)).
Proof.
  induction fuel as [|fuel IH]; intros o1 o2 w1 w2 c r k con Ht1 Ht2 st;
    [reflexivity|].
  cbn [filter_loop walk]. unfold filter_iteration.
  subst st. cbn [r1i r2i r1o r2o read_pairs_checked read_pairs_removed
    read_pairs_remaining console].
  rewrite (read_record_handle (read_func g) o1 Ht1). cbn [bind].
  rewrite (read_record_handle (read_func g) o2 Ht2). cbn [bind].
  pose proof (pending_after_record (read_func g) o1) as Hp1.
  pose proof (pending_after_record (read_func g) o2) as Hp2.
  destruct (is_text_record_text (read_func g) Ht1) as [Hh1 Hs1].
  destruct (is_text_record_text (read_func g) Ht2) as [Hh2 Hs2].
  destruct (record_text (read_func g) (pending o1)) as [r1 s1'].
  destruct (record_text (read_func g) (pending o2)) as [r2 s2'].
  cbn [fst snd] in *.
  rewrite (first_char_text Hh1), (first_char_text Hh2).
  destruct (nonempty (header r1)) eqn:N1; destruct (nonempty (header r2)) eqn:N2;
    cbn [negb orb andb].
  - (* both records present *)
    destruct (call_check g r1 r2) as [[|]| |]; cbn [bind]; try reflexivity.
    + rewrite !call_include_open.
      destruct (written_by g (include_func_r1 g) r1) as [t1| |]; cbn [bind];
        try reflexivity.
      destruct (written_by g (include_func_r2 g) r2) as [t2| |]; cbn [bind];
        try reflexivity.
      rewrite (IH (set_pending o1 s1') (set_pending o2 s2'))
        by (rewrite ?Hp1, ?Hp2; assumption).
      rewrite Hp1, Hp2.
      destruct (walk fuel g s1' s2') as [x| |]; cbn [bind]; try reflexivity.
      cbn [status]. do 2 f_equal.
      pose proof (finish_step g x o1 o2 s1' s2' w1 w2 t1 t2 c r k 1 0 con) as F.
      cbn [Z.of_nat Pos.of_succ_nat] in F.
      rewrite !Z.add_0_r in F. exact F.
    + rewrite (IH (set_pending o1 s1') (set_pending o2 s2'))
        by (rewrite ?Hp1, ?Hp2; assumption).
      rewrite Hp1, Hp2.
      destruct (walk fuel g s1' s2') as [x| |]; cbn [bind]; try reflexivity.
      cbn [status]. do 2 f_equal.
      pose proof (finish_step g x o1 o2 s1' s2' w1 w2 [] [] c r k 0 1 con) as F.
      cbn [Z.of_nat Pos.of_succ_nat] in F.
      rewrite !Z.add_0_r, !app_nil_r in F. exact F.
  - (* mate 2 ended first *)
    destruct (header r1) as [|a h1]; [discriminate N1|].
    destruct (header r2) as [|b h2]; [|discriminate N2].
    apply is_text_cons in Hh1. destruct Hh1 as [Ha _].
    apply Ascii.eqb_neq in Ha. cbn [first_char hd]. rewrite Ha.
    cbn [negb fclose bind]. unfold finish.
    cbn [r1i r2i r1o r2o read_pairs_checked read_pairs_removed
      read_pairs_remaining console written status out1 out2 kept dropped Z.of_nat].
    rewrite !gzclose_handle_of, !app_nil_r, !Z.add_0_r. reflexivity.
  - (* mate 1 ended first *)
    destruct (header r1) as [|a h1]; [|discriminate N1].
    destruct (header r2) as [|b h2]; [discriminate N2|].
    apply is_text_cons in Hh2. destruct Hh2 as [Hb _].
    assert (Hb' : Ascii.eqb NUL b = false).
    { apply Ascii.eqb_neq. congruence. }
    cbn [first_char hd]. rewrite Hb'.
    cbn [negb fclose bind]. unfold finish.
    cbn [r1i r2i r1o r2o read_pairs_checked read_pairs_removed
      read_pairs_remaining console written status out1 out2 kept dropped Z.of_nat].
    rewrite !gzclose_handle_of, !app_nil_r, !Z.add_0_r. reflexivity.
  - (* both ended *)
    destruct (header r1) as [|a h1]; [|discriminate N1].
    destruct (header r2) as [|b h2]; [|discriminate N2].
    cbn [first_char hd negb fclose bind]. unfold finish.
    cbn [r1i r2i r1o r2o read_pairs_checked read_pairs_removed
      read_pairs_remaining console written status out1 out2 kept dropped Z.of_nat].
    rewrite !gzclose_handle_of, !app_nil_r, !Z.add_0_r. reflexivity.
Qed.

Lemma record_text_app (rf : read_fn) (s : list ascii) :
  render (fst (record_text rf s)) ++ snd (record_text rf s) = s.
Proof.
  unfold record_text, render.
  pose proof (read_text_app rf s) as H1.
  destruct (read_text rf s) as [h s1]. cbn [fst snd] in *.
  pose proof (read_text_app rf s1) as H2.
  destruct (read_text rf s1) as [q s2]. cbn [fst snd] in *.
  pose proof (read_text_app rf s2) as H3.
  destruct (read_text rf s2) as [p s3]. cbn [fst snd] in *.
  pose proof (read_text_app rf s3) as H4.
  destruct (read_text rf s3) as [l s4]. cbn [fst snd header seq strand qual] in *.
  rewrite <- !app_assoc. congruence.
Qed.


Lemma record_text_shorter (rf : read_fn) (s : list ascii) :
  nonempty (header (fst (record_text rf s))) = true ->
  length (snd (record_text rf s)) < length s.
Proof.
  intros H. pose proof (record_text_app rf s) as Ha.
  apply (f_equal (@length ascii)) in Ha. rewrite length_app in Ha.
  unfold render in Ha. rewrite length_app in Ha.
  destruct (header (fst (record_text rf s))); [discriminate H|].
  cbn [length] in Ha. lia.
Qed.


(** ** Well-formed input *)

Lemma next_line_ends_line (l t : list ascii) :
  ends_line l = true -> next_line (l ++ t) = (l, t).
Proof.
  induction l as [|c l IH]; [discriminate|].
  cbn [ends_line]. destruct l as [|d l].
  - intros H. cbn [app next_line]. now rewrite H.
  - intros H. apply andb_true_iff in H. destruct H as [Hc Hl].
    apply negb_true_iff in Hc. specialize (IH Hl).
    change ((c :: d :: l) ++ t) with (c :: ((d :: l) ++ t)).
    cbn [next_line]. rewrite Hc, IH. reflexivity.
Qed.

Lemma gz_take_ends_line (n : nat) (l t : list ascii) :
  ends_line l = true -> length l <= n -> gz_take n (l ++ t) = (l, t).
Proof.
  revert n. induction l as [|c l IH]; [discriminate|].
  intros n. cbn [ends_line]. destruct l as [|d l].
  - intros H Hn. destruct n as [|n]; [cbn in Hn; lia|].
    cbn [app gz_take]. now rewrite H.
  - intros H Hn. apply andb_true_iff in H. destruct H as [Hc Hl].
    apply negb_true_iff in Hc.
    destruct n as [|n]; [cbn in Hn; lia|].
    assert (Hn' : length (d :: l) <= n) by (cbn [length] in *; lia).
    specialize (IH n Hl Hn').
    change ((c :: d :: l) ++ t) with (c :: ((d :: l) ++ t)).
    cbn [gz_take]. rewrite Hc, IH. reflexivity.
Qed.

Lemma read_text_line (rf : read_fn) (l t : list ascii) :
  is_line rf l = true -> read_text rf (l ++ t) = (l, t).
Proof.
  unfold is_line. intros H.
  apply andb_true_iff in H. destruct H as [H Hrf].
  apply andb_true_iff in H. destruct H as [_ He].
  destruct rf; cbn [read_text].
  - now apply next_line_ends_line.
  - apply gz_take_ends_line; [exact He|]. now apply Nat.leb_le.
Qed.

Lemma is_line_text (rf : read_fn) (l : cstring) :
  is_line rf l = true -> is_text l /\ nonempty l = true.
Proof.
  unfold is_line. intros H.
  apply andb_true_iff in H. destruct H as [H _].
  apply andb_true_iff in H. destruct H as [Ht He].
  split; [exact Ht|]. destruct l; [discriminate He|reflexivity].
Qed.

Lemma record_text_render (rf : read_fn) (r : fastq) (t : list ascii) :
  is_record rf r = true -> record_text rf (render r ++ t) = (r, t).
Proof.
  unfold is_record. intros H.
  apply andb_true_iff in H. destruct H as [H Hq].
  apply andb_true_iff in H. destruct H as [H Hp].
  apply andb_true_iff in H. destruct H as [Hh Hs].
  unfold record_text, render. rewrite <- !app_assoc.
  rewrite (read_text_line rf _ _ Hh), (read_text_line rf _ _ Hs),
    (read_text_line rf _ _ Hp), (read_text_line rf _ _ Hq).
  now destruct r.
Qed.

Lemma is_record_text (rf : read_fn) (r : fastq) :
  is_record rf r = true -> is_text (render r) /\ nonempty (header r) = true.
Proof.
  unfold is_record. intros H.
  apply andb_true_iff in H. destruct H as [H Hq].
  apply andb_true_iff in H. destruct H as [H Hp].
  apply andb_true_iff in H. destruct H as [Hh Hs].
  apply is_line_text in Hh, Hs, Hp, Hq. unfold render.
  rewrite !is_text_app. tauto.
Qed.

Lemma render_all_text (rf : read_fn) (rs : list fastq) :
  forallb (is_record rf) rs = true -> is_text (render_all rs).
Proof.
  induction rs as [|r rs IH]; [reflexivity|]. cbn [forallb render_all flat_map].
  intros H. apply andb_true_iff in H. destruct H as [Hr Hrs].
  apply is_text_app. split; [apply (is_record_text _ _ Hr)|apply IH, Hrs].
Qed.

Lemma render_all_length (rf : read_fn) (rs : list fastq) :
  forallb (is_record rf) rs = true -> length rs <= length (render_all rs).
Proof.
  induction rs as [|r rs IH]; [reflexivity|]. cbn [forallb render_all flat_map].
  intros H. apply andb_true_iff in H. destruct H as [Hr Hrs].
  rewrite length_app. specialize (IH Hrs). fold (render_all rs).
  destruct (is_record_text _ _ Hr) as [_ Hn].
  assert (H1 : 1 <= length (render r)).
  { unfold render. destruct (header r); [discriminate Hn|]. cbn [app length]. lia. }
  cbn [length]. lia.
Qed.

(** ** Runs on well-formed records *)

(** The plain length check and the plain output never fault. *)
Lemma pair_defined_std (g : config) (p : fastq * fastq) :
  check_func g = Std_check_read ->
  include_func_r1 g = Std_include ->
  include_func_r2 g = Std_include ->
  pair_defined g p = true.
Proof.
  intros Hc H1 H2. unfold pair_defined, call_check, written_by.
  rewrite Hc, H1, H2. cbn [call_include]. rewrite !std_include_open.
  now destruct (std_check_read (threshold g) (fst p) (snd p)).
Qed.

Lemma records_list_fuel (rf : read_fn) (fuel : nat) :
  forall s : list ascii, length s <= fuel -> records_list rf fuel s = records rf s.
Proof.
  assert (H : forall f1 f2 s, length s <= f1 -> length s <= f2 ->
            records_list rf f1 s = records_list rf f2 s).
  { induction f1 as [|f1 IH]; intros f2 s H1 H2.
    - destruct s; [|cbn in H1; lia]. destruct f2; [reflexivity|].
      cbn [records_list]. now rewrite record_text_empty.
    - destruct f2 as [|f2].
      + destruct s; [|cbn in H2; lia]. cbn [records_list].
        now rewrite record_text_empty.
      + cbn [records_list]. pose proof (@record_text_shorter rf s) as L.
        destruct (record_text rf s) as [r s']. cbn [fst snd] in L.
        destruct (nonempty (header r)); [|reflexivity].
        specialize (L eq_refl). f_equal. apply IH; lia. }
  intros s Hs. unfold records. apply H; [exact Hs|lia].
Qed.

Lemma records_unfold (rf : read_fn) (s : list ascii) :
  records rf s =
  if nonempty (header (fst (record_text rf s)))
  then fst (record_text rf s) :: records rf (snd (record_text rf s))
  else [].
Proof.
  destruct s as [|c s].
  - rewrite record_text_empty. reflexivity.
  - unfold records at 1. cbn [length records_list].
    pose proof (@record_text_shorter rf (c :: s)) as L.
    destruct (record_text rf (c :: s)) as [r s']. cbn [fst snd] in *.
    destruct (nonempty (header r)); [|reflexivity].
    specialize (L eq_refl). cbn [length] in L. f_equal.
    apply records_list_fuel. lia.
Qed.

(** Well-formed records are the records of their text. *)
Lemma records_render_all (rf : read_fn) (rs : list fastq) :
  forallb (is_record rf) rs = true -> records rf (render_all rs) = rs.
Proof.
  induction rs as [|r rs IH]; [reflexivity|].
  cbn [forallb]. intros H. apply andb_true_iff in H. destruct H as [Hr Hrs].
  rewrite records_unfold. cbn [render_all flat_map].
  rewrite (record_text_render _ _ _ Hr). cbn [fst snd].
  destruct (is_record_text _ _ Hr) as [_ Hn]. rewrite Hn.
  f_equal. exact (IH Hrs).
Qed.

(** A run over two texts, pair by pair of their records. *)
Lemma walk_text (g : config) (fuel : nat) :
  forall s1 s2 : list ascii,
    length s1 < fuel ->
    forallb (pair_defined g)
      (combine (records (read_func g) s1) (records (read_func g) s2)) = true ->
    exists x : summary,
      walk fuel g s1 s2 = Returns x
      /\ status x = status_for (length (records (read_func g) s1))
                               (length (records (read_func g) s2))
      /\ kept x + dropped x =
         Nat.min (length (records (read_func g) s1)) (length (records (read_func g) s2)).
Proof.
  induction fuel as [|fuel IH]; intros s1 s2 Hf Hd; [lia|].
  cbn [walk].
  rewrite (records_unfold (read_func g) s1), (records_unfold (read_func g) s2) in *.
  pose proof (@record_text_shorter (read_func g) s1) as L1.
  destruct (record_text (read_func g) s1) as [r1 s1'].
  destruct (record_text (read_func g) s2) as [r2 s2'].
  cbn [fst snd] in *.
  destruct (nonempty (header r1)) eqn:N1; destruct (nonempty (header r2)) eqn:N2;
    cbn [andb orb].
  2,3,4: (eexists; split; [reflexivity|]; cbn; auto).
  cbn [combine forallb] in Hd. apply andb_true_iff in Hd. destruct Hd as [Hp Hd].
  unfold pair_defined in Hp. cbn [fst snd] in Hp.
  destruct (IH s1' s2') as [x [Hx [Hs Hk]]]; [specialize (L1 eq_refl); lia|exact Hd|].
  destruct (call_check g r1 r2) as [[|]| |]; try discriminate Hp; cbn [bind].
  - apply andb_true_iff in Hp. destruct Hp as [Hw1 Hw2].
    destruct (written_by g (include_func_r1 g) r1) as [w1| |]; try discriminate Hw1.
    destruct (written_by g (include_func_r2 g) r2) as [w2| |]; try discriminate Hw2.
    cbn [bind]. rewrite Hx. cbn [bind].
    eexists. split; [reflexivity|]. cbn [status kept dropped length].
    split; [exact Hs|]. cbn [Nat.min]. lia.
  - rewrite Hx. cbn [bind].
    eexists. split; [reflexivity|]. cbn [status kept dropped length].
    split; [exact Hs|]. cbn [Nat.min]. lia.
Qed.

Lemma filter_fastqs_walk (g : config) (fs : filesystem) (c : counters)
  (out : list log_msg) (o1 o2 : option (list ascii)) :
  gzopen fs (r1i_path g) = handle_of o1 ->
  gzopen fs (r2i_path g) = handle_of o2 ->
  fopen_w fs (r1o_path g) = Returns (f_open []) ->
  fopen_w fs (r2o_path g) = Returns (f_open []) ->
  is_text (pending o1) -> is_text (pending o2) ->
  filter_fastqs g fs c out =
  (x <- walk (S (length (pending o1))) g (pending o1) (pending o2) ;;
   Returns (status x, finish g x (opened o1 o2 c out))).
Proof.
  intros Hi1 Hi2 Ho1 Ho2 Ht1 Ht2. unfold filter_fastqs, open_streams.
  rewrite Ho1, Ho2, Hi1, Hi2. cbn [bind r1i].
  replace (gz_pending (handle_of o1)) with (pending o1) by (now destruct o1).
  apply (filter_loop_walk (S (length (pending o1))) g o1 o2 [] []
           (checked0 c) (removed0 c) (remaining0 c) out Ht1 Ht2).
Qed.

(** A run over two text inputs; an input that could not be opened counts
    as an empty one. *)
Lemma filter_fastqs_text (g : config) (fs : filesystem) (c : counters)
  (out : list log_msg) (o1 o2 : option (list ascii)) :
  gzopen fs (r1i_path g) = handle_of o1 ->
  gzopen fs (r2i_path g) = handle_of o2 ->
  fopen_w fs (r1o_path g) = Returns (f_open []) ->
  fopen_w fs (r2o_path g) = Returns (f_open []) ->
  is_text (pending o1) -> is_text (pending o2) ->
  forallb (pair_defined g)
    (combine (records (read_func g) (pending o1))
             (records (read_func g) (pending o2))) = true ->
  exists x : summary,
    filter_fastqs g fs c out = Returns (status x, finish g x (opened o1 o2 c out))
    /\ status x = status_for (length (records (read_func g) (pending o1)))
                             (length (records (read_func g) (pending o2)))
    /\ kept x + dropped x =
       Nat.min (length (records (read_func g) (pending o1)))
               (length (records (read_func g) (pending o2))).
Proof.
  intros Hi1 Hi2 Ho1 Ho2 T1 T2 Hd.
  rewrite (@filter_fastqs_walk g fs c out o1 o2 Hi1 Hi2 Ho1 Ho2 T1 T2).
  destruct (@walk_text g (S (length (pending o1))) (pending o1) (pending o2))
    as [x [Hx [Hs Hk]]]; [lia|exact Hd|].
  exists x. rewrite Hx. cbn [bind]. auto.
Qed.

(** ** Exit status *)




(** ** Filtering the output again *)

Lemma written_by_std (g : config) (r : fastq) :
  written_by g Std_include r = Returns (render r).
Proof. unfold written_by. cbn [call_include]. now rewrite std_include_open. Qed.






(** ** An empty exclusion list *)

Lemma strtok_shorter (d : ascii) (str0 : option cstring) (saved : cstring) :
  fst (strtok str0 [d] saved) <> None ->
  length (snd (strtok str0 [d] saved))
  < length (match str0 with Some s => s | None => saved end).
Proof.
  unfold strtok. set (s0 := match str0 with Some s => s | None => saved end).
  assert (Hskip : length (skip_delims [d] s0) <= length s0).
  { induction s0 as [|c s IH]; [reflexivity|]. cbn [skip_delims].
    destruct (is_delim [d] c); cbn [length] in *; lia. }
  assert (Htake : forall s, s <> [] ->
            length (snd (take_token [d] s)) < length s).
  { induction s as [|c s IH]; [contradiction|]. intros _.
    rewrite take_token_cons. destruct (Ascii.eqb c d); cbn [snd length]; [lia|].
    destruct s as [|c' s']; [cbn; lia|].
    assert (Hne : c' :: s' <> []) by discriminate. specialize (IH Hne).
    cbn [length] in *. lia. }
  destruct (skip_delims [d] s0) as [|c rest] eqn:E; [intros H; now contradiction H|].
  intros _. assert (Hne : c :: rest <> []) by discriminate.
  specialize (Htake _ Hne).
  destruct (take_token [d] (c :: rest)) as [tok after]. cbn [snd] in *.
  subst s0. eapply Nat.lt_le_trans; [exact Htake|exact Hskip].
Qed.

Lemma strtok_none (str0 : option cstring) (delim saved : cstring) :
  fst (strtok str0 delim saved) = None -> snd (strtok str0 delim saved) = [].
Proof.
  unfold strtok.
  destruct (skip_delims delim match str0 with Some s => s | None => saved end)
    as [|c rest]; [reflexivity|].
  destruct (take_token delim (c :: rest)). discriminate.
Qed.

Lemma copy_fields_tokens (fuel : nat) :
  forall (field : option cstring) (saved : cstring),
    match field with
    | Some _ => length saved + 1
    | None => 0
    end < fuel ->
    copy_fields fuel field saved =
    Returns (match field with
             | Some f => f :: tokens ","%char saved
             | None => []
             end).
Proof.
  induction fuel as [|fuel IH]; intros field saved Hlen; [lia|].
  cbn [copy_fields]. destruct field as [f|]; [|reflexivity].
  destruct (strtok_tokens ","%char None saved) as [H1 H2].
  pose proof (@strtok_shorter ","%char None saved) as Hs.
  unfold comma, str. cbn [String.list_ascii_of_string].
  destruct (strtok None [","%char] saved) as [field' saved']. cbn [fst snd] in *.
  change [","%char] with comma.
  rewrite IH.
  - cbn [bind]. do 2 f_equal. rewrite H1.
    destruct (tokens ","%char saved) as [|t ts]; cbn [hd_error tl] in *;
      [reflexivity|]. now rewrite H2.
  - destruct field' as [f'|]; [|lia].
    assert (Hne : Some f' <> None) by discriminate. specialize (Hs Hne). lia.
Qed.

(** [build_remove_tiles] fills the array with the non-empty comma-delimited
    fields of the argument. *)
Lemma build_remove_tiles_tokens (g : config) (rm_tiles : cstring) :
  remove_tiles g = Some rm_tiles ->
  build_remove_tiles g =
  Returns (set_tiles_to_remove (Some (tokens ","%char rm_tiles)) g).
Proof.
  intros H. unfold build_remove_tiles. rewrite H.
  destruct (strtok_tokens ","%char (Some rm_tiles) []) as [H1 H2].
  pose proof (@strtok_shorter ","%char (Some rm_tiles) []) as Hs.
  unfold comma, str. cbn [String.list_ascii_of_string].
  destruct (strtok (Some rm_tiles) [","%char] []) as [field saved]. cbn [fst snd] in *.
  change [","%char] with comma.
  rewrite copy_fields_tokens.
  - cbn [bind]. do 3 f_equal.
    rewrite H1. destruct (tokens ","%char rm_tiles) as [|t ts]; cbn [hd_error tl] in *;
      [reflexivity|]. now rewrite H2.
  - unfold strlen. destruct field as [f|]; [|lia].
    assert (Hne : Some f <> None) by discriminate. specialize (Hs Hne). lia.
Qed.

Lemma call_include_ext (g g' : config) (fn : include_fn) (r : fastq) (o : FILE) :
  trim_r1 g = trim_r1 g' -> trim_r2 g = trim_r2 g' ->
  call_include g fn r o = call_include g' fn r o.
Proof.
  intros H1 H2. destruct fn; cbn [call_include]; [reflexivity| |].
  - unfold trim_include_r1. now rewrite H1.
  - unfold trim_include_r2. now rewrite H2.
Qed.

(** Two configurations that differ in nothing the loop looks at, and whose
    predicates agree, run alike. *)
Lemma filter_loop_check_ext (g g' : config) :
  read_func g = read_func g' -> quiet g = quiet g' ->
  include_func_r1 g = include_func_r1 g' ->
  include_func_r2 g = include_func_r2 g' ->
  trim_r1 g = trim_r1 g' -> trim_r2 g = trim_r2 g' ->
  (forall r1 r2 : fastq, call_check g r1 r2 = call_check g' r1 r2) ->
  forall (fuel : nat) (st : state), filter_loop fuel g st = filter_loop fuel g' st.
Proof.
  intros Hr Hq H1 H2 T1 T2 Hc.
  induction fuel as [|fuel IH]; intros st; [reflexivity|].
  cbn [filter_loop].
  assert (E : filter_iteration g st = filter_iteration g' st).
  { unfold filter_iteration. rewrite Hr, Hq, H1, H2.
    destruct (read_record (read_func g') (r1i st)) as [[r1 f1]| |]; cbn [bind];
      try reflexivity.
    destruct (read_record (read_func g') (r2i st)) as [[r2 f2]| |]; cbn [bind];
      try reflexivity.
    rewrite Hc.
    rewrite (@call_include_ext g g' (include_func_r1 g') r1 (r1o st) T1 T2).
    destruct (call_include g' (include_func_r1 g') r1 (r1o st)); cbn [bind];
      try reflexivity.
    all: destruct (call_check g' r1 r2) as [[|]| |]; cbn [bind]; try reflexivity.
    all: now rewrite (@call_include_ext g g' (include_func_r2 g') r2 (r2o st) T1 T2). }
  rewrite E. destruct (filter_iteration g' st) as [[st'|ret st']| |]; cbn [bind];
    auto.
Qed.

(** C8: with the tile predicate selected and an empty exclusion list,
    [tile_check_read] decides every pair as [std_check_read] does, and so the
    whole run is the run under the plain length check. *)
Theorem empty_exclusion_is_length_only (g : config) :
  tiles_to_remove g = Some [] ->
  (forall r1 r2 : fastq,
     tile_check_read (threshold g) (tiles_to_remove g) r1 r2 =
     Returns (std_check_read (threshold g) r1 r2))
  /\ (forall r1 r2 : fastq,
        call_check (set_check_func Tile_check_read g) r1 r2 =
        call_check (set_check_func Std_check_read g) r1 r2)
  /\ (forall (fs : filesystem) (c : counters) (out : list log_msg),
        filter_fastqs (set_check_func Tile_check_read g) fs c out =
        filter_fastqs (set_check_func Std_check_read g) fs c out).
Proof.
  intros Ht.
  assert (H1 : forall r1 r2 : fastq,
            tile_check_read (threshold g) (tiles_to_remove g) r1 r2 =
            Returns (std_check_read (threshold g) r1 r2)).
  { intros r1 r2. rewrite Ht. unfold tile_check_read.
    destruct (std_check_read (threshold g) r1 r2); reflexivity. }
  assert (H2 : forall r1 r2 : fastq,
            call_check (set_check_func Tile_check_read g) r1 r2 =
            call_check (set_check_func Std_check_read g) r1 r2).
  { intros r1 r2. unfold call_check. cbn. apply H1. }
  split; [exact H1|]. split; [exact H2|].
  intros fs c out. unfold filter_fastqs.
  change (open_streams (set_check_func Tile_check_read g) fs c out)
    with (open_streams (set_check_func Std_check_read g) fs c out).
  destruct (open_streams (set_check_func Std_check_read g) fs c out) as [st| |];
    cbn [bind]; try reflexivity.
  apply filter_loop_check_ext; try reflexivity. exact H2.
Qed.

Lemma empty_exclusion_is_length_only_witness :
  exists g : config,
    getopt_loop (Opt_remove_tiles (str ",") :: example_argv) default_globals None
    = Returns (Parsed g None)
    /\ tiles_to_remove g = Some []
    /\ check_func g = Tile_check_read
    /\ filter_fastqs (set_check_func Tile_check_read g)
         (example_fs (Some three_reads) (Some two_reads)) initial_counters []
       = filter_fastqs (set_check_func Std_check_read g)
           (example_fs (Some three_reads) (Some two_reads)) initial_counters [].
Proof.
  eexists. split; [vm_compute; reflexivity|].
  split; [reflexivity|]. split; [reflexivity|].
  refine (proj2 (proj2 (@empty_exclusion_is_length_only _ _)) _ _ _).
  reflexivity.
Defined.

(** ** Fuel never runs out *)

Lemma gzgets_progress (f : gzFile) (len : nat) :
  match gzgets f len with
  | (Some got, f') => length (gz_pending f') < length (gz_pending f)
  | (None, f') => f' = f
  end.
Proof.
  destruct f as [|s|]; cbn [gzgets]; try reflexivity.
  pose proof (length_gz_take (len - 1) s) as H.
  destruct (gz_take (len - 1) s) as [[|c got] more]; [reflexivity|].
  cbn [gz_pending fst snd length] in *. lia.
Qed.

Lemma readln_loop_progress (fuel : nat) :
  forall (line : cstring) (f : gzFile),
    length (gz_pending f) < fuel ->
    readln_loop fuel line f <> OutOfFuel
    /\ forall (l : cstring) (f' : gzFile),
         readln_loop fuel line f = Returns (l, f') ->
         length (gz_pending f') <= length (gz_pending f)
         /\ (l <> line -> length (gz_pending f') < length (gz_pending f)).
Proof.
  induction fuel as [|fuel IH]; intros line f Hlen; [lia|].
  cbn [readln_loop]. pose proof (gzgets_progress f block_size) as Hg.
  destruct (gzgets f block_size) as [[got|] f1].
  - destruct (last_char (strcat line got)) as [c| |] eqn:El; cbn [bind].
    + destruct (Ascii.eqb c newline).
      * split; [discriminate|]. intros l f' H. inversion H; subst. lia.
      * destruct (IH (strcat line got) f1) as [H1 H2]; [lia|].
        split; [exact H1|]. intros l f' H. destruct (H2 l f' H) as [H3 _]. lia.
    + split; [discriminate|intros ? ? H; discriminate H].
    + unfold last_char in El. destruct (rev (strcat line got)); discriminate El.
  - subst f1. split; [discriminate|]. intros l f' H. inversion H; subst.
    split; [lia|]. intros Hne. contradiction.
Qed.

Lemma call_read_progress (rf : read_fn) (f : gzFile) :
  call_read rf f <> OutOfFuel
  /\ forall (l : cstring) (f' : gzFile),
       call_read rf f = Returns (l, f') ->
       length (gz_pending f') <= length (gz_pending f)
       /\ (l <> [] -> length (gz_pending f') < length (gz_pending f)).
Proof.
  destruct rf; cbn [call_read].
  - unfold readln. apply readln_loop_progress. lia.
  - unfold readln_unsafe. pose proof (gzgets_progress f unsafe_block_size) as Hg.
    destruct (gzgets f unsafe_block_size) as [[got|] f1].
    + split; [discriminate|]. intros l f' H. inversion H; subst. lia.
    + subst f1. split; [discriminate|]. intros l f' H. inversion H; subst.
      split; [lia|]. intros Hne. contradiction.
Qed.

Lemma read_record_progress (rf : read_fn) (f : gzFile) :
  read_record rf f <> OutOfFuel
  /\ forall (r : fastq) (f' : gzFile),
       read_record rf f = Returns (r, f') ->
       header r <> [] -> length (gz_pending f') < length (gz_pending f).
Proof.
  unfold read_record.
  destruct (call_read_progress rf f) as [N1 P1].
  destruct (call_read rf f) as [[h f1]| |]; cbn [bind];
    [|split; [discriminate|intros ? ? H; discriminate H]|contradiction].
  specialize (P1 h f1 eq_refl).
  destruct (call_read_progress rf f1) as [N2 P2].
  destruct (call_read rf f1) as [[s f2]| |]; cbn [bind];
    [|split; [discriminate|intros ? ? H; discriminate H]|contradiction].
  specialize (P2 s f2 eq_refl).
  destruct (call_read_progress rf f2) as [N3 P3].
  destruct (call_read rf f2) as [[p f3]| |]; cbn [bind];
    [|split; [discriminate|intros ? ? H; discriminate H]|contradiction].
  specialize (P3 p f3 eq_refl).
  destruct (call_read_progress rf f3) as [N4 P4].
  destruct (call_read rf f3) as [[q f4]| |]; cbn [bind];
    [|split; [discriminate|intros ? ? H; discriminate H]|contradiction].
  specialize (P4 q f4 eq_refl).
  split; [discriminate|]. intros r f' H Hh. inversion H; subst. cbn [header] in Hh.
  destruct P1 as [_ P1]. specialize (P1 Hh). lia.
Qed.

Lemma std_include_fuel (r : fastq) (o : FILE) : std_include r o <> OutOfFuel.
Proof. destruct o; cbn; discriminate. Qed.

Lemma call_include_fuel (g : config) (fn : include_fn) (r : fastq) (o : FILE) :
  call_include g fn r o <> OutOfFuel.
Proof.
  assert (Htrim : forall n, _trim_include r o n <> OutOfFuel).
  { intros n. unfold _trim_include, set_line_end.
    destruct (n =? INT_MAX)%Z; [discriminate|].
    destruct (Z.of_nat (strlen (seq r)) >? to_size_t (n + 1))%Z;
      [|apply std_include_fuel].
    destruct (n <? 0)%Z; [discriminate|].
    destruct (Z.to_nat n <=? strlen (seq r)), (Z.to_nat n + 2 <=? unsafe_block_size),
      (Z.to_nat n <=? strlen (qual r)); cbn [bind];
      first [discriminate|apply std_include_fuel]. }
  destruct fn; cbn [call_include]; [apply std_include_fuel|apply Htrim|apply Htrim].
Qed.

Lemma call_check_fuel (g : config) (r1 r2 : fastq) : call_check g r1 r2 <> OutOfFuel.
Proof.
  unfold call_check, tile_check_read. destruct (check_func g); [discriminate|].
  destruct (negb (std_check_read (threshold g) r1 r2)); [discriminate|].
  destruct (tiles_to_remove g) as [tiles|]; [|discriminate].
  generalize true. induction tiles as [|comp tiles IH]; intros b; cbn [tile_loop];
    [discriminate|].
  destruct (strcmp (Some comp) (get_tile_id (header r1))) eqn:E; cbn [bind];
    [apply IH|discriminate|].
  unfold strcmp in E. destruct (get_tile_id (header r1)); discriminate E.
Qed.

Lemma filter_iteration_progress (g : config) (st : state) :
  filter_iteration g st <> OutOfFuel
  /\ forall st' : state,
       filter_iteration g st = Returns (Continue st') ->
       length (gz_pending (r1i st')) < length (gz_pending (r1i st)).
Proof.
  unfold filter_iteration.
  destruct (read_record_progress (read_func g) (r1i st)) as [N1 P1].
  destruct (read_record (read_func g) (r1i st)) as [[r1 f1]| |]; cbn [bind];
    [|split; [discriminate|intros ? H; discriminate H]|contradiction].
  specialize (P1 r1 f1 eq_refl).
  destruct (read_record_progress (read_func g) (r2i st)) as [N2 _].
  destruct (read_record (read_func g) (r2i st)) as [[r2 f2]| |]; cbn [bind];
    [|split; [discriminate|intros ? H; discriminate H]|contradiction].
  destruct (Ascii.eqb (first_char (header r1)) NUL) eqn:E1; cbn [orb].
  - destruct (fclose (r1o st)) eqn:F1; cbn [bind];
      [|split; [discriminate|intros ? H; discriminate H]
       |destruct (r1o st); discriminate F1].
    destruct (fclose (r2o st)) eqn:F2; cbn [bind];
      [|split; [discriminate|intros ? H; discriminate H]
       |destruct (r2o st); discriminate F2].
    split; [discriminate|intros ? H; discriminate H].
  - assert (Hh : header r1 <> []).
    { intros E. rewrite E in E1. discriminate E1. }
    specialize (P1 Hh).
    destruct (Ascii.eqb (first_char (header r2)) NUL).
    + destruct (fclose (r1o st)) eqn:F1; cbn [bind];
        [|split; [discriminate|intros ? H; discriminate H]
         |destruct (r1o st); discriminate F1].
      destruct (fclose (r2o st)) eqn:F2; cbn [bind];
        [|split; [discriminate|intros ? H; discriminate H]
         |destruct (r2o st); discriminate F2].
      split; [discriminate|intros ? H; discriminate H].
    + pose proof (call_check_fuel g r1 r2) as C.
      destruct (call_check g r1 r2) as [[|]| |]; cbn [bind];
        [| |split; [discriminate|intros ? H; discriminate H]|contradiction].
      * pose proof (call_include_fuel g (include_func_r1 g) r1 (r1o st)) as I1.
        destruct (call_include g (include_func_r1 g) r1 (r1o st)) as [o1| |];
          cbn [bind];
          [|split; [discriminate|intros ? H; discriminate H]|contradiction].
        pose proof (call_include_fuel g (include_func_r2 g) r2 (r2o st)) as I2.
        destruct (call_include g (include_func_r2 g) r2 (r2o st)) as [o2| |];
          cbn [bind];
          [|split; [discriminate|intros ? H; discriminate H]|contradiction].
        split; [discriminate|]. intros st' H. inversion H; subst. exact P1.
      * split; [discriminate|]. intros st' H. inversion H; subst. exact P1.
Qed.

Lemma filter_loop_fuel (fuel : nat) (g : config) :
  forall st : state,
    length (gz_pending (r1i st)) < fuel -> filter_loop fuel g st <> OutOfFuel.
Proof.
  induction fuel as [|fuel IH]; intros st Hlen; [lia|].
  cbn [filter_loop]. destruct (filter_iteration_progress g st) as [N P].
  destruct (filter_iteration g st) as [[st'|ret st']| |]; cbn [bind];
    [|discriminate|discriminate|contradiction].
  apply IH. specialize (P st' eq_refl). lia.
Qed.

(** [filter_fastqs] either returns or meets undefined behaviour; the fuel
    it gives its loop always suffices. *)
Lemma filter_fastqs_fuel (g : config) (fs : filesystem) (c : counters)
  (out : list log_msg) :
  filter_fastqs g fs c out <> OutOfFuel.
Proof.
  unfold filter_fastqs.
  destruct (open_streams g fs c out) as [st| |] eqn:E; cbn [bind];
    [|discriminate|].
  - apply filter_loop_fuel. lia.
  - unfold open_streams, fopen_w in E.
    destruct (r1o_path g); cbn [bind] in E; [|discriminate E].
    destruct (r2o_path g); cbn [bind] in E; discriminate E.
Qed.

Lemma getopt_loop_fuel (argv : list cli_option) :
  forall (g : config) (stats_file : option cstring),
    getopt_loop argv g stats_file <> OutOfFuel.
Proof.
  induction argv as [|arg rest IH]; intros g stats_file; [discriminate|].
  destruct arg; cbn [getopt_loop]; try apply IH; try discriminate.
  rewrite (@build_remove_tiles_tokens (set_remove_tiles (Some tiles) g) tiles eq_refl).
  cbn [bind]. apply IH.
Qed.

Lemma build_output_path_fuel (input_path : cstring) :
  build_output_path input_path <> OutOfFuel.
Proof.
  unfold build_output_path, last_char.
  destruct (rev input_path) as [|c r]; cbn [bind]; [discriminate|].
  destruct (strlen input_path <? (if Ascii.eqb c "z"%char then 9 else 6));
    [discriminate|].
  cbv zeta. match goal with |- (if ?b then _ else _) <> _ => destruct b end;
    discriminate.
Qed.

(** The whole program either exits or meets undefined behaviour. *)
Lemma main_fuel (argv : list cli_option) (fs : filesystem) : main argv fs <> OutOfFuel.
Proof.
  unfold main. pose proof (getopt_loop_fuel argv default_globals None) as Hg.
  destruct (getopt_loop argv default_globals None) as [[status out|g stats_file]| |];
    cbn [bind]; [discriminate| |discriminate|contradiction].
  unfold run_main.
  destruct (is_null (r1i_path g) || is_null (r2i_path g) || (threshold g =? -1)%Z);
    [discriminate|].
  destruct (is_null (r1o_path g)).
  - pose proof (build_output_path_fuel (path_text (r1i_path g))) as B1.
    destruct (build_output_path (path_text (r1i_path g))) as [p1| |]; cbn [bind];
      [|discriminate|contradiction].
    cbn [r2o_path set_r1o_path r2i_path quiet].
    destruct (is_null (r2o_path g)).
    + pose proof (build_output_path_fuel (path_text (r2i_path g))) as B2.
      destruct (build_output_path (path_text (r2i_path g))) as [p2| |]; cbn [bind];
        [|discriminate|contradiction].
      match goal with
      | |- context [filter_fastqs ?a ?b ?c ?d] =>
          pose proof (filter_fastqs_fuel a b c d) as F;
          destruct (filter_fastqs a b c d) as [[ret st]| |]
      end; cbn [bind]; [|discriminate|contradiction].
      destruct stats_file as [p|]; [|discriminate].
      unfold output_stats. destruct (writable fs p); discriminate.
    + cbn [bind].
      match goal with
      | |- context [filter_fastqs ?a ?b ?c ?d] =>
          pose proof (filter_fastqs_fuel a b c d) as F;
          destruct (filter_fastqs a b c d) as [[ret st]| |]
      end; cbn [bind]; [|discriminate|contradiction].
      destruct stats_file as [p|]; [|discriminate].
      unfold output_stats. destruct (writable fs p); discriminate.
  - cbn [bind]. destruct (is_null (r2o_path g)).
    + pose proof (build_output_path_fuel (path_text (r2i_path g))) as B2.
      destruct (build_output_path (path_text (r2i_path g))) as [p2| |]; cbn [bind];
        [|discriminate|contradiction].
      match goal with
      | |- context [filter_fastqs ?a ?b ?c ?d] =>
          pose proof (filter_fastqs_fuel a b c d) as F;
          destruct (filter_fastqs a b c d) as [[ret st]| |]
      end; cbn [bind]; [|discriminate|contradiction].
      destruct stats_file as [p|]; [|discriminate].
      unfold output_stats. destruct (writable fs p); discriminate.
    + cbn [bind].
      match goal with
      | |- context [filter_fastqs ?a ?b ?c ?d] =>
          pose proof (filter_fastqs_fuel a b c d) as F;
          destruct (filter_fastqs a b c d) as [[ret st]| |]
      end; cbn [bind]; [|discriminate|contradiction].
      destruct stats_file as [p|]; [|discriminate].
      unfold output_stats. destruct (writable fs p); discriminate.
Qed.

(** * Further properties *)

(** ** Buffer sizes of the growable reader *)

Lemma gz_take_length (n : nat) (s : list ascii) : length (fst (gz_take n s)) <= n.
Proof.
  revert s. induction n as [|n IH]; intros [|c s]; cbn [gz_take fst length]; try lia.
  destruct (Ascii.eqb c newline); [cbn; lia|].
  specialize (IH s). destruct (gz_take n s). cbn [fst length] in *. lia.
Qed.

(** A chunk that leaves input behind ended at a newline or is full. *)
Lemma gz_take_full (n : nat) (s : list ascii) :
  snd (gz_take n s) <> [] ->
  last_char (fst (gz_take n s)) = Returns newline \/ length (fst (gz_take n s)) = n.
Proof.
  revert s. induction n as [|n IH]; intros s H.
  - right. destruct s; reflexivity.
  - destruct s as [|c s]; [cbn in H; contradiction|].
    cbn [gz_take] in *. destruct (Ascii.eqb c newline) eqn:Ec.
    + left. apply Ascii.eqb_eq in Ec. subst c. reflexivity.
    + specialize (IH s). destruct (gz_take n s) as [got more]. cbn [fst snd] in *.
      destruct (IH H) as [Hl|Hl].
      * left. destruct got as [|g got]; [discriminate Hl|].
        rewrite last_char_cons by discriminate. exact Hl.
      * right. cbn [length]. now rewrite Hl.
Qed.

Lemma length_c_str (buf : list ascii) : length (c_str buf) <= length buf.
Proof.
  induction buf as [|c buf IH]; [reflexivity|]. cbn [c_str].
  destruct (Ascii.eqb c NUL); cbn [length]; lia.
Qed.

Lemma readln_loop_sized_spec (fuel : nat) :
  forall (b k : Z) (line : cstring) (s : list ascii),
    is_text s -> length s < fuel ->
    (Z.of_nat (length line) + 1 <= b - 2047)%Z ->
    (0 <= k)%Z ->
    (Z.of_nat (length (fst (next_line s))) <= 2047 * k)%Z ->
    (b + 2048 * (k + 2) <= INT_MAX)%Z ->
    readln_loop_sized fuel b line (gz_open s) = readln_loop fuel line (gz_open s).
Proof.
  induction fuel as [|fuel IH]; intros b k line s Ht Hlen Hline Hk Hr Hb; [lia|].
  cbn [readln_loop_sized readln_loop].
  change (Z.of_nat block_size) with 2048%Z.
  destruct (Z.gtb_spec (b + 2048) INT_MAX) as [Hov|_]; [lia|].
  rewrite gzgets_open. set (n := block_size - 1).
  pose proof (gz_take_length n s) as Hn.
  pose proof (@gz_take_full n s) as Hfull.
  pose proof (length_gz_take n s) as Hsum.
  destruct (is_text_gz_take n Ht) as [Htg Htm].
  destruct (fst (gz_take n s)) as [|g got] eqn:Eg; [reflexivity|].
  rewrite <- Eg in *.
  assert (Hn' : length (fst (gz_take n s)) <= 2047) by exact Hn.
  destruct (Nat.ltb_spec block_size (length (fst (gz_take n s)) + 1)) as [Hc|_].
  { change block_size with 2048 in Hc. lia. }
  unfold strcat, strlen. rewrite (c_str_text Htg).
  destruct (Z.gtb_spec (Z.of_nat (length line + length (fst (gz_take n s)) + 1))
              (b + 2048 + 1)) as [Hc|_]; [lia|].
  destruct (gz_take_next_line n s) as [c [Hc [Hnl Hno]]]; [rewrite Eg; discriminate|].
  rewrite last_char_app by (rewrite Eg; discriminate).
  rewrite Hc. cbn [bind].
  destruct (Ascii.eqb c newline) eqn:Ec; [reflexivity|].
  apply Ascii.eqb_neq in Ec. specialize (Hno Ec).
  rewrite Hno in Hr. cbn [fst] in Hr. rewrite length_app in Hr.
  destruct (snd (gz_take n s)) as [|m more] eqn:Em.
  - (* the input ended inside the line: one more pass, which reads nothing *)
    destruct fuel as [|fuel']; [rewrite Eg in Hsum; cbn [length] in Hsum; lia|].
    cbn [readln_loop_sized readln_loop gzgets gz_take].
    change (Z.of_nat block_size) with 2048%Z.
    destruct (Z.gtb_spec (b + 2048 + 2048) INT_MAX) as [Hov|_]; [lia|].
    destruct (block_size - 1); reflexivity.
  - rewrite <- Em in *.
    assert (Hf : length (fst (gz_take n s)) = 2047).
    { destruct Hfull as [Hl|Hl]; [rewrite Em; discriminate| |exact Hl].
      rewrite Hc in Hl. inversion Hl. contradiction. }
    apply (IH (b + 2048)%Z (k - 1)%Z).
    + exact Htm.
    + rewrite Hf in Hsum. lia.
    + rewrite length_app. lia.
    + lia.
    + lia.
    + lia.
Qed.

(** X1: on a text stream whose next line is shorter than 2047 * 1048572
    bytes (about 2 GiB), [readln] never overflows [_block_size], never
    writes past either of its buffers, and returns what the model without
    sizes returns. *)
Theorem readln_within_buffers (s : list ascii) :
  is_text s ->
  (Z.of_nat (length (fst (next_line s))) <= 2047 * 1048572)%Z ->
  readln_sized (gz_open s) = readln (gz_open s)
  /\ readln_sized (gz_open s) = Returns (fst (next_line s), gz_open (snd (next_line s))).
Proof.
  intros Ht Hr.
  assert (E : readln_sized (gz_open s) = readln (gz_open s)).
  { unfold readln_sized, readln. cbn [gz_pending].
    apply (@readln_loop_sized_spec (S (length s)) 2048%Z 1048572%Z [] s Ht);
      try (unfold INT_MAX; cbn [length]; lia). }
  split; [exact E|]. rewrite E. now apply readln_next_line.
Qed.

Lemma readln_within_buffers_witness :
  let s := repeat "A"%char 5000 ++ [newline] ++ str "@next" in
  is_text s
  /\ (Z.of_nat (length (fst (next_line s))) <= 2047 * 1048572)%Z
  /\ readln_sized (gz_open s) = readln (gz_open s).
Proof.
  intros s.
  assert (Ht : is_text s) by (vm_compute; reflexivity).
  assert (Hr : (Z.of_nat (length (fst (next_line s))) <= 2047 * 1048572)%Z).
  { vm_compute. discriminate. }
  split; [exact Ht|]. split; [exact Hr|].
  exact (proj1 (@readln_within_buffers s Ht Hr)).
Defined.

(** ** The fixed-buffer reader *)

Lemma gz_take_or_next_line (n : nat) :
  forall s : list ascii,
    (length (fst (next_line s)) <= n -> gz_take n s = next_line s)
    /\ (n < length (fst (next_line s)) ->
        fst (gz_take n s) = firstn n s
        /\ snd (gz_take n s) = skipn n s
        /\ ~ In newline (fst (gz_take n s))).
Proof.
  induction n as [|n IH]; intros s.
  - split.
    + intros H. assert (E : fst (next_line s) = []).
      { destruct (fst (next_line s)); [reflexivity|cbn in H; lia]. }
      apply (proj1 (next_line_nil s)) in E. subst s. reflexivity.
    + intros _. destruct s; cbn; auto.
  - destruct s as [|c s]; [split; [reflexivity|cbn; lia]|].
    cbn [gz_take next_line firstn skipn].
    destruct (Ascii.eqb c newline) eqn:Ec; [split; [reflexivity|cbn; lia]|].
    destruct (IH s) as [IH1 IH2].
    destruct (next_line s) as [l more]. cbn [fst snd length] in *. split.
    + intros H. rewrite IH1 by lia. reflexivity.
    + intros H. destruct IH2 as [E1 [E2 E3]]; [lia|].
      destruct (gz_take n s) as [got rest]. cbn [fst snd] in *. subst.
      repeat split. intros [Hc|Hc]; [|contradiction].
      apply Ascii.eqb_neq in Ec. congruence.
Qed.

(** X2: on a text stream [readln_unsafe] returns at most 4095 bytes and
    loses none: what it does not return stays in the stream.  A next line
    of at most 4095 bytes is returned whole, as [readln] returns it; of a
    longer one only the first 4095 bytes come back, without a newline, and
    the rest of the line is what the next call reads. *)
Theorem readln_unsafe_splits (s : list ascii) :
  is_text s ->
  exists (l : cstring) (rest : list ascii),
    readln_unsafe (gz_open s) = Returns (l, gz_open rest)
    /\ s = l ++ rest
    /\ length l <= unsafe_block_size - 1
    /\ (length (fst (next_line s)) <= unsafe_block_size - 1 ->
        readln (gz_open s) = Returns (l, gz_open rest))
    /\ (unsafe_block_size - 1 < length (fst (next_line s)) ->
        l = firstn (unsafe_block_size - 1) s
        /\ rest = skipn (unsafe_block_size - 1) s
        /\ ~ In newline l).
Proof.
  intros Ht. set (n := unsafe_block_size - 1).
  exists (fst (gz_take n s)), (snd (gz_take n s)).
  split; [now apply readln_unsafe_text|].
  split; [symmetry; apply gz_take_app|].
  split; [apply gz_take_length|].
  destruct (gz_take_or_next_line n s) as [H1 H2]. split.
  - intros H. rewrite (H1 H). now apply readln_next_line.
  - exact H2.
Qed.

Lemma readln_unsafe_splits_witness :
  let s := repeat "A"%char 5000 ++ [newline] ++ str "@next" in
  is_text s
  /\ exists (l : cstring) (rest : list ascii),
       readln_unsafe (gz_open s) = Returns (l, gz_open rest)
       /\ length l <= unsafe_block_size - 1.
Proof.
  intros s.
  assert (Ht : is_text s) by (vm_compute; reflexivity).
  split; [exact Ht|].
  destruct (@readln_unsafe_splits s Ht) as [l [rest [H1 [_ [H3 _]]]]].
  exists l, rest. split; assumption.
Defined.

Lemma short_lines_next_line (n : nat) (s : list ascii) :
  forall k : nat,
    short_lines_from n k s = true ->
    length (fst (next_line s)) <= k /\ short_lines n (snd (next_line s)) = true.
Proof.
  induction s as [|c s IH]; intros k H.
  - cbn. split; [lia|reflexivity].
  - cbn [short_lines_from] in H. destruct k as [|k]; [discriminate H|].
    cbn [next_line]. destruct (Ascii.eqb c newline).
    + cbn [fst snd length]. split; [lia|exact H].
    + destruct (IH k H) as [H1 H2]. destruct (next_line s) as [l more].
      cbn [fst snd length] in *. split; [lia|exact H2].
Qed.

Lemma read_text_short_lines (s : list ascii) :
  short_lines (unsafe_block_size - 1) s = true ->
  read_text Readln_unsafe s = read_text Readln s
  /\ short_lines (unsafe_block_size - 1) (snd (read_text Readln s)) = true.
Proof.
  intros H. destruct (short_lines_next_line _ _ _ H) as [H1 H2].
  cbn [read_text]. split; [|exact H2].
  now apply (proj1 (gz_take_or_next_line (unsafe_block_size - 1) s)).
Qed.

Lemma record_text_short_lines (s : list ascii) :
  short_lines (unsafe_block_size - 1) s = true ->
  record_text Readln_unsafe s = record_text Readln s
  /\ short_lines (unsafe_block_size - 1) (snd (record_text Readln s)) = true.
Proof.
  intros H. unfold record_text.
  destruct (read_text_short_lines s H) as [E1 H1]. rewrite E1.
  destruct (read_text Readln s) as [h s1]. cbn [snd] in H1.
  destruct (read_text_short_lines s1 H1) as [E2 H2]. rewrite E2.
  destruct (read_text Readln s1) as [q s2]. cbn [snd] in H2.
  destruct (read_text_short_lines s2 H2) as [E3 H3]. rewrite E3.
  destruct (read_text Readln s2) as [p s3]. cbn [snd] in H3.
  destruct (read_text_short_lines s3 H3) as [E4 H4]. rewrite E4.
  destruct (read_text Readln s3) as [l s4]. cbn [snd] in *. auto.
Qed.

Lemma walk_short_lines (g : config) (fuel : nat) :
  read_func g = Readln ->
  forall s1 s2 : list ascii,
    short_lines (unsafe_block_size - 1) s1 = true ->
    short_lines (unsafe_block_size - 1) s2 = true ->
    walk fuel (set_read_func Readln_unsafe g) s1 s2 = walk fuel g s1 s2.
Proof.
  intros Hr. induction fuel as [|fuel IH]; intros s1 s2 H1 H2; [reflexivity|].
  cbn [walk]. rewrite Hr. cbn [read_func set_read_func].
  destruct (record_text_short_lines s1 H1) as [E1 K1].
  destruct (record_text_short_lines s2 H2) as [E2 K2].
  rewrite E1, E2.
  destruct (record_text Readln s1) as [r1 s1'].
  destruct (record_text Readln s2) as [r2 s2']. cbn [snd] in *.
  rewrite (IH s1' s2' K1 K2). reflexivity.
Qed.

(** X3: when no line of either text input is longer than 4095 bytes, the
    run with the fixed-buffer reader ([--unsafe]) is the run with the
    growable reader: same status, same counters, same output. *)
Theorem unsafe_run_on_short_lines (g : config) (fs : filesystem) (c : counters)
  (out : list log_msg) (s1 s2 : list ascii) :
  read_func g = Readln ->
  gzopen fs (r1i_path g) = gz_open s1 ->
  gzopen fs (r2i_path g) = gz_open s2 ->
  fopen_w fs (r1o_path g) = Returns (f_open []) ->
  fopen_w fs (r2o_path g) = Returns (f_open []) ->
  is_text s1 -> is_text s2 ->
  short_lines (unsafe_block_size - 1) s1 = true ->
  short_lines (unsafe_block_size - 1) s2 = true ->
  filter_fastqs (set_read_func Readln_unsafe g) fs c out = filter_fastqs g fs c out.
Proof.
  intros Hr Hi1 Hi2 Ho1 Ho2 T1 T2 K1 K2.
  rewrite (@filter_fastqs_walk g fs c out (Some s1) (Some s2) Hi1 Hi2 Ho1 Ho2 T1 T2).
  rewrite (@filter_fastqs_walk (set_read_func Readln_unsafe g) fs c out
             (Some s1) (Some s2) Hi1 Hi2 Ho1 Ho2 T1 T2).
  cbn [pending]. rewrite (walk_short_lines g _ Hr s1 s2 K1 K2). reflexivity.
Qed.

Lemma unsafe_run_on_short_lines_witness :
  filter_fastqs (set_read_func Readln_unsafe example_globals)
    (example_fs (Some three_reads) (Some two_reads)) initial_counters []
  = filter_fastqs example_globals
      (example_fs (Some three_reads) (Some two_reads)) initial_counters [].
Proof.
  apply (@unsafe_run_on_short_lines example_globals
           (example_fs (Some three_reads) (Some two_reads)) initial_counters []
           (render_all three_reads) (render_all two_reads));
    reflexivity.
Defined.

(** ** Default output paths *)

Lemma build_output_path_undefined (input_path : cstring) :
  build_output_path input_path = Undefined.
Proof.
  unfold build_output_path.
  destruct (last_char input_path) as [c| |] eqn:E; cbn [bind]; [|reflexivity|].
  - set (n := if Ascii.eqb c "z"%char then 9 else 6).
    destruct (Nat.ltb_spec (strlen input_path) n) as [_|Hn]; [reflexivity|].
    cbv zeta. unfold strlen in *.
    rewrite length_app, firstn_length_le by lia.
    change (length (str "_filtered.fastq")) with 15.
    destruct (Nat.ltb_spec (length input_path - n + 15)
                (length input_path - n + 15 + 1)) as [_|Hc]; [reflexivity|lia].
  - unfold last_char in E. destruct (rev input_path); discriminate E.
Qed.

(** X4: [build_output_path] writes one byte past its allocation on every
    call.  It allocates [basename_len + 15] bytes, and the base name, the 15
    characters of [_filtered.fastq] and the terminator take
    [basename_len + 16].  So once the required arguments are there, a
    command line without [--o1] or without [--o2] has no defined result. *)
Theorem build_output_path_overflows :
  (forall input_path : cstring, build_output_path input_path = Undefined)
  /\ (forall (argv : list cli_option) (fs : filesystem) (g : config)
             (stats_file : option cstring),
        getopt_loop argv default_globals None = Returns (Parsed g stats_file) ->
        r1i_path g <> None -> r2i_path g <> None -> threshold g <> (-1)%Z ->
        r1o_path g = None \/ r2o_path g = None ->
        main argv fs = Undefined).
Proof.
  split; [exact build_output_path_undefined|].
  intros argv fs g stats_file Hopt Hi1 Hi2 Hthr Ho.
  unfold main. rewrite Hopt. cbn [bind]. unfold run_main.
  destruct (r1i_path g) as [i1|] eqn:E1; [|contradiction].
  destruct (r2i_path g) as [i2|] eqn:E2; [|contradiction].
  apply Z.eqb_neq in Hthr. rewrite Hthr. cbn [is_null orb path_text].
  destruct (r1o_path g) as [p1|] eqn:P1; cbn [is_null].
  - destruct Ho as [Ho|Ho]; [discriminate Ho|].
    cbn [bind]. rewrite Ho. cbn [is_null].
    now rewrite build_output_path_undefined.
  - now rewrite build_output_path_undefined.
Qed.

Lemma build_output_path_overflows_witness :
  let argv := [Opt_i1 (str "r1.fastq"); Opt_i2 (str "r2.fastq"); Opt_threshold 5;
               Opt_o1 (str "o1.fastq")] in
  (exists (g : config) (stats_file : option cstring),
     getopt_loop argv default_globals None = Returns (Parsed g stats_file)
     /\ r1i_path g <> None /\ r2i_path g <> None /\ threshold g <> (-1)%Z
     /\ r2o_path g = None)
  /\ build_output_path (str "r2.fastq") = Undefined
  /\ main argv (example_fs (Some two_reads) (Some two_reads)) = Undefined.
Proof.
  intros argv.
  destruct build_output_path_overflows as [A B].
  assert (Hopt : getopt_loop argv default_globals None =
                 Returns (Parsed (set_r1o_path (Some (str "o1.fastq"))
                                    (set_threshold 5
                                       (set_r2i_path (Some (str "r2.fastq"))
                                          (set_r1i_path (Some (str "r1.fastq"))
                                             default_globals)))) None))
    by reflexivity.
  split.
  - eexists. eexists. split; [exact Hopt|].
    cbn. repeat split; discriminate.
  - split; [exact (A _)|].
    apply (B argv _ _ _ Hopt); cbn; try discriminate. now right.
Defined.

(** ** More on the two predicates *)

Lemma to_size_t_negative (t : Z) :
  (- INT_MAX - 1 <= t < 0)%Z -> to_size_t t = (SIZE_MOD + t)%Z.
Proof.
  intros H. unfold to_size_t, SIZE_MOD, INT_MAX in *.
  rewrite <- (Z_mod_plus_full t 1 (2 ^ 64)). rewrite Z.mod_small by lia. lia.
Qed.

(** X5: the threshold is compared as a [size_t].  A negative threshold
    becomes a number above 2^63, so [std_check_read] rejects every pair whose
    first sequence line is shorter than that; among the non-negative
    thresholds a pair accepted under one is accepted under every smaller
    one. *)
Theorem std_check_read_threshold_range (r1 r2 : fastq) :
  (forall t : Z,
     (- INT_MAX - 1 <= t < 0)%Z ->
     (Z.of_nat (strlen (seq r1)) < 2 ^ 63)%Z ->
     std_check_read t r1 r2 = false)
  /\ (forall t t' : Z,
        (0 <= t' <= t)%Z -> (t <= INT_MAX)%Z ->
        std_check_read t r1 r2 = true -> std_check_read t' r1 r2 = true).
Proof.
  split.
  - intros t Ht Hl. unfold std_check_read. rewrite (to_size_t_negative Ht).
    unfold SIZE_MOD, INT_MAX in *.
    destruct (Z.gtb_spec (Z.of_nat (strlen (seq r1))) (2 ^ 64 + t)) as [Hc|_];
      [lia|reflexivity].
  - intros t t' Ht' Ht H. unfold std_check_read in *.
    rewrite to_size_t_small in H by lia. rewrite to_size_t_small by lia.
    apply andb_true_iff in H. destruct H as [H1 H2].
    rewrite Z.gtb_ltb, Z.ltb_lt in H1, H2.
    apply andb_true_iff. rewrite !Z.gtb_ltb, !Z.ltb_lt. lia.
Qed.

Lemma std_check_read_threshold_range_witness :
  let r := example_read (str "1101") 100 in
  (- INT_MAX - 1 <= -5 < 0)%Z
  /\ (Z.of_nat (strlen (seq r)) < 2 ^ 63)%Z
  /\ std_check_read (-5) r r = false
  /\ std_check_read 3 r r = true.
Proof.
  intros r.
  assert (H1 : (- INT_MAX - 1 <= -5 < 0)%Z) by (unfold INT_MAX; lia).
  assert (H2 : (Z.of_nat (strlen (seq r)) < 2 ^ 63)%Z) by (vm_compute; reflexivity).
  destruct (std_check_read_threshold_range r r) as [N M].
  split; [exact H1|]. split; [exact H2|]. split; [exact (N _ H1 H2)|].
  apply (M 50%Z 3%Z); [lia|unfold INT_MAX; lia|reflexivity].
Defined.

Lemma excluded_app (tile_id : cstring) (a b : list cstring) :
  excluded tile_id (a ++ b) = excluded tile_id a || excluded tile_id b.
Proof.
  destruct (excluded tile_id (a ++ b)) eqn:E.
  - apply excluded_In in E. apply in_app_or in E. symmetry. apply orb_true_iff.
    destruct E as [E|E]; [left|right]; now apply excluded_In.
  - symmetry. apply orb_false_iff. split.
    + destruct (excluded tile_id a) eqn:Ea; [|reflexivity].
      apply excluded_In in Ea. assert (Hin : In tile_id (a ++ b)) by (apply in_or_app; auto).
      apply excluded_In in Hin. congruence.
    + destruct (excluded tile_id b) eqn:Eb; [|reflexivity].
      apply excluded_In in Eb. assert (Hin : In tile_id (a ++ b)) by (apply in_or_app; auto).
      apply excluded_In in Hin. congruence.
Qed.

(** X6: [tile_check_read] never accepts a pair that [std_check_read]
    rejects.  For a header with a tile id it accepts a pair under the
    concatenation of two exclusion lists exactly when it accepts it under
    both, so the order of the tiles and their repetition do not matter. *)
Theorem tile_lists_compose (t : Z) (r1 r2 : fastq) :
  (forall tiles : option (list cstring),
     tile_check_read t tiles r1 r2 = Returns true -> std_check_read t r1 r2 = true)
  /\ (forall (tile_id : cstring) (a b : list cstring),
        get_tile_id (header r1) = Some tile_id ->
        exists ka kb : bool,
          tile_check_read t (Some a) r1 r2 = Returns ka
          /\ tile_check_read t (Some b) r1 r2 = Returns kb
          /\ tile_check_read t (Some (a ++ b)) r1 r2 = Returns (ka && kb)
          /\ tile_check_read t (Some (b ++ a)) r1 r2 = Returns (ka && kb)).
Proof.
  split.
  - intros tiles H. unfold tile_check_read in H.
    destruct (std_check_read t r1 r2); [reflexivity|discriminate H].
  - intros id a b Hid. rewrite get_tile_id_tokens in Hid.
    rewrite !tile_check_read_tokens, Hid.
    destruct (negb (std_check_read t r1 r2)).
    + exists false, false. auto.
    + exists (negb (excluded id a)), (negb (excluded id b)).
      rewrite !excluded_app, !negb_orb. repeat split. f_equal. apply andb_comm.
Qed.

Lemma tile_lists_compose_witness :
  let r := example_read (str "1102") 10 in
  get_tile_id (header r) = Some (str "1102")
  /\ tile_check_read 5 (Some ([str "1101"] ++ [str "1102"])) r r = Returns false.
Proof.
  intros r.
  assert (H : get_tile_id (header r) = Some (str "1102")) by reflexivity.
  split; [exact H|].
  destruct (proj2 (tile_lists_compose 5 r r) _ [str "1101"] [str "1102"] H)
    as [ka [kb [Ha [Hb [Hab _]]]]].
  rewrite Hab.
  assert (Ea : ka = true) by (vm_compute in Ha; now inversion Ha).
  assert (Eb : kb = false) by (vm_compute in Hb; now inversion Hb).
  now rewrite Ea, Eb.
Defined.

(** ** Trimming in closed form *)

Lemma trim_include_as_truncate (r : fastq) (outfile : FILE) (len : nat) :
  (Z.of_nat len < INT_MAX)%Z ->
  (len + 1 < strlen (seq r) -> len <= strlen (qual r)) ->
  _trim_include r outfile (Z.of_nat len) = std_include (truncate r len) outfile.
Proof.
  intros Hlen Hq. unfold _trim_include, truncate.
  rewrite to_size_t_small by lia.
  destruct (Z.eqb_spec (Z.of_nat len) INT_MAX) as [E|_]; [lia|].
  destruct (Nat.ltb_spec (len + 1) (strlen (seq r))) as [Hlt|Hge].
  - destruct (Z.gtb_spec (Z.of_nat (strlen (seq r))) (Z.of_nat len + 1)) as [_|Hc];
      [|lia].
    destruct (Z.ltb_spec (Z.of_nat len) 0) as [Hneg|_]; [lia|].
    rewrite Nat2Z.id. unfold set_line_end.
    destruct (Nat.leb_spec len (strlen (seq r))) as [_|Hc]; [|lia].
    destruct (Nat.leb_spec len (strlen (qual r))) as [_|Hc]; [|specialize (Hq Hlt); lia].
    reflexivity.
  - destruct (Z.gtb_spec (Z.of_nat (strlen (seq r))) (Z.of_nat len + 1)) as [Hc|_];
      [lia|reflexivity].
Qed.

(** ** Joined fields *)

Lemma clean_field_spec (d : ascii) (f : cstring) :
  clean_field d f = true <-> f <> [] /\ ~ In d f.
Proof.
  unfold clean_field. rewrite andb_true_iff, negb_true_iff. split.
  - intros [Hn He]. split; [destruct f; [discriminate Hn|discriminate]|].
    intros Hin. assert (Ht : existsb (Ascii.eqb d) f = true).
    { apply existsb_exists. exists d. split; [exact Hin|apply Ascii.eqb_refl]. }
    congruence.
  - intros [Hn Hin]. split; [destruct f; [contradiction|reflexivity]|].
    destruct (existsb (Ascii.eqb d) f) eqn:E; [|reflexivity].
    apply existsb_exists in E. destruct E as [x [Hx Ex]].
    apply Ascii.eqb_eq in Ex. subst x. contradiction.
Qed.

Lemma split_on_app_delim (d : ascii) (f rest : cstring) :
  ~ In d f -> split_on d (f ++ d :: rest) = f :: split_on d rest.
Proof.
  induction f as [|c f IH]; intros Hin.
  - cbn [app split_on]. now rewrite Ascii.eqb_refl.
  - cbn [app split_on].
    assert (Hc : Ascii.eqb c d = false).
    { apply Ascii.eqb_neq. intros ->. apply Hin. now left. }
    rewrite Hc, IH; [reflexivity|]. intros H. apply Hin. now right.
Qed.

Lemma split_on_no_delim (d : ascii) (f : cstring) :
  ~ In d f -> split_on d f = [f].
Proof.
  induction f as [|c f IH]; intros Hin; [reflexivity|].
  cbn [split_on].
  assert (Hc : Ascii.eqb c d = false).
  { apply Ascii.eqb_neq. intros ->. apply Hin. now left. }
  rewrite Hc, IH; [reflexivity|]. intros H. apply Hin. now right.
Qed.

Lemma tokens_join (d : ascii) (fs : list cstring) :
  forallb (clean_field d) fs = true -> tokens d (join d fs) = fs.
Proof.
  induction fs as [|f rest IH]; [reflexivity|].
  cbn [forallb]. intros H. apply andb_true_iff in H. destruct H as [Hf Hrest].
  apply clean_field_spec in Hf. destruct Hf as [Hne Hin].
  cbn [join]. destruct rest as [|r rs].
  - unfold tokens. rewrite (@split_on_no_delim d f Hin). cbn [filter].
    destruct f; [contradiction|reflexivity].
  - unfold tokens in *. rewrite (@split_on_app_delim d f _ Hin). cbn [filter].
    destruct f as [|c f]; [contradiction|]. cbn [nonempty]. f_equal. exact (IH Hrest).
Qed.

(** X8: for a header made of non-empty, colon-free fields joined by
    colons, [get_tile_id] returns the field at position 4, and the null
    pointer when there are fewer than five fields. *)
Theorem get_tile_id_joined_fields (fs : list cstring) :
  forallb (clean_field ":"%char) fs = true ->
  get_tile_id (join ":"%char fs) = nth_error fs 4
  /\ (length fs < 5 -> get_tile_id (join ":"%char fs) = None).
Proof.
  intros H. rewrite get_tile_id_tokens, (tokens_join _ _ H).
  split; [reflexivity|]. intros Hl. apply nth_error_None. lia.
Qed.

Lemma get_tile_id_joined_fields_witness :
  let fs := [str "@INST"; str "1"; str "FLOW"; str "2"; str "1101"; str "100";
             str "200" ++ [newline]] in
  forallb (clean_field ":"%char) fs = true
  /\ get_tile_id (join ":"%char fs) = Some (str "1101").
Proof.
  intros fs.
  assert (H : forallb (clean_field ":"%char) fs = true) by reflexivity.
  split; [exact H|]. exact (proj1 (@get_tile_id_joined_fields fs H)).
Defined.

(** ** The tile list *)

Lemma split_on_length (s : cstring) :
  length (split_on ","%char s) = S (count_commas s).
Proof.
  induction s as [|c s IH]; [reflexivity|]. cbn [split_on count_commas].
  destruct (Ascii.eqb c ","%char); cbn [length]; [now rewrite IH|].
  destruct (split_on ","%char s); cbn [length] in *; [discriminate IH|exact IH].
Qed.

Lemma split_on_fields_clean (d : ascii) (s : cstring) :
  Forall (fun f => ~ In d f) (split_on d s).
Proof.
  induction s as [|c s IH]; [repeat constructor; intros []|].
  cbn [split_on]. destruct (Ascii.eqb c d) eqn:Ec.
  - constructor; [intros []|exact IH].
  - apply Ascii.eqb_neq in Ec. destruct (split_on d s) as [|f fs].
    + repeat constructor. intros [H|[]]. congruence.
    + inversion IH; subst. constructor; [|assumption].
      intros [H|H]; [congruence|contradiction].
Qed.

Lemma tokens_clean (d : ascii) (s : cstring) :
  forallb (clean_field d) (tokens d s) = true.
Proof.
  unfold tokens. pose proof (split_on_fields_clean d s) as H.
  induction H as [|f fs Hf Hfs IH]; [reflexivity|].
  cbn [filter]. destruct (nonempty f) eqn:En; [|exact IH].
  cbn [forallb]. rewrite IH, andb_true_r. apply clean_field_spec.
  split; [destruct f; [discriminate En|discriminate]|exact Hf].
Qed.

(** X9: [build_remove_tiles] undoes the joining of tiles with commas:
    from the argument made of non-empty, comma-free tiles it builds exactly
    that list, in that order, and changes no other global. *)
Theorem build_remove_tiles_joined (g : config) (tiles : list cstring) :
  forallb (clean_field ","%char) tiles = true ->
  build_remove_tiles (set_remove_tiles (Some (join ","%char tiles)) g)
  = Returns (set_tiles_to_remove (Some tiles)
               (set_remove_tiles (Some (join ","%char tiles)) g)).
Proof.
  intros H.
  rewrite (@build_remove_tiles_tokens
             (set_remove_tiles (Some (join ","%char tiles)) g)
             (join ","%char tiles) eq_refl).
  now rewrite (tokens_join _ _ H).
Qed.

Lemma build_remove_tiles_joined_witness :
  forallb (clean_field ","%char) [str "1101"; str "2304"] = true
  /\ build_remove_tiles (set_remove_tiles (Some (str "1101,2304")) default_globals)
     = Returns (set_tiles_to_remove (Some [str "1101"; str "2304"])
                  (set_remove_tiles (Some (str "1101,2304")) default_globals)).
Proof.
  assert (H : forallb (clean_field ","%char) [str "1101"; str "2304"] = true)
    by reflexivity.
  split; [exact H|]. exact (@build_remove_tiles_joined default_globals _ H).
Defined.

(** X10: for every argument, [build_remove_tiles] stores tiles that are
    non-empty and comma-free, skipping empty fields, and never more of them
    than [ntiles], the count the array was allocated for (one slot more
    holds the terminator).  Without a [--remove_tiles] argument it changes
    nothing. *)
Theorem build_remove_tiles_entries (g : config) :
  (forall rm_tiles : cstring,
     remove_tiles g = Some rm_tiles ->
     exists tiles : list cstring,
       build_remove_tiles g = Returns (set_tiles_to_remove (Some tiles) g)
       /\ forallb (clean_field ","%char) tiles = true
       /\ length tiles <= ntiles rm_tiles)
  /\ (remove_tiles g = None -> build_remove_tiles g = Returns g).
Proof.
  split.
  - intros rm_tiles H. exists (tokens ","%char rm_tiles).
    split; [now apply build_remove_tiles_tokens|].
    split; [apply tokens_clean|].
    unfold ntiles. rewrite <- split_on_length. apply tokens_length.
  - intros H. unfold build_remove_tiles. now rewrite H.
Qed.

Lemma build_remove_tiles_entries_witness :
  exists tiles : list cstring,
    build_remove_tiles (set_remove_tiles (Some (str ",1101,,2304,")) default_globals)
    = Returns (set_tiles_to_remove (Some tiles)
                 (set_remove_tiles (Some (str ",1101,,2304,")) default_globals))
    /\ tiles = [str "1101"; str "2304"]
    /\ length tiles <= ntiles (str ",1101,,2304,").
Proof.
  destruct (proj1 (build_remove_tiles_entries
                     (set_remove_tiles (Some (str ",1101,,2304,")) default_globals))
              (str ",1101,,2304,") eq_refl) as [tiles [H1 [_ H3]]].
  exists tiles. split; [exact H1|]. split; [|exact H3].
  vm_compute in H1. now inversion H1.
Defined.

(** ** What a run keeps *)

Lemma walk_kept (g : config) (fuel : nat) :
  include_func_r1 g = Std_include ->
  include_func_r2 g = Std_include ->
  forall s1 s2 : list ascii,
    length s1 < fuel ->
    forallb (pair_defined g)
      (combine (records (read_func g) s1) (records (read_func g) s2)) = true ->
    exists x : summary,
      walk fuel g s1 s2 = Returns x
      /\ out1 x = render_all (map fst (filter (keeps g)
                    (combine (records (read_func g) s1) (records (read_func g) s2))))
      /\ out2 x = render_all (map snd (filter (keeps g)
                    (combine (records (read_func g) s1) (records (read_func g) s2))))
      /\ kept x = length (filter (keeps g)
                    (combine (records (read_func g) s1) (records (read_func g) s2)))
      /\ kept x + dropped x =
         length (combine (records (read_func g) s1) (records (read_func g) s2)).
Proof.
  intros Hf1 Hf2. induction fuel as [|fuel IH]; intros s1 s2 Hf Hd; [lia|].
  cbn [walk].
  rewrite (records_unfold (read_func g) s1), (records_unfold (read_func g) s2) in *.
  pose proof (@record_text_shorter (read_func g) s1) as L1.
  destruct (record_text (read_func g) s1) as [r1 s1'].
  destruct (record_text (read_func g) s2) as [r2 s2'].
  cbn [fst snd] in *.
  destruct (nonempty (header r1)) eqn:N1; destruct (nonempty (header r2)) eqn:N2;
    cbn [andb orb].
  2,3,4: (eexists; split; [reflexivity|]; cbn; auto).
  cbn [combine forallb] in Hd. apply andb_true_iff in Hd. destruct Hd as [Hp Hd].
  unfold pair_defined in Hp. cbn [fst snd] in Hp.
  destruct (IH s1' s2') as [x [Hx [H1 [H2 [H3 H4]]]]];
    [specialize (L1 eq_refl); lia|exact Hd|].
  rewrite Hf1, Hf2, !written_by_std.
  destruct (call_check g r1 r2) as [[|]| |] eqn:Ec; try discriminate Hp; cbn [bind];
    rewrite Hx; cbn [bind]; eexists; (split; [reflexivity|]);
    cbn [out1 out2 kept dropped combine filter].
  - assert (Hk : keeps g (r1, r2) = true)
      by (unfold keeps; cbn [fst snd]; now rewrite Ec).
    rewrite Hk. cbn [map render_all flat_map length fst snd].
    fold (render_all (map fst (filter (keeps g)
            (combine (records (read_func g) s1') (records (read_func g) s2'))))).
    fold (render_all (map snd (filter (keeps g)
            (combine (records (read_func g) s1') (records (read_func g) s2'))))).
    rewrite H1, H2, H3. repeat split. lia.
  - assert (Hk : keeps g (r1, r2) = false)
      by (unfold keeps; cbn [fst snd]; now rewrite Ec).
    rewrite Hk. cbn [length]. rewrite H1, H2, H3. repeat split. lia.
Qed.

(** ** Outputs that cannot be opened *)

Lemma std_include_null (r : fastq) : std_include r f_null = Undefined.
Proof. reflexivity. Qed.

Lemma call_include_null (g : config) (fn : include_fn) (r : fastq) :
  call_include g fn r f_null = Undefined.
Proof.
  assert (Htrim : forall n, _trim_include r f_null n = Undefined).
  { intros n. unfold _trim_include, set_line_end.
    destruct (n =? INT_MAX)%Z; [reflexivity|].
    destruct (Z.of_nat (strlen (seq r)) >? to_size_t (n + 1))%Z; [|reflexivity].
    destruct (n <? 0)%Z; [reflexivity|].
    destruct (Z.to_nat n <=? strlen (seq r)), (Z.to_nat n + 2 <=? unsafe_block_size),
      (Z.to_nat n <=? strlen (qual r)); reflexivity. }
  destruct fn; cbn [call_include]; [reflexivity|apply Htrim|apply Htrim].
Qed.

Lemma filter_iteration_null_output (g : config) (st : state) (r : step_result) :
  r1o st = f_null \/ r2o st = f_null ->
  filter_iteration g st = Returns r ->
  exists st' : state, r = Continue st' /\ (r1o st' = f_null \/ r2o st' = f_null).
Proof.
  intros Hnull H. unfold filter_iteration in H.
  destruct (read_record (read_func g) (r1i st)) as [[r1 f1]| |]; cbn [bind] in H;
    try discriminate H.
  destruct (read_record (read_func g) (r2i st)) as [[r2 f2]| |]; cbn [bind] in H;
    try discriminate H.
  destruct (Ascii.eqb (first_char (header r1)) NUL
            || Ascii.eqb (first_char (header r2)) NUL).
  - exfalso. destruct Hnull as [E|E].
    + rewrite E in H. discriminate H.
    + rewrite E in H. destruct (fclose (r1o st)); discriminate H.
  - destruct (call_check g r1 r2) as [[|]| |]; cbn [bind] in H; try discriminate H.
    + exfalso. destruct Hnull as [E|E].
      * rewrite E, call_include_null in H. discriminate H.
      * rewrite E, call_include_null in H.
        destruct (call_include g (include_func_r1 g) r1 (r1o st)); discriminate H.
    + inversion H; subst. eexists. split; [reflexivity|]. exact Hnull.
Qed.

Lemma filter_loop_null_output (fuel : nat) (g : config) :
  forall st : state,
    r1o st = f_null \/ r2o st = f_null ->
    forall res : Z * state, filter_loop fuel g st <> Returns res.
Proof.
  induction fuel as [|fuel IH]; intros st Hnull res; [discriminate|].
  cbn [filter_loop].
  destruct (filter_iteration g st) as [r| |] eqn:E; cbn [bind]; try discriminate.
  destruct (filter_iteration_null_output g st Hnull E) as [st' [-> Hn']].
  now apply IH.
Qed.

(** X12: when either output file cannot be opened, [filter_fastqs] never
    returns a status: whatever the inputs hold, the run ends in undefined
    behaviour, a null stream handed to [fputs] or [fclose]. *)
Theorem filter_fastqs_unwritable_output (g : config) (fs : filesystem) (c : counters)
  (out : list log_msg) (p1 p2 : cstring) :
  r1o_path g = Some p1 -> r2o_path g = Some p2 ->
  writable fs p1 = false \/ writable fs p2 = false ->
  filter_fastqs g fs c out = Undefined.
Proof.
  intros H1 H2 Hw.
  pose proof (filter_fastqs_fuel g fs c out) as Hfuel.
  destruct (filter_fastqs g fs c out) as [res| |] eqn:E;
    [exfalso|reflexivity|contradiction].
  unfold filter_fastqs, open_streams in E. rewrite H1, H2 in E.
  cbn [fopen_w bind] in E.
  revert E. apply filter_loop_null_output.
  cbn [r1o r2o]. destruct Hw as [Hw|Hw]; rewrite Hw; auto.
Qed.

Lemma filter_fastqs_unwritable_output_witness :
  let fs := {| readable := readable (example_fs (Some two_reads) (Some two_reads));
               writable := fun p => if cstring_eq_dec p (str "o2.fastq") then false
                                    else true |} in
  writable fs (str "o2.fastq") = false
  /\ filter_fastqs example_globals fs initial_counters [] = Undefined.
Proof.
  intros fs.
  assert (H : writable fs (str "o2.fastq") = false) by reflexivity.
  split; [exact H|].
  apply (@filter_fastqs_unwritable_output example_globals fs initial_counters []
           (str "o1.fastq") (str "o2.fastq") eq_refl eq_refl).
  right. exact H.
Defined.

(** ** What a return looks like *)

Lemma filter_iteration_console (g : config) (st : state) (r : step_result) :
  filter_iteration g st = Returns r ->
  match r with
  | Continue st' => console st' = console st
  | Return ret_val st' =>
      (ret_val = 0%Z \/ ret_val = 1%Z)
      /\ console st' =
           (if (ret_val =? 0)%Z then console st
            else _log (quiet g) (Log_differing_reads (read_pairs_checked st' * 4))
                   (console st))
      /\ (exists w : cstring, r1o st' = f_closed w)
      /\ (exists w : cstring, r2o st' = f_closed w)
      /\ (forall s : list ascii, r1i st' <> gz_open s)
      /\ (forall s : list ascii, r2i st' <> gz_open s)
  end.
Proof.
  unfold filter_iteration. intros H.
  destruct (read_record (read_func g) (r1i st)) as [[r1 f1]| |]; cbn [bind] in H;
    try discriminate H.
  destruct (read_record (read_func g) (r2i st)) as [[r2 f2]| |]; cbn [bind] in H;
    try discriminate H.
  destruct (Ascii.eqb (first_char (header r1)) NUL
            || Ascii.eqb (first_char (header r2)) NUL).
  - destruct (r1o st) as [|w1|w1]; cbn [fclose bind] in H; try discriminate H.
    destruct (r2o st) as [|w2|w2]; cbn [fclose bind] in H; try discriminate H.
    inversion H; subst.
    cbn [console r1o r2o r1i r2i read_pairs_checked].
    assert (Hclosed : forall f s, gzclose f <> gz_open s)
      by (intros [| |] s; discriminate).
    destruct (negb (Ascii.eqb (first_char (header r1)) (first_char (header r2))));
      cbn [Z.eqb]; repeat split; eauto.
  - destruct (call_check g r1 r2) as [[|]| |]; cbn [bind] in H; try discriminate H.
    + destruct (call_include g (include_func_r1 g) r1 (r1o st)); cbn [bind] in H;
        try discriminate H.
      destruct (call_include g (include_func_r2 g) r2 (r2o st)); cbn [bind] in H;
        try discriminate H.
      inversion H; subst. reflexivity.
    + inversion H; subst. reflexivity.
Qed.

Lemma filter_loop_return (fuel : nat) (g : config) :
  forall (st0 st : state) (ret_val : Z),
    filter_loop fuel g st0 = Returns (ret_val, st) ->
    (ret_val = 0%Z \/ ret_val = 1%Z)
    /\ console st =
         (if (ret_val =? 0)%Z then console st0
          else _log (quiet g) (Log_differing_reads (read_pairs_checked st * 4))
                 (console st0))
    /\ (exists w : cstring, r1o st = f_closed w)
    /\ (exists w : cstring, r2o st = f_closed w)
    /\ (forall s : list ascii, r1i st <> gz_open s)
    /\ (forall s : list ascii, r2i st <> gz_open s).
Proof.
  induction fuel as [|fuel IH]; intros st0 st ret_val H; [discriminate H|].
  cbn [filter_loop] in H.
  destruct (filter_iteration g st0) as [r| |] eqn:E; cbn [bind] in H;
    try discriminate H.
  apply filter_iteration_console in E. destruct r as [st'|ret st'].
  - rewrite <- E. exact (IH _ _ _ H).
  - inversion H; subst. exact E.
Qed.

(** ** The command line *)

Lemma getopt_loop_leaves_threshold (argv : list cli_option) :
  forallb leaves_threshold argv = true ->
  forall (g : config) (stats_file : option cstring),
    exists (g' : config) (stats_file' : option cstring),
      getopt_loop argv g stats_file = Returns (Parsed g' stats_file')
      /\ threshold g' = threshold g.
Proof.
  induction argv as [|arg rest IH]; intros H g stats_file.
  - eexists. eexists. split; reflexivity.
  - cbn [forallb] in H. apply andb_true_iff in H. destruct H as [Ha Hr].
    specialize (IH Hr).
    destruct arg; try discriminate Ha; cbn [getopt_loop].
    all: try (match goal with
              | |- context [getopt_loop _ ?g1 ?s1] =>
                  destruct (IH g1 s1) as [g' [s' [E T]]]
              end; exists g', s'; split; [exact E|exact T]).
    rewrite (@build_remove_tiles_tokens (set_remove_tiles (Some tiles) g) tiles eq_refl).
    cbn [bind].
    match goal with
    | |- context [getopt_loop _ ?g1 ?s1] =>
        destruct (IH g1 s1) as [g' [s' [E T]]]
    end.
    exists g', s'. split; [exact E|exact T].
Qed.

(** X14: a command line without [--threshold] (and without [--help],
    [--version] or an unknown option) ends in the check of the required
    arguments: the program prints the missing-arguments message, exits with
    status 1 and opens no file, whatever other options were given. *)
Theorem main_without_threshold (argv : list cli_option) (fs : filesystem) :
  forallb leaves_threshold argv = true ->
  main argv fs = Returns (1%Z, [Print_missing_arguments], None).
Proof.
  intros H. unfold main.
  destruct (getopt_loop_leaves_threshold argv H default_globals None)
    as [g [s [E T]]].
  rewrite E. cbn [bind]. unfold run_main. rewrite T. cbn [threshold default_globals].
  cbn [Z.eqb]. now rewrite orb_true_r.
Qed.

Lemma main_without_threshold_witness :
  let argv := [Opt_i1 (str "r1.fastq"); Opt_i2 (str "r2.fastq"); Opt_trim_r1 50;
               Opt_remove_tiles (str "1101"); Opt_unsafe] in
  forallb leaves_threshold argv = true
  /\ main argv (example_fs (Some two_reads) (Some two_reads))
     = Returns (1%Z, [Print_missing_arguments], None).
Proof.
  intros argv.
  assert (H : forallb leaves_threshold argv = true) by reflexivity.
  split; [exact H|]. exact (@main_without_threshold argv _ H).
Defined.

Lemma getopt_loop_quiet (argv : list cli_option) :
  forall (g : config) (stats_file : option cstring) (g' : config)
         (stats_file' : option cstring),
    getopt_loop argv g stats_file = Returns (Parsed g' stats_file') ->
    quiet g = true \/ In Opt_quiet argv ->
    quiet g' = true.
Proof.
  induction argv as [|arg rest IH]; intros g s g' s' H Hq.
  - cbn in H. inversion H; subst. destruct Hq as [Hq|[]]. exact Hq.
  - assert (Hq' : arg = Opt_quiet \/ quiet g = true \/ In Opt_quiet rest).
    { destruct Hq as [Hq|[Hq|Hq]]; auto. }
    clear Hq.
    destruct arg; cbn [getopt_loop] in H; try discriminate H.
    all: try (refine (IH _ _ _ _ H _);
              destruct Hq' as [Hq|[Hq|Hq]];
              [try discriminate Hq; left; reflexivity
              |left; first [exact Hq|reflexivity]
              |first [right; exact Hq|left; reflexivity]]).
    rewrite (@build_remove_tiles_tokens (set_remove_tiles (Some tiles) g) tiles eq_refl)
      in H.
    cbn [bind] in H. refine (IH _ _ _ _ H _).
    destruct Hq' as [Hq|[Hq|Hq]]; [discriminate Hq|left; exact Hq|right; exact Hq].
Qed.

Lemma getopt_loop_exit (argv : list cli_option) :
  forall (g : config) (stats_file : option cstring) (status : Z) (out : list log_msg),
    getopt_loop argv g stats_file = Returns (Exit status out) ->
    forallb (fun m => negb (logged m)) out = true.
Proof.
  induction argv as [|arg rest IH]; intros g s status out H; [discriminate H|].
  destruct arg; cbn [getopt_loop] in H;
    try (inversion H; subst; reflexivity); try (exact (IH _ _ _ _ H)).
  rewrite (@build_remove_tiles_tokens (set_remove_tiles (Some tiles) g) tiles eq_refl)
    in H.
  cbn [bind] in H. exact (IH _ _ _ _ H).
Qed.

Lemma filter_fastqs_quiet_console (g : config) (fs : filesystem) (c : counters)
  (out : list log_msg) (ret_val : Z) (st : state) :
  quiet g = true ->
  filter_fastqs g fs c out = Returns (ret_val, st) -> console st = out.
Proof.
  intros Hq H. unfold filter_fastqs in H.
  destruct (open_streams g fs c out) as [st0| |] eqn:E0; cbn [bind] in H;
    try discriminate H.
  apply filter_loop_return in H. destruct H as [_ [Hc _]].
  assert (H0 : console st0 = out).
  { unfold open_streams in E0.
    destruct (fopen_w fs (r1o_path g)); cbn [bind] in E0; try discriminate E0.
    destruct (fopen_w fs (r2o_path g)); cbn [bind] in E0; try discriminate E0.
    inversion E0; subst. reflexivity. }
  rewrite Hc, H0, Hq. unfold _log. now destruct (ret_val =? 0)%Z.
Qed.

Lemma run_main_quiet (g : config) (stats_file : option cstring) (fs : filesystem)
  (status : Z) (con : list log_msg) (st : option state) :
  quiet g = true ->
  run_main g stats_file fs = Returns (status, con, st) ->
  con = [] \/ con = [Print_missing_arguments].
Proof.
  intros Hq H. unfold run_main in H.
  destruct (is_null (r1i_path g) || is_null (r2i_path g) || (threshold g =? -1)%Z);
    [inversion H; subst; now right|].
  left.
  assert (Hlog : forall m c, _log (quiet g) m c = c).
  { intros m c. rewrite Hq. reflexivity. }
  destruct (is_null (r1o_path g)).
  - destruct (build_output_path (path_text (r1i_path g))) as [p1| |]; cbn [bind] in H;
      try discriminate H.
    cbn [r2o_path set_r1o_path r2i_path quiet] in H.
    destruct (is_null (r2o_path g)).
    + destruct (build_output_path (path_text (r2i_path g))) as [p2| |];
        cbn [bind] in H; try discriminate H.
      cbn [quiet set_r2o_path set_r1o_path trim_r1 trim_r2 remove_tiles threshold
             r1i_path r2i_path r1o_path r2o_path] in H.
      rewrite !Hlog in H.
      destruct (trim_r1 g =? 0)%Z; destruct (trim_r2 g =? 0)%Z;
        destruct (remove_tiles g);
        (match type of H with
         | context [filter_fastqs ?a ?b ?c ?d] =>
             destruct (filter_fastqs a b c d) as [[ret st1]| |] eqn:E
         end; cbn [bind] in H; try discriminate H;
         apply filter_fastqs_quiet_console in E; [|exact Hq];
         destruct stats_file as [p|];
         [destruct (output_stats fs p); cbn [bind] in H; try discriminate H|];
         inversion H; subst; rewrite ?Hlog in E; rewrite ?Hlog; exact E).
    + cbn [bind] in H.
      cbn [quiet set_r2o_path set_r1o_path trim_r1 trim_r2 remove_tiles threshold
             r1i_path r2i_path r1o_path r2o_path] in H.
      rewrite !Hlog in H.
      destruct (trim_r1 g =? 0)%Z; destruct (trim_r2 g =? 0)%Z;
        destruct (remove_tiles g);
        (match type of H with
         | context [filter_fastqs ?a ?b ?c ?d] =>
             destruct (filter_fastqs a b c d) as [[ret st1]| |] eqn:E
         end; cbn [bind] in H; try discriminate H;
         apply filter_fastqs_quiet_console in E; [|exact Hq];
         destruct stats_file as [p|];
         [destruct (output_stats fs p); cbn [bind] in H; try discriminate H|];
         inversion H; subst; rewrite ?Hlog in E; rewrite ?Hlog; exact E).
  - cbn [bind] in H. destruct (is_null (r2o_path g)).
    + destruct (build_output_path (path_text (r2i_path g))) as [p2| |];
        cbn [bind] in H; try discriminate H.
      cbn [quiet set_r2o_path set_r1o_path trim_r1 trim_r2 remove_tiles threshold
             r1i_path r2i_path r1o_path r2o_path] in H.
      rewrite !Hlog in H.
      destruct (trim_r1 g =? 0)%Z; destruct (trim_r2 g =? 0)%Z;
        destruct (remove_tiles g);
        (match type of H with
         | context [filter_fastqs ?a ?b ?c ?d] =>
             destruct (filter_fastqs a b c d) as [[ret st1]| |] eqn:E
         end; cbn [bind] in H; try discriminate H;
         apply filter_fastqs_quiet_console in E; [|exact Hq];
         destruct stats_file as [p|];
         [destruct (output_stats fs p); cbn [bind] in H; try discriminate H|];
         inversion H; subst; rewrite ?Hlog in E; rewrite ?Hlog; exact E).
    + cbn [bind] in H. rewrite !Hlog in H.
      destruct (trim_r1 g =? 0)%Z; destruct (trim_r2 g =? 0)%Z;
        destruct (remove_tiles g);
        (match type of H with
         | context [filter_fastqs ?a ?b ?c ?d] =>
             destruct (filter_fastqs a b c d) as [[ret st1]| |] eqn:E
         end; cbn [bind] in H; try discriminate H;
         apply filter_fastqs_quiet_console in E; [|exact Hq];
         destruct stats_file as [p|];
         [destruct (output_stats fs p); cbn [bind] in H; try discriminate H|];
         inversion H; subst; rewrite ?Hlog in E; rewrite ?Hlog; exact E).
Qed.

(** X15: with [--quiet] anywhere on the command line nothing that goes
    through [_log] reaches the console, whatever else the program does: if
    it exits, the console holds at most what [printf] wrote (the usage or
    version text, or the missing-arguments message). *)
Theorem main_quiet (argv : list cli_option) (fs : filesystem) (status : Z)
  (con : list log_msg) (st : option state) :
  In Opt_quiet argv ->
  main argv fs = Returns (status, con, st) ->
  forallb (fun m => negb (logged m)) con = true.
Proof.
  intros Hin H. unfold main in H.
  destruct (getopt_loop argv default_globals None) as [[s0 out|g stats]| |] eqn:E;
    cbn [bind] in H; try discriminate H.
  - inversion H; subst. exact (getopt_loop_exit _ _ _ E).
  - assert (Hq : quiet g = true).
    { apply (getopt_loop_quiet _ _ _ E). now right. }
    destruct (run_main_quiet _ _ _ Hq H) as [-> | ->]; reflexivity.
Qed.

Lemma main_quiet_witness :
  In Opt_quiet (example_argv ++ [Opt_quiet])
  /\ exists (status : Z) (con : list log_msg) (st : option state),
       main (example_argv ++ [Opt_quiet])
         (example_fs (Some three_reads) (Some two_reads))
       = Returns (status, con, st)
       /\ forallb (fun m => negb (logged m)) con = true.
Proof.
  assert (Hin : In Opt_quiet (example_argv ++ [Opt_quiet])).
  { apply in_or_app. right. now left. }
  split; [exact Hin|].
  destruct (main (example_argv ++ [Opt_quiet])
              (example_fs (Some three_reads) (Some two_reads)))
    as [[[status con] st]| |] eqn:E; try (vm_compute in E; discriminate E).
  exists status, con, st. split; [reflexivity|].
  exact (@main_quiet _ _ _ _ _ Hin E).
Defined.

(** ** Edges of the readers and of trimming *)

(** X16: a NUL byte at the start of a line.  [readln] gets an empty C
    string from its first chunk and then looks at [line[strlen(line) - 1]]
    of the still empty line, which is undefined; [readln_unsafe] returns the
    empty string, the value that otherwise means end of input, although it
    has consumed the line. *)
Theorem readers_on_leading_nul (rest : list ascii) :
  readln (gz_open (NUL :: rest)) = Undefined
  /\ exists more : list ascii,
       readln_unsafe (gz_open (NUL :: rest)) = Returns ([], gz_open more)
       /\ length more < length (NUL :: rest).
Proof.
  split.
  - unfold readln. cbn [gz_pending length readln_loop]. rewrite gzgets_open.
    change (block_size - 1) with (S (block_size - 2)). cbn [gz_take].
    change (Ascii.eqb NUL newline) with false. cbn iota.
    destruct (gz_take (block_size - 2) rest) as [got more]. reflexivity.
  - unfold readln_unsafe. rewrite gzgets_open.
    change (unsafe_block_size - 1) with (S (unsafe_block_size - 2)). cbn [gz_take].
    change (Ascii.eqb NUL newline) with false. cbn iota.
    pose proof (length_gz_take (unsafe_block_size - 2) rest) as Hl.
    destruct (gz_take (unsafe_block_size - 2) rest) as [got more].
    cbn [fst snd] in *. exists more. split; [reflexivity|]. cbn [length]. lia.
Qed.

(** X17: trim lengths below zero.  With [trim_len = -1] the comparison is
    against 0 and a non-empty sequence line is indexed at -1, which is
    undefined.  Any smaller length turns into a [size_t] above 2^63, the
    comparison fails and the record is written untrimmed. *)
Theorem trim_include_negative (r : fastq) (outfile : FILE) :
  (seq r <> [] -> _trim_include r outfile (-1) = Undefined)
  /\ (forall trim_len : Z,
        (- INT_MAX - 1 <= trim_len < -1)%Z ->
        (Z.of_nat (strlen (seq r)) < 2 ^ 63)%Z ->
        _trim_include r outfile trim_len = std_include r outfile).
Proof.
  split.
  - intros Hne. unfold _trim_include.
    change (-1 =? INT_MAX)%Z with false. change (to_size_t (-1 + 1)) with 0%Z.
    change (-1 <? 0)%Z with true. cbn iota.
    destruct (Z.gtb_spec (Z.of_nat (strlen (seq r))) 0) as [_|Hc]; [reflexivity|].
    destruct (seq r); [contradiction|cbn [strlen length] in Hc; lia].
  - intros n Hn Hl. unfold _trim_include.
    destruct (Z.eqb_spec n INT_MAX) as [E|_]; [unfold INT_MAX in *; lia|].
    rewrite to_size_t_negative by lia. unfold SIZE_MOD, INT_MAX in *.
    destruct (Z.gtb_spec (Z.of_nat (strlen (seq r))) (2 ^ 64 + (n + 1))) as [Hc|_];
      [lia|reflexivity].
Qed.

Lemma trim_include_negative_witness :
  let r := example_read (str "1101") 10 in
  seq r <> []
  /\ (- INT_MAX - 1 <= -7 < -1)%Z
  /\ (Z.of_nat (strlen (seq r)) < 2 ^ 63)%Z
  /\ _trim_include r (f_open []) (-1) = Undefined
  /\ _trim_include r (f_open []) (-7) = std_include r (f_open []).
Proof.
  intros r.
  assert (H1 : seq r <> []) by discriminate.
  assert (H2 : (- INT_MAX - 1 <= -7 < -1)%Z) by (unfold INT_MAX; lia).
  assert (H3 : (Z.of_nat (strlen (seq r)) < 2 ^ 63)%Z) by (vm_compute; reflexivity).
  destruct (trim_include_negative r (f_open [])) as [A B].
  split; [exact H1|]. split; [exact H2|]. split; [exact H3|].
  split; [exact (A H1)|exact (B _ H2 H3)].
Defined.

(** * The program within the limits of its types *)

(** ** Values of type [int] *)

Lemma to_int_inv (z v : Z) : to_int z = Returns v -> v = z /\ in_int z.
Proof.
  unfold to_int, in_int.
  destruct (Z.leb_spec INT_MIN z) as [H1|H1], (Z.leb_spec z INT_MAX) as [H2|H2];
    cbn [andb]; intros E; inversion E. split; [reflexivity|lia].
Qed.

Lemma to_int_in_int (z : Z) : in_int z -> to_int z = Returns z.
Proof.
  unfold to_int, in_int. intros [H1 H2].
  apply Z.leb_le in H1, H2. now rewrite H1, H2.
Qed.

Lemma to_int_cases (z : Z) : to_int z = Returns z \/ to_int z = Undefined.
Proof. unfold to_int. destruct ((INT_MIN <=? z) && (z <=? INT_MAX))%Z; auto. Qed.

(** ** The sized loop does what the plain loop does, or is undefined *)

Lemma refines_refl {A : Type} (m : outcome A) : refines m m.
Proof. now left. Qed.

Lemma refines_bind {A B : Type} (m m' : outcome A) (k k' : A -> outcome B) :
  refines m m' -> (forall a : A, refines (k a) (k' a)) ->
  refines (bind m k) (bind m' k').
Proof.
  intros [->| ->] Hk; [|now right].
  destruct m' as [a| |]; cbn [bind]; [apply Hk|now left|now left].
Qed.

Lemma refines_returns {A : Type} (m m' : outcome A) (a : A) :
  refines m m' -> m = Returns a -> m' = Returns a.
Proof. intros [->| ->] H; [exact H|discriminate H]. Qed.

Lemma refines_fuel {A : Type} (m m' : outcome A) :
  refines m m' -> m' <> OutOfFuel -> m <> OutOfFuel.
Proof. intros [->| ->] H; [exact H|discriminate]. Qed.

Lemma readln_loop_sized_refines (fuel : nat) :
  forall (b : Z) (line : cstring) (f : gzFile),
    refines (readln_loop_sized fuel b line f) (readln_loop fuel line f).
Proof.
  induction fuel as [|fuel IH]; intros b line f; [now left|].
  cbn [readln_loop_sized readln_loop].
  destruct (b + Z.of_nat block_size >? INT_MAX)%Z; [now right|].
  destruct (gzgets f block_size) as [[part|] f']; [|now left].
  destruct (block_size <? length part + 1); [now right|].
  destruct (Z.of_nat (strlen line + strlen (c_str part) + 1)
            >? b + Z.of_nat block_size + 1)%Z; [now right|].
  apply refines_bind; [apply refines_refl|]. intros c.
  destruct (Ascii.eqb c newline); [apply refines_refl|apply IH].
Qed.

Lemma call_read_sized_refines (rf : read_fn) (f : gzFile) :
  refines (call_read_sized rf f) (call_read rf f).
Proof.
  destruct rf; cbn [call_read_sized call_read]; [|apply refines_refl].
  apply readln_loop_sized_refines.
Qed.

Lemma read_record_sized_refines (rf : read_fn) (f : gzFile) :
  refines (read_record_sized rf f) (read_record rf f).
Proof.
  unfold read_record_sized, read_record.
  apply refines_bind; [apply call_read_sized_refines|]. intros [h f1].
  apply refines_bind; [apply call_read_sized_refines|]. intros [s f2].
  apply refines_bind; [apply call_read_sized_refines|]. intros [p f3].
  apply refines_bind; [apply call_read_sized_refines|]. intros [q f4].
  apply refines_refl.
Qed.

Lemma filter_iteration_sized_refines (g : config) (st : state) :
  refines (filter_iteration_sized g st) (filter_iteration g st).
Proof.
  unfold filter_iteration_sized, filter_iteration.
  apply refines_bind; [apply read_record_sized_refines|]. intros [r1 f1].
  apply refines_bind; [apply read_record_sized_refines|]. intros [r2 f2].
  destruct (Ascii.eqb (first_char (header r1)) NUL
            || Ascii.eqb (first_char (header r2)) NUL).
  - destruct (negb (Ascii.eqb (first_char (header r1)) (first_char (header r2))));
      cbn [bind]; [|now left].
    destruct (to_int_cases (read_pairs_checked st * 4)) as [E|E]; rewrite E;
      cbn [bind]; [now left|now right].
  - destruct (call_check g r1 r2) as [[|]| |]; cbn [bind]; try (now left).
    + destruct (to_int_cases (read_pairs_checked st + 1)) as [E|E]; rewrite E;
        cbn [bind]; [|now right].
      destruct (to_int_cases (read_pairs_remaining st + 1)) as [E'|E']; rewrite E';
        cbn [bind]; [now left|now right].
    + destruct (to_int_cases (read_pairs_checked st + 1)) as [E|E]; rewrite E;
        cbn [bind]; [|now right].
      destruct (to_int_cases (read_pairs_removed st + 1)) as [E'|E']; rewrite E';
        cbn [bind]; [now left|now right].
Qed.

Lemma filter_loop_sized_refines (fuel : nat) (g : config) :
  forall st : state, refines (filter_loop_sized fuel g st) (filter_loop fuel g st).
Proof.
  induction fuel as [|fuel IH]; intros st; [now left|].
  cbn [filter_loop_sized filter_loop].
  apply refines_bind; [apply filter_iteration_sized_refines|].
  intros [st'|ret st']; [apply IH|apply refines_refl].
Qed.

Lemma filter_fastqs_sized_refines (g : config) (fs : filesystem) (c : counters)
  (out : list log_msg) :
  refines (filter_fastqs_sized g fs c out) (filter_fastqs g fs c out).
Proof.
  unfold filter_fastqs_sized, filter_fastqs.
  apply refines_bind; [apply refines_refl|]. intros st.
  apply filter_loop_sized_refines.
Qed.

(** The fuel suffices for the sized loop too. *)
Lemma filter_fastqs_sized_fuel (g : config) (fs : filesystem) (c : counters)
  (out : list log_msg) :
  filter_fastqs_sized g fs c out <> OutOfFuel.
Proof.
  apply (refines_fuel (filter_fastqs_sized_refines g fs c out)).
  apply filter_fastqs_fuel.
Qed.

(** ** Where the sized loop is the plain loop *)

Lemma lines_within_next_line (n : Z) (s : list ascii) :
  forall k : Z,
    (0 <= k)%Z -> lines_within_from n k s = true ->
    (Z.of_nat (length (fst (next_line s))) <= k)%Z
    /\ lines_within n (snd (next_line s)) = true.
Proof.
  induction s as [|c s IH]; intros k Hk H.
  - cbn. split; [lia|reflexivity].
  - cbn [lines_within_from] in H.
    destruct (Z.leb_spec k 0) as [_|Hpos]; [discriminate H|].
    cbn [next_line]. destruct (Ascii.eqb c newline).
    + cbn [fst snd length]. split; [lia|exact H].
    + destruct (IH (k - 1)%Z) as [H1 H2]; [lia|exact H|].
      destruct (next_line s) as [l more]. cbn [fst snd length] in *.
      split; [lia|exact H2].
Qed.

Lemma readln_sized_fits (s : list ascii) :
  is_text s -> lines_within readln_limit s = true ->
  readln_sized (gz_open s) = readln (gz_open s).
Proof.
  intros Ht Hl.
  destruct (@lines_within_next_line readln_limit s readln_limit) as [Hn _];
    [unfold readln_limit; lia|exact Hl|].
  unfold readln_sized, readln. cbn [gz_pending].
  apply (@readln_loop_sized_spec (S (length s)) 2048%Z 1048572%Z [] s Ht);
    try (unfold INT_MAX, readln_limit in *; cbn [length]; lia).
Qed.

(** On a stream that fits, a sized read is a plain read, and what it leaves
    fits again. *)
Lemma call_read_sized_fits (rf : read_fn) (f : gzFile) :
  stream_fits rf f ->
  call_read_sized rf f = call_read rf f
  /\ forall (l : cstring) (f' : gzFile),
       call_read rf f = Returns (l, f') -> stream_fits rf f'.
Proof.
  destruct f as [|s|]; cbn [stream_fits].
  - intros _. split; [destruct rf; reflexivity|].
    intros l f' H. rewrite call_read_null in H. now inversion H.
  - intros [Ht Hf]. split.
    + destruct rf; cbn [call_read_sized call_read reader_fits] in *;
        [now apply readln_sized_fits|reflexivity].
    + intros l f' H. rewrite (call_read_text rf Ht) in H. inversion H; subst.
      cbn [stream_fits]. split; [apply (is_text_read_text rf Ht)|].
      destruct rf; cbn [reader_fits read_text] in *; [|reflexivity].
      apply (@lines_within_next_line readln_limit s readln_limit);
        [unfold readln_limit; lia|exact Hf].
  - intros _. split; [destruct rf; reflexivity|].
    intros l f' H. destruct rf; cbn in H; now inversion H.
Qed.

Lemma read_record_sized_fits (rf : read_fn) (f : gzFile) :
  stream_fits rf f ->
  read_record_sized rf f = read_record rf f
  /\ forall (r : fastq) (f' : gzFile),
       read_record rf f = Returns (r, f') -> stream_fits rf f'.
Proof.
  intros F0. unfold read_record_sized, read_record.
  destruct (call_read_sized_fits rf f F0) as [E1 G1]. rewrite E1.
  destruct (call_read rf f) as [[h f1]| |]; cbn [bind];
    [|split; [reflexivity|intros ? ? H; discriminate H]..].
  specialize (G1 h f1 eq_refl).
  destruct (call_read_sized_fits rf f1 G1) as [E2 G2]. rewrite E2.
  destruct (call_read rf f1) as [[s f2]| |]; cbn [bind];
    [|split; [reflexivity|intros ? ? H; discriminate H]..].
  specialize (G2 s f2 eq_refl).
  destruct (call_read_sized_fits rf f2 G2) as [E3 G3]. rewrite E3.
  destruct (call_read rf f2) as [[p f3]| |]; cbn [bind];
    [|split; [reflexivity|intros ? ? H; discriminate H]..].
  specialize (G3 p f3 eq_refl).
  destruct (call_read_sized_fits rf f3 G3) as [E4 G4]. rewrite E4.
  destruct (call_read rf f3) as [[q f4]| |]; cbn [bind];
    [|split; [reflexivity|intros ? ? H; discriminate H]..].
  specialize (G4 q f4 eq_refl).
  split; [reflexivity|]. intros r f' H. inversion H; subst. exact G4.
Qed.

Lemma filter_loop_counters_le (fuel : nat) (g : config) :
  forall (st st' : state) (ret_val : Z),
    filter_loop fuel g st = Returns (ret_val, st') -> counters_le st st'.
Proof.
  induction fuel as [|fuel IH]; intros st st' ret_val H; [discriminate H|].
  cbn [filter_loop] in H.
  destruct (filter_iteration g st) as [r| |] eqn:E; cbn [bind] in H;
    try discriminate H.
  destruct (filter_iteration_monotone _ _ E) as [Hle _].
  destruct r as [st1|ret st1]; cbn [state_of] in Hle.
  - specialize (IH _ _ _ H). unfold counters_le in *. lia.
  - inversion H; subst. exact Hle.
Qed.

(** One pass: where the plain pass returns, the streams fit and the new
    counters and the offset are values of type [int], the sized pass
    returns the same. *)
Lemma filter_iteration_sized_agree (g : config) (st : state) (r : step_result) :
  filter_iteration g st = Returns r ->
  stream_fits (read_func g) (r1i st) -> stream_fits (read_func g) (r2i st) ->
  match r with
  | Continue st1 => counters_in_int st1
  | Return ret_val st1 => ret_val <> 0%Z -> in_int (read_pairs_checked st1 * 4)
  end ->
  filter_iteration_sized g st = Returns r
  /\ match r with
     | Continue st1 =>
         stream_fits (read_func g) (r1i st1) /\ stream_fits (read_func g) (r2i st1)
     | Return _ _ => True
     end.
Proof.
  intros H F1 F2 Hr. unfold filter_iteration in H. unfold filter_iteration_sized.
  destruct (read_record_sized_fits _ _ F1) as [E1 G1]. rewrite E1.
  destruct (read_record (read_func g) (r1i st)) as [[r1 f1]| |]; cbn [bind] in *;
    try discriminate H.
  specialize (G1 r1 f1 eq_refl).
  destruct (read_record_sized_fits _ _ F2) as [E2 G2]. rewrite E2.
  destruct (read_record (read_func g) (r2i st)) as [[r2 f2]| |]; cbn [bind] in *;
    try discriminate H.
  specialize (G2 r2 f2 eq_refl).
  destruct (Ascii.eqb (first_char (header r1)) NUL
            || Ascii.eqb (first_char (header r2)) NUL).
  - destruct (fclose (r1o st)) as [o1| |]; cbn [bind] in H; try discriminate H.
    destruct (fclose (r2o st)) as [o2| |]; cbn [bind] in H; try discriminate H.
    inversion H; subst r. cbn [read_pairs_checked] in Hr.
    destruct (negb (Ascii.eqb (first_char (header r1)) (first_char (header r2)))).
    + rewrite to_int_in_int by (apply Hr; discriminate). cbn [bind]. auto.
    + cbn [bind]. auto.
  - destruct (call_check g r1 r2) as [[|]| |]; cbn [bind] in *; try discriminate H.
    + destruct (call_include g (include_func_r1 g) r1 (r1o st)) as [o1| |];
        cbn [bind] in H; try discriminate H.
      destruct (call_include g (include_func_r2 g) r2 (r2o st)) as [o2| |];
        cbn [bind] in H; try discriminate H.
      inversion H; subst r. destruct Hr as [Hc [_ Hk]].
      cbn [read_pairs_checked read_pairs_remaining] in Hc, Hk.
      rewrite (to_int_in_int Hc), (to_int_in_int Hk). cbn [bind r1i r2i]. auto.
    + inversion H; subst r. destruct Hr as [Hc [Hd _]].
      cbn [read_pairs_checked read_pairs_removed] in Hc, Hd.
      rewrite (to_int_in_int Hc), (to_int_in_int Hd). cbn [bind r1i r2i]. auto.
Qed.

Lemma filter_loop_sized_agree (fuel : nat) (g : config) :
  forall (st st' : state) (ret_val : Z),
    filter_loop fuel g st = Returns (ret_val, st') ->
    stream_fits (read_func g) (r1i st) -> stream_fits (read_func g) (r2i st) ->
    counters_in_int st -> counters_in_int st' ->
    (ret_val <> 0%Z -> in_int (read_pairs_checked st' * 4)) ->
    filter_loop_sized fuel g st = Returns (ret_val, st').
Proof.
  induction fuel as [|fuel IH]; intros st st' ret_val H F1 F2 C0 C1 Hoff;
    [discriminate H|].
  cbn [filter_loop filter_loop_sized] in *.
  destruct (filter_iteration g st) as [r| |] eqn:E; cbn [bind] in H;
    try discriminate H.
  destruct (filter_iteration_monotone _ _ E) as [Hle _].
  destruct r as [st1|ret st1]; cbn [state_of] in Hle.
  - pose proof (filter_loop_counters_le _ _ _ H) as Hle'.
    assert (C : counters_in_int st1).
    { unfold counters_in_int, in_int, counters_le in *. lia. }
    destruct (@filter_iteration_sized_agree g st _ E F1 F2 C) as [Es [G1 G2]].
    rewrite Es. cbn [bind]. apply IH; assumption.
  - inversion H; subst.
    destruct (@filter_iteration_sized_agree g st _ E F1 F2 Hoff) as [Es _].
    rewrite Es. reflexivity.
Qed.

Lemma filter_fastqs_sized_agree (g : config) (fs : filesystem) (c : counters)
  (out : list log_msg) (ret_val : Z) (st' : state) :
  filter_fastqs g fs c out = Returns (ret_val, st') ->
  stream_fits (read_func g) (gzopen fs (r1i_path g)) ->
  stream_fits (read_func g) (gzopen fs (r2i_path g)) ->
  in_int (checked0 c) -> in_int (removed0 c) -> in_int (remaining0 c) ->
  counters_in_int st' ->
  (ret_val <> 0%Z -> in_int (read_pairs_checked st' * 4)) ->
  filter_fastqs_sized g fs c out = Returns (ret_val, st').
Proof.
  intros H F1 F2 Hc Hd Hk C1 Hoff. unfold filter_fastqs in H. unfold filter_fastqs_sized.
  destruct (open_streams g fs c out) as [st0| |] eqn:E0; cbn [bind] in *;
    try discriminate H.
  assert (Hst : r1i st0 = gzopen fs (r1i_path g) /\ r2i st0 = gzopen fs (r2i_path g)).
  { unfold open_streams in E0.
    destruct (fopen_w fs (r1o_path g)); cbn [bind] in E0; try discriminate E0.
    destruct (fopen_w fs (r2o_path g)); cbn [bind] in E0; try discriminate E0.
    inversion E0; subst. auto. }
  destruct Hst as [R1 R2].
  apply open_streams_counters in E0. destruct E0 as [Q1 [Q2 Q3]].
  apply filter_loop_sized_agree; try assumption.
  - now rewrite R1.
  - now rewrite R2.
  - unfold counters_in_int. now rewrite Q1, Q2, Q3.
Qed.

(** ** The counters as [int]s *)

Lemma filter_iteration_sized_range (g : config) (st : state) (r : step_result) :
  filter_iteration_sized g st = Returns r ->
  counters_in_int st -> counters_in_int (state_of r).
Proof.
  unfold filter_iteration_sized, counters_in_int. intros H [C1 [C2 C3]].
  bind_inv H; inversion H; subst;
    cbn [state_of read_pairs_checked read_pairs_removed read_pairs_remaining];
    repeat match goal with
    | E : to_int _ = Returns _ |- _ =>
        apply to_int_inv in E; destruct E as [-> ?]
    end; auto.
Qed.

Lemma filter_iteration_sized_counters (g : config) (st : state) (r : step_result) :
  filter_iteration_sized g st = Returns r ->
  counters_le st (state_of r)
  /\ (counter_equation st -> counter_equation (state_of r)).
Proof.
  intros H. apply (@filter_iteration_monotone g st r).
  exact (refines_returns (filter_iteration_sized_refines g st) H).
Qed.

(** An increment at [INT_MAX] has no result: the pass does not go round. *)
Lemma filter_iteration_sized_at_max (g : config) (st st' : state) :
  read_pairs_checked st = INT_MAX ->
  filter_iteration_sized g st <> Returns (Continue st').
Proof.
  unfold filter_iteration_sized. intros Hmax H.
  bind_inv H; try discriminate H;
    match goal with
    | E : to_int (read_pairs_checked st + 1) = Returns _ |- _ =>
        apply to_int_inv in E; destruct E as [_ [_ E]]; lia
    end.
Qed.

Lemma reachable_invariant (g : config) (st0 st : state) :
  counter_equation st0 -> counters_in_int st0 -> reachable g st0 st ->
  counter_equation st /\ counters_le st0 st /\ counters_in_int st.
Proof.
  intros H0 C0 Hr. induction Hr as [|st r Hr [IH1 [IH2 IH3]] Hi].
  - split; [exact H0|]. split; [unfold counters_le; lia|exact C0].
  - destruct (@filter_iteration_sized_counters g st r Hi) as [Hle Heq].
    split; [auto|]. split; [unfold counters_le in *; lia|].
    exact (@filter_iteration_sized_range g st r Hi IH3).
Qed.

Lemma filter_loop_sized_reachable (fuel : nat) (g : config) :
  forall (st0 st : state) (ret_val : Z),
    filter_loop_sized fuel g st0 = Returns (ret_val, st) -> reachable g st0 st.
Proof.
  induction fuel as [|fuel IH]; intros st0 st ret_val H; [discriminate H|].
  cbn [filter_loop_sized] in H.
  destruct (filter_iteration_sized g st0) as [r| |] eqn:E; cbn [bind] in H;
    try discriminate H.
  destruct r as [st'|ret st'].
  - specialize (IH _ _ _ H).
    assert (Hstep : reachable g st0 st').
    { apply (reach_iteration (reach_start g st0) E). }
    clear E H. induction IH as [|s r Hr IHr Hi]; [exact Hstep|].
    apply (reach_iteration IHr Hi).
  - inversion H; subst. apply (reach_iteration (reach_start g st0) E).
Qed.

(** C3: with the counters as the [int]s they are, the three of them start
    at 0; a pass through the loop that goes round adds 1 to checked and to
    exactly one of removed and remaining, a pass that returns changes none,
    so no pass lowers any of them; and [checked = removed + remaining] holds
    in every state the loop goes through, for any input, the state
    [filter_fastqs] returns with included.  In all those states the counters
    lie within [int]: a pass that would add 1 to a counter at [INT_MAX]
    overflows, which is undefined, and yields no state. *)
Theorem counters_invariant (g : config) (fs : filesystem) (out : list log_msg) :
  (checked0 initial_counters = 0 /\ removed0 initial_counters = 0
   /\ remaining0 initial_counters = 0)%Z
  /\ (forall st0 : state,
        open_streams g fs initial_counters out = Returns st0 ->
        (read_pairs_checked st0 = 0 /\ read_pairs_removed st0 = 0
         /\ read_pairs_remaining st0 = 0)%Z
        /\ (forall st : state,
              reachable g st0 st ->
              counter_equation st
              /\ counters_le st0 st
              /\ counters_in_int st
              /\ (forall r : step_result,
                    filter_iteration_sized g st = Returns r ->
                    counters_le st (state_of r) /\ counter_equation (state_of r)
                    /\ counters_in_int (state_of r)
                    /\ match r with
                       | Continue st' =>
                           read_pairs_checked st' = (read_pairs_checked st + 1)%Z
                           /\ ((read_pairs_removed st' = (read_pairs_removed st + 1)%Z
                                /\ read_pairs_remaining st' = read_pairs_remaining st)
                               \/ (read_pairs_removed st' = read_pairs_removed st
                                   /\ read_pairs_remaining st'
                                      = (read_pairs_remaining st + 1)%Z))
                       | Return _ st' =>
                           read_pairs_checked st' = read_pairs_checked st
                           /\ read_pairs_removed st' = read_pairs_removed st
                           /\ read_pairs_remaining st' = read_pairs_remaining st
                       end)
              /\ (read_pairs_checked st = INT_MAX ->
                  forall st' : state,
                    filter_iteration_sized g st <> Returns (Continue st'))))
  /\ filter_fastqs_sized g fs initial_counters out <> OutOfFuel
  /\ (forall (ret_val : Z) (st : state),
        filter_fastqs_sized g fs initial_counters out = Returns (ret_val, st) ->
        counter_equation st /\ counters_in_int st).
Proof.
  assert (Hzero : forall st0 : state,
            (read_pairs_checked st0 = 0 /\ read_pairs_removed st0 = 0
             /\ read_pairs_remaining st0 = 0)%Z ->
            counter_equation st0 /\ counters_in_int st0).
  { intros st0 [Z1 [Z2 Z3]].
    unfold counter_equation, counters_in_int, in_int, INT_MIN, INT_MAX.
    rewrite Z1, Z2, Z3. lia. }
  split; [repeat split|]. split; [|split; [apply filter_fastqs_sized_fuel|]].
  - intros st0 H0. apply open_streams_counters in H0. cbn in H0.
    split; [exact H0|]. intros st Hr.
    destruct (Hzero st0 H0) as [Heq0 Hin0].
    destruct (reachable_invariant Heq0 Hin0 Hr) as [Heq [Hle Hin]].
    split; [exact Heq|]. split; [exact Hle|]. split; [exact Hin|]. split.
    + intros r Hi. destruct (@filter_iteration_sized_counters g st r Hi) as [Hm He].
      split; [exact Hm|]. split; [auto|].
      split; [exact (@filter_iteration_sized_range g st r Hi Hin)|].
      apply (@filter_iteration_counters g st r).
      exact (refines_returns (filter_iteration_sized_refines g st) Hi).
    + intros Hmax st'. now apply filter_iteration_sized_at_max.
  - intros ret_val st H. unfold filter_fastqs_sized in H.
    destruct (open_streams g fs initial_counters out) as [st0| |] eqn:E0;
      cbn [bind] in H; try discriminate H.
    apply filter_loop_sized_reachable in H.
    apply open_streams_counters in E0. cbn in E0.
    destruct (Hzero st0 E0) as [Heq0 Hin0].
    destruct (reachable_invariant Heq0 Hin0 H) as [Heq [_ Hin]]. auto.
Qed.

Lemma counters_invariant_witness :
  exists (ret_val : Z) (st : state),
    filter_fastqs_sized example_globals (example_fs (Some three_reads) (Some two_reads))
      initial_counters [] = Returns (ret_val, st)
    /\ counter_equation st
    /\ read_pairs_checked st = 2%Z.
Proof.
  eexists. eexists. split; [vm_compute; reflexivity|].
  split; [|reflexivity].
  refine (proj1 (proj2 (proj2 (proj2 (counters_invariant example_globals
            (example_fs (Some three_reads) (Some two_reads)) []))) 1%Z _ _)).
  vm_compute. reflexivity.
Defined.

(** ** Desynchronised inputs *)

(** C2, as amended: take two text inputs whose lines the reader can take,
    both outputs open, and a configuration whose predicate and transforms
    fault on no pair.  Count the records of an input as the reader delivers
    them, and let the number of complete pairs, and on a mismatch four times
    that number, be values of type [int].  Then [filter_fastqs] returns 1
    when the two counts differ, that is when exactly one input runs out
    first, and 0 when they agree; in both cases the checked counter is the
    number of complete pairs, the smaller of the two counts, and all four
    streams are closed.  On a mismatch the line offset, checked * 4, goes to
    [_log], which prints it unless the run is quiet. *)
Theorem desync_detection (g : config) (fs : filesystem) (out : list log_msg)
  (s1 s2 : list ascii) :
  gzopen fs (r1i_path g) = gz_open s1 ->
  gzopen fs (r2i_path g) = gz_open s2 ->
  fopen_w fs (r1o_path g) = Returns (f_open []) ->
  fopen_w fs (r2o_path g) = Returns (f_open []) ->
  is_text s1 -> is_text s2 ->
  reader_fits (read_func g) s1 = true -> reader_fits (read_func g) s2 = true ->
  forallb (pair_defined g)
    (combine (records (read_func g) s1) (records (read_func g) s2)) = true ->
  let n1 := length (records (read_func g) s1) in
  let n2 := length (records (read_func g) s2) in
  (Z.of_nat (Nat.min n1 n2) <= INT_MAX)%Z ->
  (n1 <> n2 -> (Z.of_nat (Nat.min n1 n2) * 4 <= INT_MAX)%Z) ->
  exists st : state,
    filter_fastqs_sized g fs initial_counters out =
      Returns (if n1 =? n2 then 0%Z else 1%Z, st)
    /\ read_pairs_checked st = Z.of_nat (Nat.min n1 n2)
    /\ console st =
         (if n1 =? n2 then out
          else _log (quiet g) (Log_differing_reads (Z.of_nat (Nat.min n1 n2) * 4)) out)
    /\ r1i st = gz_closed /\ r2i st = gz_closed
    /\ (exists w1 w2 : cstring, r1o st = f_closed w1 /\ r2o st = f_closed w2).
Proof.
  intros Hi1 Hi2 Ho1 Ho2 T1 T2 L1 L2 Hd n1 n2 Hmax Hoff.
  destruct (@filter_fastqs_text g fs initial_counters out (Some s1) (Some s2)
              Hi1 Hi2 Ho1 Ho2 T1 T2 Hd) as [x [Hx [Hs Hk]]].
  cbn [pending] in *. fold n1 n2 in Hs, Hk. unfold status_for in Hs.
  exists (finish g x (opened (Some s1) (Some s2) initial_counters out)).
  assert (Hc : (0 + Z.of_nat (kept x) + Z.of_nat (dropped x))%Z
               = Z.of_nat (Nat.min n1 n2)) by lia.
  split.
  - rewrite <- Hs. apply filter_fastqs_sized_agree.
    + exact Hx.
    + rewrite Hi1. cbn [stream_fits]. auto.
    + rewrite Hi2. cbn [stream_fits]. auto.
    + unfold in_int, INT_MIN, INT_MAX. cbn. lia.
    + unfold in_int, INT_MIN, INT_MAX. cbn. lia.
    + unfold in_int, INT_MIN, INT_MAX. cbn. lia.
    + unfold counters_in_int, in_int, finish, opened, INT_MIN, INT_MAX in *.
      cbn [read_pairs_checked read_pairs_removed read_pairs_remaining
           initial_counters checked0 removed0 remaining0]. lia.
    + intros Hne. assert (Hn : n1 <> n2).
      { intros E. apply Nat.eqb_eq in E. rewrite E in Hs. contradiction. }
      specialize (Hoff Hn).
      unfold in_int, finish, opened, INT_MIN, INT_MAX in *.
      cbn [read_pairs_checked initial_counters checked0]. lia.
  - unfold finish, opened.
    cbn [r1i r2i r1o r2o read_pairs_checked read_pairs_removed read_pairs_remaining
         console handle_of gzclose written initial_counters checked0 app].
    rewrite Hs, Hc. split; [reflexivity|]. split.
    + destruct (n1 =? n2); reflexivity.
    + repeat split. eauto.
Qed.

Lemma desync_detection_witness :
  length (records Readln (render_all three_reads)) = 3
  /\ length (records Readln (render_all two_reads)) = 2
  /\ reader_fits Readln (render_all three_reads) = true
  /\ (Z.of_nat (Nat.min 3 2) * 4 <= INT_MAX)%Z
  /\ exists st : state,
       filter_fastqs_sized example_globals
         (example_fs (Some three_reads) (Some two_reads)) initial_counters []
       = Returns (1%Z, st)
       /\ read_pairs_checked st = 2%Z
       /\ console st = [Log_differing_reads 8].
Proof.
  assert (Hmax : (Z.of_nat (Nat.min 3 2) <= INT_MAX)%Z) by (unfold INT_MAX; lia).
  assert (Hoff : (Z.of_nat (Nat.min 3 2) * 4 <= INT_MAX)%Z) by (unfold INT_MAX; lia).
  split; [reflexivity|]. split; [reflexivity|]. split; [reflexivity|].
  split; [exact Hoff|].
  destruct (@desync_detection example_globals
              (example_fs (Some three_reads) (Some two_reads)) []
              (render_all three_reads) (render_all two_reads)
              eq_refl eq_refl eq_refl eq_refl eq_refl eq_refl eq_refl eq_refl eq_refl
              Hmax (fun _ => Hoff))
    as [st [H1 [H2 [H3 _]]]].
  exists st. auto.
Defined.

(** C2 as stated fails: in a quiet run the mismatch is detected, the status
    is 1 and two pairs were checked, but no line offset is reported. *)
Lemma desync_report_refuted :
  exists st : state,
    filter_fastqs_sized (set_quiet true example_globals)
      (example_fs (Some three_reads) (Some two_reads)) initial_counters []
    = Returns (1%Z, st)
    /\ read_pairs_checked st = 2%Z
    /\ ~ In (Log_differing_reads (read_pairs_checked st * 4)) (console st).
Proof.
  eexists. split; [vm_compute; reflexivity|]. split; [reflexivity|].
  cbn. tauto.
Qed.

(** ** The pairs a sized run keeps *)

(** X11: with no trimming, over two text inputs whose lines the reader can
    take, with a predicate that faults on no pair and as long as the number
    of complete pairs (and on a mismatch four times that number) is a value
    of type [int], the run writes to either output exactly the records of the
    pairs the predicate accepts, unchanged and in input order; the remaining
    counter is the number of those pairs, the checked counter the number of
    all complete pairs, and the removed counter their difference. *)
Theorem filter_fastqs_keeps (g : config) (fs : filesystem) (out : list log_msg)
  (s1 s2 : list ascii) :
  include_func_r1 g = Std_include ->
  include_func_r2 g = Std_include ->
  gzopen fs (r1i_path g) = gz_open s1 ->
  gzopen fs (r2i_path g) = gz_open s2 ->
  fopen_w fs (r1o_path g) = Returns (f_open []) ->
  fopen_w fs (r2o_path g) = Returns (f_open []) ->
  is_text s1 -> is_text s2 ->
  reader_fits (read_func g) s1 = true -> reader_fits (read_func g) s2 = true ->
  let pairs := combine (records (read_func g) s1) (records (read_func g) s2) in
  forallb (pair_defined g) pairs = true ->
  (Z.of_nat (length pairs) <= INT_MAX)%Z ->
  (length (records (read_func g) s1) <> length (records (read_func g) s2) ->
   (Z.of_nat (length pairs) * 4 <= INT_MAX)%Z) ->
  exists (ret_val : Z) (st : state),
    filter_fastqs_sized g fs initial_counters out = Returns (ret_val, st)
    /\ written (r1o st) = render_all (map fst (filter (keeps g) pairs))
    /\ written (r2o st) = render_all (map snd (filter (keeps g) pairs))
    /\ read_pairs_remaining st = Z.of_nat (length (filter (keeps g) pairs))
    /\ read_pairs_checked st = Z.of_nat (length pairs)
    /\ read_pairs_removed st
       = Z.of_nat (length pairs - length (filter (keeps g) pairs)).
Proof.
  intros Hf1 Hf2 Hi1 Hi2 Ho1 Ho2 T1 T2 L1 L2 pairs Hd Hmax Hoff.
  pose proof (@filter_fastqs_walk g fs initial_counters out (Some s1) (Some s2)
                Hi1 Hi2 Ho1 Ho2 T1 T2) as Hw.
  cbn [pending] in Hw.
  destruct (@walk_kept g (S (length s1)) Hf1 Hf2 s1 s2) as [x [Hx [H1 [H2 [H3 H4]]]]];
    [lia|exact Hd|].
  destruct (@walk_text g (S (length s1)) s1 s2) as [x' [Hx' [Hs _]]];
    [lia|exact Hd|].
  rewrite Hx in Hx'. inversion Hx'; subst x'. clear Hx'.
  fold pairs in H1, H2, H3, H4.
  rewrite Hx in Hw. cbn [bind] in Hw.
  exists (status x), (finish g x (opened (Some s1) (Some s2) initial_counters out)).
  split.
  - apply filter_fastqs_sized_agree.
    + exact Hw.
    + rewrite Hi1. cbn [stream_fits]. auto.
    + rewrite Hi2. cbn [stream_fits]. auto.
    + unfold in_int, INT_MIN, INT_MAX. cbn. lia.
    + unfold in_int, INT_MIN, INT_MAX. cbn. lia.
    + unfold in_int, INT_MIN, INT_MAX. cbn. lia.
    + unfold counters_in_int, in_int, finish, opened, INT_MIN, INT_MAX in *.
      cbn [read_pairs_checked read_pairs_removed read_pairs_remaining
           initial_counters checked0 removed0 remaining0]. lia.
    + intros Hne. assert (Hn : length (records (read_func g) s1)
                               <> length (records (read_func g) s2)).
      { intros E. rewrite Hs in Hne. unfold status_for in Hne.
        apply Nat.eqb_eq in E. rewrite E in Hne. contradiction. }
      specialize (Hoff Hn).
      unfold in_int, finish, opened, INT_MIN, INT_MAX in *.
      cbn [read_pairs_checked initial_counters checked0]. lia.
  - unfold finish, opened.
    cbn [r1i r2i r1o r2o read_pairs_checked read_pairs_removed read_pairs_remaining
         console written initial_counters checked0 removed0 remaining0 app].
    rewrite H1, H2. repeat split; lia.
Qed.

Lemma filter_fastqs_keeps_witness :
  exists (ret_val : Z) (st : state),
    filter_fastqs_sized example_globals
      (example_fs (Some three_reads) (Some two_reads)) initial_counters []
    = Returns (ret_val, st)
    /\ written (r1o st) = render (example_read (str "1101") 6)
    /\ written (r2o st) = render (example_read (str "1101") 7)
    /\ read_pairs_remaining st = 1%Z.
Proof.
  assert (Hmax : (Z.of_nat 2 <= INT_MAX)%Z) by (unfold INT_MAX; lia).
  assert (Hoff : (Z.of_nat 2 * 4 <= INT_MAX)%Z) by (unfold INT_MAX; lia).
  destruct (@filter_fastqs_keeps example_globals
              (example_fs (Some three_reads) (Some two_reads)) []
              (render_all three_reads) (render_all two_reads)
              eq_refl eq_refl eq_refl eq_refl eq_refl eq_refl eq_refl eq_refl
              eq_refl eq_refl eq_refl Hmax (fun _ => Hoff))
    as [ret [st [H [H1 [H2 [H3 _]]]]]].
  exists ret, st. split; [exact H|].
  split; [rewrite H1; vm_compute; reflexivity|].
  split; [rewrite H2; vm_compute; reflexivity|].
  rewrite H3. vm_compute. reflexivity.
Defined.

(** ** The return of the sized loop *)

Lemma filter_iteration_sized_offset (g : config) (st st' : state) (ret_val : Z) :
  filter_iteration_sized g st = Returns (Return ret_val st') ->
  ret_val <> 0%Z -> in_int (read_pairs_checked st' * 4).
Proof.
  unfold filter_iteration_sized. intros H Hne.
  destruct (read_record_sized (read_func g) (r1i st)) as [[r1 f1]| |]; cbn [bind] in H;
    try discriminate H.
  destruct (read_record_sized (read_func g) (r2i st)) as [[r2 f2]| |]; cbn [bind] in H;
    try discriminate H.
  destruct (Ascii.eqb (first_char (header r1)) NUL
            || Ascii.eqb (first_char (header r2)) NUL).
  - destruct (negb (Ascii.eqb (first_char (header r1)) (first_char (header r2)))).
    + destruct (to_int (read_pairs_checked st * 4)) as [line| |] eqn:T;
        cbn [bind] in H; try discriminate H.
      apply to_int_inv in T. destruct T as [_ T].
      destruct (fclose (r1o st)); cbn [bind] in H; try discriminate H.
      destruct (fclose (r2o st)); cbn [bind] in H; try discriminate H.
      inversion H; subst. exact T.
    + cbn [bind] in H.
      destruct (fclose (r1o st)); cbn [bind] in H; try discriminate H.
      destruct (fclose (r2o st)); cbn [bind] in H; try discriminate H.
      inversion H; subst. contradiction.
  - bind_inv H; discriminate H.
Qed.

Lemma filter_loop_sized_offset (fuel : nat) (g : config) :
  forall (st0 st : state) (ret_val : Z),
    filter_loop_sized fuel g st0 = Returns (ret_val, st) ->
    ret_val <> 0%Z -> in_int (read_pairs_checked st * 4).
Proof.
  induction fuel as [|fuel IH]; intros st0 st ret_val H Hne; [discriminate H|].
  cbn [filter_loop_sized] in H.
  destruct (filter_iteration_sized g st0) as [r| |] eqn:E; cbn [bind] in H;
    try discriminate H.
  destruct r as [st'|ret st'].
  - exact (IH _ _ _ H Hne).
  - inversion H; subst. exact (@filter_iteration_sized_offset g st0 st ret_val E Hne).
Qed.

(** X13: whenever [filter_fastqs] returns, the status is 0 or 1, both
    outputs are closed and neither input is still open; the console is as
    it was on entry when the status is 0, and has gained exactly the line
    offset message, passed through [_log], when it is 1; the offset,
    checked * 4, is then a value of type [int]. *)
Theorem filter_fastqs_return (g : config) (fs : filesystem) (c : counters)
  (out : list log_msg) (ret_val : Z) (st : state) :
  filter_fastqs_sized g fs c out = Returns (ret_val, st) ->
  (ret_val = 0%Z \/ ret_val = 1%Z)
  /\ console st =
       (if (ret_val =? 0)%Z then out
        else _log (quiet g) (Log_differing_reads (read_pairs_checked st * 4)) out)
  /\ (ret_val = 1%Z -> in_int (read_pairs_checked st * 4))
  /\ (exists w : cstring, r1o st = f_closed w)
  /\ (exists w : cstring, r2o st = f_closed w)
  /\ (forall s : list ascii, r1i st <> gz_open s)
  /\ (forall s : list ascii, r2i st <> gz_open s).
Proof.
  intros Hs.
  pose proof (refines_returns (filter_fastqs_sized_refines g fs c out) Hs) as H.
  assert (Hoff : ret_val = 1%Z -> in_int (read_pairs_checked st * 4)).
  { intros ->. unfold filter_fastqs_sized in Hs.
    destruct (open_streams g fs c out) as [st0| |]; cbn [bind] in Hs;
      try discriminate Hs.
    apply (filter_loop_sized_offset _ _ _ Hs). discriminate. }
  unfold filter_fastqs in H.
  destruct (open_streams g fs c out) as [st0| |] eqn:E0; cbn [bind] in H;
    try discriminate H.
  apply filter_loop_return in H.
  assert (Hc : console st0 = out).
  { unfold open_streams in E0.
    destruct (fopen_w fs (r1o_path g)); cbn [bind] in E0; try discriminate E0.
    destruct (fopen_w fs (r2o_path g)); cbn [bind] in E0; try discriminate E0.
    inversion E0; subst. reflexivity. }
  rewrite Hc in H. destruct H as [A [B C]]. auto.
Qed.

Lemma filter_fastqs_return_witness :
  exists st : state,
    filter_fastqs_sized example_globals
      (example_fs (Some three_reads) (Some two_reads)) initial_counters []
    = Returns (1%Z, st)
    /\ console st = [Log_differing_reads 8]
    /\ (exists w : cstring, r1o st = f_closed w).
Proof.
  eexists. split; [vm_compute; reflexivity|].
  match goal with
  | |- context [console ?s] =>
      destruct (@filter_fastqs_return example_globals
                  (example_fs (Some three_reads) (Some two_reads))
                  initial_counters [] 1%Z s) as [_ [H2 [_ [H3 _]]]];
        [vm_compute; reflexivity|]
  end.
  split; [exact H2|exact H3].
Defined.

(** ** The growable reader at the end of [int] *)

Lemma gz_take_repeat (n : nat) (t : list ascii) :
  gz_take n (repeat "A"%char n ++ t) = (repeat "A"%char n, t).
Proof.
  induction n as [|n IH]; [destruct t; reflexivity|].
  cbn [repeat app gz_take]. change (Ascii.eqb "A"%char newline) with false.
  cbn iota. now rewrite IH.
Qed.

Lemma is_text_repeat (n : nat) : is_text (repeat "A"%char n).
Proof.
  induction n as [|n IH]; [reflexivity|]. cbn [repeat].
  apply is_text_cons. split; [discriminate|exact IH].
Qed.

Lemma last_char_repeat (c : ascii) (n : nat) :
  last_char (repeat c (S n)) = Returns c.
Proof.
  induction n as [|n IH]; [reflexivity|].
  change (repeat c (S (S n))) with (c :: repeat c (S n)).
  rewrite last_char_cons by discriminate. exact IH.
Qed.

(** A line that fills [k] chunks without a newline takes the loop through
    [k] passes; the pass on which [_block_size] would leave [int] is
    undefined. *)
Lemma readln_loop_sized_overflow (k : nat) :
  forall (fuel : nat) (b : Z) (line : cstring) (rest : list ascii),
    k < fuel ->
    (INT_MAX < b + 2048 * (Z.of_nat k + 1))%Z ->
    readln_loop_sized fuel b line
      (gz_open (repeat "A"%char ((block_size - 1) * k) ++ rest)) = Undefined.
Proof.
  induction k as [|k IH]; intros fuel b line rest Hf Hb.
  - destruct fuel as [|fuel]; [lia|]. cbn [readln_loop_sized].
    change (Z.of_nat block_size) with 2048%Z.
    destruct (Z.gtb_spec (b + 2048) INT_MAX) as [_|Hc]; [reflexivity|lia].
  - destruct fuel as [|fuel]; [lia|]. cbn [readln_loop_sized].
    change (Z.of_nat block_size) with 2048%Z.
    destruct (Z.gtb_spec (b + 2048) INT_MAX) as [_|Hc]; [reflexivity|].
    rewrite Nat.mul_succ_r, Nat.add_comm, repeat_app, <- app_assoc.
    set (tail := repeat "A"%char ((block_size - 1) * k) ++ rest).
    rewrite gzgets_open, gz_take_repeat. cbn [fst snd].
    assert (Hn : block_size - 1 = S (block_size - 2)) by reflexivity.
    destruct (repeat "A"%char (block_size - 1)) as [|a chunk] eqn:Ec.
    { exfalso. revert Ec. rewrite Hn. cbn [repeat]. discriminate. }
    rewrite <- Ec. rewrite repeat_length.
    change (block_size <? block_size - 1 + 1) with false. cbn iota.
    match goal with
    | |- (if ?c then _ else _) = _ => destruct c; [reflexivity|]
    end.
    unfold strcat. rewrite (c_str_text (is_text_repeat _)).
    rewrite last_char_app by (rewrite Ec; discriminate).
    rewrite Hn, last_char_repeat, <- Hn. cbn [bind].
    change (Ascii.eqb "A"%char newline) with false. cbn iota.
    subst tail. apply IH; lia.
Qed.

(** C7: the growable reader has a limit.  [_block_size] is an [int] that
    grows by [block_size] on every pass of the loop; on a stream whose first
    2047 * 1048574 bytes hold no newline the 1048575th pass adds 2048 to
    2048 * 1048575, which overflows, so [readln] has no defined result
    there, whatever follows. *)
Theorem readln_long_line_overflows (n : nat) (rest : list ascii) :
  readln_sized
    (gz_open (repeat "A"%char ((block_size - 1) * Z.to_nat 1048574 + n) ++ rest))
  = Undefined.
Proof.
  unfold readln_sized. cbn [gz_pending].
  rewrite repeat_app, <- app_assoc.
  apply readln_loop_sized_overflow.
  - rewrite length_app, repeat_length. change (block_size - 1) with 2047. lia.
  - change (Z.of_nat block_size) with 2048%Z. unfold INT_MAX. lia.
Qed.

(** ** Trimmed records read back *)

Lemma ends_line_cut (l : cstring) :
  forall n : nat,
    ends_line l = true -> n + 1 < length l ->
    ends_line (firstn n l ++ [newline]) = true.
Proof.
  induction l as [|c l IH]; intros n He Hn; [discriminate He|].
  cbn [ends_line] in He. destruct l as [|d l]; [cbn in Hn; lia|].
  apply andb_true_iff in He. destruct He as [Hc Hl].
  destruct n as [|n]; [reflexivity|].
  assert (Hn' : n + 1 < length (d :: l)) by (cbn [length] in *; lia).
  specialize (IH n Hl Hn').
  change (firstn (S n) (c :: d :: l) ++ [newline])
    with (c :: (firstn n (d :: l) ++ [newline])).
  destruct (firstn n (d :: l) ++ [newline]) as [|a x] eqn:E.
  - apply app_eq_nil in E. destruct E as [_ E]. discriminate E.
  - cbn [ends_line]. rewrite Hc. exact IH.
Qed.

Lemma is_line_cut (rf : read_fn) (l : cstring) (n : nat) :
  is_line rf l = true -> n + 1 < length l ->
  is_line rf (firstn n l ++ [newline]) = true.
Proof.
  unfold is_line. intros H Hn.
  apply andb_true_iff in H. destruct H as [H Hrf].
  apply andb_true_iff in H. destruct H as [Ht He].
  assert (Ht' : is_text (firstn n l ++ [newline])).
  { apply is_text_app. split; [|reflexivity].
    change (is_text l) in Ht. rewrite <- (firstn_skipn n l) in Ht.
    now apply is_text_app in Ht. }
  unfold is_text in Ht'. rewrite Ht', (@ends_line_cut l n He Hn). cbn [andb].
  destruct rf; [reflexivity|].
  apply Nat.leb_le in Hrf. apply Nat.leb_le.
  rewrite length_app, firstn_length_le by lia. cbn [length]. lia.
Qed.

(** What [_trim_include] leaves of a well-formed record is well-formed. *)
Lemma is_record_truncate (rf : read_fn) (r : fastq) (len : nat) :
  is_record rf r = true -> strlen (qual r) = strlen (seq r) ->
  is_record rf (truncate r len) = true.
Proof.
  intros H Hq. unfold truncate.
  destruct (Nat.ltb_spec (len + 1) (strlen (seq r))) as [Hlt|_]; [|exact H].
  unfold is_record in *. cbn [header seq strand qual].
  apply andb_true_iff in H. destruct H as [H Hql].
  apply andb_true_iff in H. destruct H as [H Hp].
  apply andb_true_iff in H. destruct H as [Hh Hs].
  unfold strlen in *.
  rewrite Hh, Hp, (@is_line_cut rf (seq r) len Hs Hlt).
  rewrite (@is_line_cut rf (qual r) len Hql) by lia. reflexivity.
Qed.

Lemma truncate_lengths (r : fastq) (len : nat) :
  strlen (qual r) = strlen (seq r) ->
  strlen (seq (truncate r len)) = Nat.min (strlen (seq r)) (len + 1)
  /\ strlen (qual (truncate r len)) = strlen (seq (truncate r len)).
Proof.
  intros Hq. unfold truncate.
  destruct (Nat.ltb_spec (len + 1) (strlen (seq r))) as [Hlt|Hge];
    cbn [seq qual]; unfold strlen in *.
  - rewrite !length_app, !firstn_length_le by lia. cbn [length]. lia.
  - lia.
Qed.

(** X7: trimming is idempotent on what it writes.  For a well-formed
    record whose quality line is as long as its sequence line,
    [_trim_include] appends to the output the text of the record cut to
    [len]; the reader delivers that record back from the text; its sequence
    and quality lines have the length of the shorter of the original line
    and [len + 1]; and [_trim_include] with the same length writes the
    delivered record as it is. *)
Theorem trim_include_idempotent (rf : read_fn) (r : fastq) (w : cstring) (len : nat) :
  (Z.of_nat len < INT_MAX)%Z ->
  is_record rf r = true ->
  strlen (qual r) = strlen (seq r) ->
  exists (text : cstring) (r' : fastq),
    _trim_include r (f_open w) (Z.of_nat len) = Returns (f_open (w ++ text))
    /\ text = render (truncate r len)
    /\ record_text rf text = (r', [])
    /\ strlen (seq r') = Nat.min (strlen (seq r)) (len + 1)
    /\ strlen (qual r') = strlen (seq r')
    /\ _trim_include r' (f_open w) (Z.of_nat len) = Returns (f_open (w ++ text)).
Proof.
  intros Hlen Hrec Hq. exists (render (truncate r len)), (truncate r len).
  destruct (truncate_lengths r len Hq) as [Hs1 Hs2].
  split; [rewrite trim_include_as_truncate by lia; apply std_include_open|].
  split; [reflexivity|].
  split.
  { rewrite <- (app_nil_r (render (truncate r len))).
    apply record_text_render. now apply is_record_truncate. }
  split; [exact Hs1|]. split; [exact Hs2|].
  rewrite trim_include_as_truncate by lia.
  rewrite std_include_open. do 3 f_equal. unfold truncate at 1.
  destruct (Nat.ltb_spec (len + 1) (strlen (seq (truncate r len)))) as [Hc|_];
    [lia|reflexivity].
Qed.

Lemma trim_include_idempotent_witness :
  let r := example_read (str "1101") 76 in
  (Z.of_nat 50 < INT_MAX)%Z
  /\ is_record Readln r = true
  /\ strlen (qual r) = strlen (seq r)
  /\ exists (text : cstring) (r' : fastq),
       _trim_include r (f_open []) 50 = Returns (f_open text)
       /\ record_text Readln text = (r', [])
       /\ strlen (seq r') = 51
       /\ _trim_include r' (f_open []) 50 = Returns (f_open text).
Proof.
  intros r.
  assert (H1 : (Z.of_nat 50 < INT_MAX)%Z) by (unfold INT_MAX; lia).
  assert (H2 : is_record Readln r = true) by reflexivity.
  assert (H3 : strlen (qual r) = strlen (seq r)) by reflexivity.
  split; [exact H1|]. split; [exact H2|]. split; [exact H3|].
  destruct (@trim_include_idempotent Readln r [] 50 H1 H2 H3)
    as [text [r' [A [_ [B [C [_ D]]]]]]].
  exists text, r'. split; [exact A|]. split; [exact B|].
  split; [rewrite C; reflexivity|exact D].
Defined.

(** X18: trimming below the threshold.  When [len + 1 <= threshold], the
    record that the reader delivers back from what [_trim_include] wrote for
    a well-formed record has a sequence line of at most [len + 1] bytes, so
    no pair that contains it, as first or as second mate, passes
    [std_check_read] under that threshold. *)
Theorem trimmed_below_threshold (rf : read_fn) (r : fastq) (w : cstring) (len : nat)
  (t : Z) :
  (Z.of_nat len + 1 <= t)%Z -> (t <= INT_MAX)%Z ->
  is_record rf r = true ->
  strlen (qual r) = strlen (seq r) ->
  exists text : cstring,
    _trim_include r (f_open w) (Z.of_nat len) = Returns (f_open (w ++ text))
    /\ (strlen (seq (fst (record_text rf text))) <= len + 1)
    /\ forall other : fastq,
         std_check_read t (fst (record_text rf text)) other = false
         /\ std_check_read t other (fst (record_text rf text)) = false.
Proof.
  intros Ht Hmax Hrec Hq. exists (render (truncate r len)).
  split; [rewrite trim_include_as_truncate by lia; apply std_include_open|].
  assert (E : record_text rf (render (truncate r len)) = (truncate r len, [])).
  { rewrite <- (app_nil_r (render (truncate r len))).
    apply record_text_render. now apply is_record_truncate. }
  rewrite E. cbn [fst].
  destruct (truncate_lengths r len Hq) as [Hs1 _].
  split; [lia|].
  intros other. unfold std_check_read. rewrite to_size_t_small by lia.
  destruct (Z.gtb_spec (Z.of_nat (strlen (seq (truncate r len)))) t) as [Hc|_];
    [lia|].
  split; [reflexivity|apply andb_false_r].
Qed.

Lemma trimmed_below_threshold_witness :
  let r := example_read (str "1101") 76 in
  (Z.of_nat 20 + 1 <= 30)%Z /\ (30 <= INT_MAX)%Z
  /\ is_record Readln r = true
  /\ strlen (qual r) = strlen (seq r)
  /\ std_check_read 30 r r = true
  /\ exists text : cstring,
       _trim_include r (f_open []) 20 = Returns (f_open text)
       /\ std_check_read 30 (fst (record_text Readln text))
            (fst (record_text Readln text)) = false.
Proof.
  intros r.
  assert (H1 : (Z.of_nat 20 + 1 <= 30)%Z) by lia.
  assert (H2 : (30 <= INT_MAX)%Z) by (unfold INT_MAX; lia).
  assert (H3 : is_record Readln r = true) by reflexivity.
  assert (H4 : strlen (qual r) = strlen (seq r)) by reflexivity.
  split; [exact H1|]. split; [exact H2|]. split; [exact H3|]. split; [exact H4|].
  split; [reflexivity|].
  destruct (@trimmed_below_threshold Readln r [] 20 30%Z H1 H2 H3 H4)
    as [text [A [_ B]]].
  exists text. split; [exact A|exact (proj1 (B _))].
Defined.

(** ** The two loops side by side *)

(** X19: the sized run and the plain run.  The sized run never runs out of
    fuel and returns nothing but what the plain run returns.  Where the
    plain run returns, each input that could be opened is text whose lines
    the reader can take, the counters start and end inside [int] and, for a
    status other than 0, so does the line offset, the sized run returns the
    same status and state. *)
Theorem sized_run_is_plain_run (g : config) (fs : filesystem) (c : counters)
  (out : list log_msg) :
  filter_fastqs_sized g fs c out <> OutOfFuel
  /\ (forall res : Z * state,
        filter_fastqs_sized g fs c out = Returns res ->
        filter_fastqs g fs c out = Returns res)
  /\ (forall (ret_val : Z) (st : state),
        filter_fastqs g fs c out = Returns (ret_val, st) ->
        stream_fits (read_func g) (gzopen fs (r1i_path g)) ->
        stream_fits (read_func g) (gzopen fs (r2i_path g)) ->
        in_int (checked0 c) -> in_int (removed0 c) -> in_int (remaining0 c) ->
        counters_in_int st ->
        (ret_val <> 0%Z -> in_int (read_pairs_checked st * 4)) ->
        filter_fastqs_sized g fs c out = Returns (ret_val, st)).
Proof.
  split; [apply filter_fastqs_sized_fuel|]. split.
  - intros res. apply refines_returns, filter_fastqs_sized_refines.
  - intros ret_val st. apply filter_fastqs_sized_agree.
Qed.

Lemma sized_run_is_plain_run_witness :
  filter_fastqs_sized example_globals
    (example_fs (Some three_reads) (Some two_reads)) initial_counters []
  = filter_fastqs example_globals
      (example_fs (Some three_reads) (Some two_reads)) initial_counters [].
Proof.
  destruct (filter_fastqs example_globals
              (example_fs (Some three_reads) (Some two_reads)) initial_counters [])
    as [[ret st]| |] eqn:E; try (vm_compute in E; discriminate E).
  refine (proj2 (proj2 (@sized_run_is_plain_run example_globals
            (example_fs (Some three_reads) (Some two_reads)) initial_counters []))
            ret st E _ _ _ _ _ _ _).
  - cbn. split; reflexivity.
  - cbn. split; reflexivity.
  - unfold in_int, INT_MIN, INT_MAX. cbn. lia.
  - unfold in_int, INT_MIN, INT_MAX. cbn. lia.
  - unfold in_int, INT_MIN, INT_MAX. cbn. lia.
  - vm_compute in E. inversion E; subst.
    unfold counters_in_int, in_int, INT_MIN, INT_MAX. cbn. lia.
  - intros _. vm_compute in E. inversion E; subst.
    unfold in_int, INT_MIN, INT_MAX. cbn. lia.
Defined.
